(** * npm-dependency-checker: version classification, recommendations and reports

    A shallow embedding of the pure core of the command line tool:
    - [services/parser.js]  : [extractDependencies], [parseVersionRange]
    - [commands/check.js]   : [getUpdateType], [checkDependencies], [generateReport]
                              (the check command, required by cli.js)
    - [commands/update.js]  : [getUpdateType], [analyzeAvailableUpdates],
                              [generateRecommendations], [generateUpdateReport]
    - [commands/audit.js]   : [performSecurityAudit], [generateAuditReport],
                              the severity sort of [displayAuditResults]

    The program relies on the [semver] package.  Its regular-expression
    front end ([semver.parse], [semver.validRange]) is kept abstract in the
    class [Semver.Library]; everything the package computes from a parsed
    version (comparison, [clean], [valid], [gt], ...) is written out. *)

From Stdlib Require Import ZArith NArith List String Ascii Bool Lia.
From Stdlib Require Import Sorting.Sorted Sorting.Permutation.
From Stdlib Require Import DecimalString DecimalN DecimalFacts.
Import ListNotations.

Local Open Scope string_scope.
Local Open Scope list_scope.

(** ** JavaScript values and exceptions *)

Module JS.

(** A thrown exception.  Only [TypeError] is raised by the code under
    study (by [new SemVer(...)] on an invalid version, or by a property
    access on [undefined]). *)
Inductive error : Type :=
| TypeError (message : string).

(** Outcome of a computation that may throw. *)
Inductive result (A : Type) : Type :=
| Ok (a : A)
| Throw (e : error).
Arguments Ok {A} a.
Arguments Throw {A} e.

Definition ret {A} (a : A) : result A := Ok a.

Definition bind {A B} (m : result A) (k : A -> result B) : result B :=
  match m with
  | Ok a => k a
  | Throw e => Throw e
  end.

(** [mapM f l]: run [f] on each element from left to right, stopping at
    the first exception. *)
Fixpoint mapM {A B} (f : A -> result B) (l : list A) : result (list B) :=
  match l with
  | [] => Ok []
  | x :: l' =>
      bind (f x) (fun y => bind (mapM f l') (fun ys => Ok (y :: ys)))
  end.

(** Truthiness of a value that is either a string or [null]. *)
Definition truthy (v : option string) : bool :=
  match v with
  | Some s => negb (s =? "")
  | None => false
  end.

(** [a || b] on strings-or-null. *)
Definition or_else (a : option string) (b : string) : string :=
  match a with
  | Some s => if s =? "" then b else s
  | None => b
  end.

(** [a || b] on numbers. *)
Definition lor_num (a b : Z) : Z := if (a =? 0)%Z then b else a.

(** The settled outcome of a promise, as [Promise.allSettled] reports it. *)
Inductive settled (A : Type) : Type :=
| fulfilled (value : A)
| rejected (reason : string).
Arguments fulfilled {A} value.
Arguments rejected {A} reason.

(** [Array.prototype.sort(compareFn)].  The sort is stable; for a
    comparator that is consistent on the array its result is the unique
    stable sorted arrangement, which a stable insertion sort computes.
    For a comparator that is not consistent the language leaves the order
    to the engine, and only the elements of the result are determined:
    every statement below about the order of a sorted array is made
    under a condition that makes the comparator consistent on it.  The
    comparator may throw, which aborts the sort. *)
Section Sort.
Context {A : Type} (compareFn : A -> A -> result Z).

Fixpoint insert (x : A) (l : list A) : result (list A) :=
  match l with
  | [] => Ok [x]
  | y :: l' =>
      bind (compareFn x y) (fun c =>
        if (0 <? c)%Z
        then bind (insert x l') (fun r => Ok (y :: r))
        else Ok (x :: y :: l'))
  end.

Fixpoint sort (l : list A) : result (list A) :=
  match l with
  | [] => Ok []
  | x :: l' => bind (sort l') (insert x)
  end.
End Sort.

(** [String.prototype.trim], on the ASCII white space characters
    (tab, line feed, vertical tab, form feed, carriage return, space). *)
Definition is_space (c : ascii) : bool :=
  let n := nat_of_ascii c in
  ((9 <=? n) && (n <=? 13) || (n =? 32))%nat.

Fixpoint trimStart (s : string) : string :=
  match s with
  | String c s' => if is_space c then trimStart s' else s
  | EmptyString => EmptyString
  end.

Fixpoint trimEnd (s : string) : string :=
  match s with
  | String c s' =>
      match trimEnd s' with
      | EmptyString => if is_space c then EmptyString else String c EmptyString
      | t => String c t
      end
  | EmptyString => EmptyString
  end.

Definition trim (s : string) : string := trimEnd (trimStart s).

(** [String.prototype.toLowerCase] on ASCII letters. *)
Definition lower (c : ascii) : ascii :=
  let n := nat_of_ascii c in
  if ((65 <=? n) && (n <=? 90))%nat then ascii_of_nat (n + 32) else c.

Fixpoint toLowerCase (s : string) : string :=
  match s with
  | String c s' => String (lower c) (toLowerCase s')
  | EmptyString => EmptyString
  end.

(** [Array.prototype.indexOf] on an array of strings ([-1] when absent). *)
Fixpoint indexOf_from (i : Z) (l : list string) (x : string) : Z :=
  match l with
  | [] => (-1)%Z
  | y :: l' => if y =? x then i else indexOf_from (i + 1)%Z l' x
  end.

Definition indexOf (l : list string) (x : string) : Z := indexOf_from 0%Z l x.

(** A [Map] keeps one entry per key, in insertion order; [set] on an
    existing key replaces the value in place. *)
Definition Map (V : Type) : Type := list (string * V).

Fixpoint map_set {V} (k : string) (v : V) (m : Map V) : Map V :=
  match m with
  | [] => [(k, v)]
  | (k', v') :: m' =>
      if k' =? k then (k, v) :: m' else (k', v') :: map_set k v m'
  end.

Fixpoint map_get {V} (k : string) (m : Map V) : option V :=
  match m with
  | [] => None
  | (k', v') :: m' => if k' =? k then Some v' else map_get k m'
  end.

Definition map_keys {V} (m : Map V) : list string := List.map fst m.
Definition map_size {V} (m : Map V) : nat := List.length m.

(** Strings of decimal digits and the integer they write. *)
Definition is_digit (c : ascii) : bool :=
  let n := nat_of_ascii c in ((48 <=? n) && (n <=? 57))%nat.

Fixpoint all_digits (s : string) : bool :=
  match s with
  | EmptyString => true
  | String c s' => is_digit c && all_digits s'
  end.

Fixpoint decimal_from (acc : N) (s : string) : N :=
  match s with
  | EmptyString => acc
  | String c s' =>
      decimal_from (acc * 10 + N.of_nat (nat_of_ascii c - 48)) s'
  end.

(** A property name that is an array index: the canonical decimal
    numeral of an integer from [0] to [2^32 - 2]. *)
Definition arrayIndex (k : string) : option N :=
  match k with
  | EmptyString => None
  | String c rest =>
      if all_digits k && ((k =? "0") || negb (c =? "0")%char)
      then let n := decimal_from 0 k in
           if (n <? 4294967295)%N then Some n else None
      else None
  end.

(** The order in which the own properties of an object are enumerated
    ([Object.entries], [Object.keys]): the array indices in ascending
    order, then the other names in the order of their creation.
    [properties] lists the own properties in the order of their
    creation. *)
Section Enumeration.
Context {V : Type}.

Fixpoint insertIndexed (i : N) (e : string * V)
  (l : list (N * (string * V))) : list (N * (string * V)) :=
  match l with
  | [] => [(i, e)]
  | (j, e') :: l' =>
      if (i <=? j)%N then (i, e) :: l else (j, e') :: insertIndexed i e l'
  end.

Fixpoint indexed (properties : list (string * V)) : list (N * (string * V)) :=
  match properties with
  | [] => []
  | (k, v) :: rest =>
      match arrayIndex k with
      | Some i => insertIndexed i (k, v) (indexed rest)
      | None => indexed rest
      end
  end.

Definition named (properties : list (string * V)) : list (string * V) :=
  filter (fun e => match arrayIndex (fst e) with
                   | Some _ => false
                   | None => true
                   end)
         properties.

Definition objectEntries (properties : list (string * V)) : list (string * V) :=
  List.map snd (indexed properties) ++ named properties.
End Enumeration.

End JS.

Import JS.

Declare Scope js_scope.
Delimit Scope js_scope with js.
Notation "x <- m ;; k" := (JS.bind m (fun x => k))
  (at level 61, m at next level, right associativity) : js_scope.
Local Open Scope js_scope.

(** ** The [semver] package *)

Module Semver.

(** A pre-release identifier, as the constructor of [SemVer] stores it:
    a numeric identifier below [MAX_SAFE_INTEGER] as a number, any other
    identifier as its text.  The text of an [IdStr] may therefore consist
    of digits only, for a numeric identifier at or above
    [MAX_SAFE_INTEGER]. *)
Inductive identifier : Type :=
| IdNum (n : N)
| IdStr (s : string).

Definition MAX_SAFE_INTEGER : N := 9007199254740991.

(** The fields of a [SemVer] object that the program reads or that take
    part in comparison.  [version] is the normalized text
    ["major.minor.patch[-prerelease]"]. *)
Record SemVer : Type := mkSemVer {
  version : string;
  major : N;
  minor : N;
  patch : N;
  prerelease : list identifier
}.

(** The grammar front end of the package. [parse] is [semver.parse] in
    strict mode ([None] is [null]); [validRange] is [semver.validRange]. *)
Class Library : Type := {
  parse : string -> option SemVer;
  validRange : string -> option string
}.

Definition identifier_eqb (a b : identifier) : bool :=
  match a, b with
  | IdNum x, IdNum y => (x =? y)%N
  | IdStr x, IdStr y => (x =? y)%string
  | _, _ => false
  end.

(** [/^[0-9]+$/.test(s)]. *)
Definition numeric (s : string) : bool :=
  match s with
  | EmptyString => false
  | String _ _ => all_digits s
  end.

(** The Number nearest to a non-negative integer: the integer itself up
    to 53 significant bits, beyond that the integer rounded to 53
    significant bits, a tie going to the even one.  (A version is at most
    256 characters long, so the integer is below [2^1024] and the result
    is finite.) *)
Definition roundToNumber (n : N) : N :=
  let bits := N.size n in
  if (bits <=? 53)%N then n
  else
    let k := (bits - 53)%N in
    let q := N.shiftr n k in
    let r := (n mod 2 ^ k)%N in
    let half := (2 ^ (k - 1))%N in
    let q' := if ((half <? r) || ((r =? half) && N.odd q))%N
              then (q + 1)%N else q in
    N.shiftl q' k.

(** [+s] for a string of digits. *)
Definition toNumber (s : string) : N := roundToNumber (decimal_from 0 s).

(** [numeric.test(a)] on an identifier: a number is printed in digits. *)
Definition isNumeric (a : identifier) : bool :=
  match a with
  | IdNum _ => true
  | IdStr s => numeric s
  end.

(** [+a] on a numeric identifier. *)
Definition numberOf (a : identifier) : N :=
  match a with
  | IdNum n => n
  | IdStr s => toNumber s
  end.

(** [a < b] on two identifiers that are not both numeric, where it is
    reached for two strings only. *)
Definition lessThan (a b : identifier) : bool :=
  match a, b with
  | IdStr x, IdStr y => String.ltb x y
  | _, _ => false
  end.

(** [compareIdentifiers(a, b)]: two numeric identifiers are compared as
    Numbers, the strings among them after conversion; a numeric
    identifier sorts below any other; other strings are compared by code
    unit order. *)
Definition compareIdentifiers (a b : identifier) : Z :=
  let anum := isNumeric a in
  let bnum := isNumeric b in
  if anum && bnum then
    let x := numberOf a in
    let y := numberOf b in
    if (x =? y)%N then 0%Z else if (x <? y)%N then (-1)%Z else 1%Z
  else if identifier_eqb a b then 0%Z
  else if anum && negb bnum then (-1)%Z
  else if bnum && negb anum then 1%Z
  else if lessThan a b then (-1)%Z else 1%Z.

Definition compareMain (a b : SemVer) : Z :=
  lor_num (compareIdentifiers (IdNum (major a)) (IdNum (major b)))
    (lor_num (compareIdentifiers (IdNum (minor a)) (IdNum (minor b)))
             (compareIdentifiers (IdNum (patch a)) (IdNum (patch b)))).

(** The [do ... while (++i)] loop of [comparePre]: identical identifiers
    are skipped, the first pair that is not identical decides, also when
    [compareIdentifiers] finds the pair equal as Numbers. *)
Fixpoint comparePreLoop (a b : list identifier) : Z :=
  match a, b with
  | [], [] => 0%Z
  | _ :: _, [] => 1%Z
  | [], _ :: _ => (-1)%Z
  | x :: a', y :: b' =>
      if identifier_eqb x y then comparePreLoop a' b'
      else compareIdentifiers x y
  end.

Definition comparePre (a b : SemVer) : Z :=
  match prerelease a, prerelease b with
  | _ :: _, [] => (-1)%Z
  | [], _ :: _ => 1%Z
  | [], [] => 0%Z
  | pa, pb => comparePreLoop pa pb
  end.

(** [SemVer.prototype.compare]. *)
Definition compareSemVer (a b : SemVer) : Z :=
  if (version a =? version b)%string then 0%Z
  else lor_num (compareMain a b) (comparePre a b).

Section Api.
Context {L : Library}.

(** [semver.parse] applied to a value that may be [null]. *)
Definition parse_value (v : option string) : option SemVer :=
  match v with
  | Some s => parse s
  | None => None
  end.

(** [new SemVer(v)] throws on an invalid version. *)
Definition newSemVer (v : string) : result SemVer :=
  match parse v with
  | Some s => Ok s
  | None => Throw (TypeError ("Invalid Version: " ++ v))
  end.

(** [semver.valid(v)]. *)
Definition valid (v : option string) : option string :=
  option_map version (parse_value v).

(** [version.replace(/^[=v]+/, '')]. *)
Fixpoint stripEqV (s : string) : string :=
  match s with
  | String c s' => if ((c =? "=") || (c =? "v"))%char then stripEqV s' else s
  | EmptyString => EmptyString
  end.

(** [semver.clean(v)]. *)
Definition clean (v : string) : option string :=
  option_map version (parse (stripEqV (trim v))).

(** [semver.major(v)], [semver.minor(v)], [semver.patch(v)]. *)
Definition majorOf (v : string) : result N := s <- newSemVer v ;; Ok (major s).
Definition minorOf (v : string) : result N := s <- newSemVer v ;; Ok (minor s).
Definition patchOf (v : string) : result N := s <- newSemVer v ;; Ok (patch s).

(** [semver.compare(a, b)] and [semver.gt(a, b)]. *)
Definition compare (a b : string) : result Z :=
  x <- newSemVer a ;; y <- newSemVer b ;; Ok (compareSemVer x y).

Definition gt (a b : string) : result bool :=
  c <- compare a b ;; Ok (0 <? c)%Z.
End Api.

(** What the program needs from the grammar front end. *)
Section Laws.
Context (L : Library).

(** The empty string is not a version. *)
Definition parse_empty : Prop := parse "" = None.

(** The normalized text of a parsed version parses to the same
    version. *)
Definition parse_version : Prop :=
  forall s v, parse s = Some v -> parse (version v) = Some v.

(** ["0.0.0"] is the version with all three components zero and no
    pre-release tag. *)
Definition parse_zero : Prop :=
  exists z, parse "0.0.0" = Some z /\
            major z = 0%N /\ minor z = 0%N /\ patch z = 0%N /\
            prerelease z = [].
End Laws.

End Semver.

(** ** services/parser.js *)

Module Parser.

(** The object returned by [parseVersionRange]. *)
Record VersionRangeInfo : Type := mkVersionRangeInfo {
  original : string;
  clean : option string;
  valid : option string;
  range : option string;
  isExact : bool;
  isRange : bool;
  major : option N;
  minor : option N;
  patch : option N
}.

(** A dependency record stored in the map of [extractDependencies];
    [type] is the name of the section it was read from. *)
Record dependency : Type := mkDependency {
  name : string;
  version : string;
  type : string;
  depRange : VersionRangeInfo
}.

(** A value found under a key of the manifest.  A dependency section is
    an object whose properties map package names to version specifiers;
    it is given by its properties in the order of the manifest, which is
    the order of their creation by [JSON.parse]. *)
Inductive jsvalue : Type :=
| JNull
| JBool (b : bool)
| JNumber (z : Z)
| JString (s : string)
| JObject (properties : list (string * string)).

(** The parsed manifest: property name to value, [None] being
    [undefined]. *)
Definition manifest : Type := list (string * jsvalue).

Definition property (packageJson : manifest) (key : string) : option jsvalue :=
  map_get key packageJson.

Definition truthy_value (v : option jsvalue) : bool :=
  match v with
  | None | Some JNull => false
  | Some (JBool b) => b
  | Some (JNumber z) => negb (z =? 0)%Z
  | Some (JString s) => negb (s =? "")
  | Some (JObject _) => true
  end.

Definition typeof (v : option jsvalue) : string :=
  match v with
  | None => "undefined"
  | Some JNull => "object"
  | Some (JBool _) => "boolean"
  | Some (JNumber _) => "number"
  | Some (JString _) => "string"
  | Some (JObject _) => "object"
  end.

(** [Object.entries(deps)] for a value that passed the guard. *)
Definition entries_of (v : option jsvalue) : list (string * string) :=
  match v with
  | Some (JObject properties) => objectEntries properties
  | _ => []
  end.

Definition dependencyTypes : list string :=
  ["dependencies"; "devDependencies"; "peerDependencies"; "optionalDependencies"].

Section WithLibrary.
Context {L : Semver.Library}.

(** [valid ? semver.major(valid) : null] and its two siblings. *)
Definition component (f : string -> result N) (valid : option string)
  : result (option N) :=
  match valid with
  | Some v => if truthy valid then (n <- f v ;; Ok (Some n)) else Ok None
  | None => Ok None
  end.

Definition parseVersionRange (version : string) : result VersionRangeInfo :=
  let clean := Semver.clean version in
  let valid := Semver.valid clean in
  let range := Semver.validRange version in
  mj <- component Semver.majorOf valid ;;
  mn <- component Semver.minorOf valid ;;
  pt <- component Semver.patchOf valid ;;
  Ok {| original := version;
        clean := clean;
        valid := valid;
        range := range;
        isExact := match valid with Some _ => true | None => false end;
        isRange := match range, valid with
                   | Some _, None => true
                   | _, _ => false
                   end;
        major := mj;
        minor := mn;
        patch := pt |}.

(** The inner [for ... of Object.entries(deps)] loop. *)
Fixpoint setEntries (depType : string) (es : list (string * string))
  (dependencies : Map dependency) : result (Map dependency) :=
  match es with
  | [] => Ok dependencies
  | (name, version) :: es' =>
      r <- parseVersionRange version ;;
      setEntries depType es'
        (map_set name
           {| name := name; version := version; type := depType;
              depRange := r |}
           dependencies)
  end.

(** The outer [for ... of this.dependencyTypes] loop. *)
Fixpoint extractSections (packageJson : manifest) (types : list string)
  (dependencies : Map dependency) : result (Map dependency) :=
  match types with
  | [] => Ok dependencies
  | depType :: types' =>
      let deps := property packageJson depType in
      if truthy_value deps && (typeof deps =? "object")
      then d <- setEntries depType (entries_of deps) dependencies ;;
           extractSections packageJson types' d
      else extractSections packageJson types' dependencies
  end.

Definition extractDependencies (packageJson : manifest)
  : result (Map dependency) :=
  extractSections packageJson dependencyTypes [].
End WithLibrary.

End Parser.

(** ** services/npm-registry.js *)

Module Registry.

(** A vulnerability record, in the shape of the entries in audit.js. *)
Record vulnerability : Type := mkVulnerability {
  id : string;
  severity : string;
  title : string;
  description : string;
  affectedVersions : string;
  fixedVersions : string;
  cwe : string
}.

(** The answers of the remote registry, one settled promise per package
    name.  [getLatestVersion] fulfils with the [latest] dist-tag or
    [null]; [getVersions] fulfils with the list of published versions. *)
Class Service : Type := {
  getLatestVersion : string -> settled (option string);
  getVersions : string -> settled (list string)
}.

(** [getVulnerabilities] returns an empty array, cached or fresh. *)
Definition getVulnerabilities (packageName version : string)
  : list vulnerability := [].

End Registry.

(** ** commands/check.js *)

Module CheckCmd.

Record checkResult : Type := mkCheckResult {
  name : string;
  currentVersion : string;
  latestVersion : option string;
  updateAvailable : bool;
  updateType : option string;
  vulnerabilities : list Registry.vulnerability;
  dependencyType : string;
  range : Parser.VersionRangeInfo
}.

Record summary : Type := mkSummary {
  total : nat;
  upToDate : nat;
  outdated : nat;
  majorUpdates : nat;
  minorUpdates : nat;
  patchUpdates : nat;
  vulnerabilityCount : nat
}.

Definition is_type (t : string) (ut : option string) : bool :=
  match ut with
  | Some s => s =? t
  | None => false
  end.

(** The [summary] object built by [generateReport]. *)
Definition generateReport (results : list checkResult) : summary :=
  {| total := List.length results;
     upToDate := List.length (filter (fun r => negb (updateAvailable r)) results);
     outdated := List.length (filter (fun r => updateAvailable r) results);
     majorUpdates := List.length (filter (fun r => is_type "major" (updateType r)) results);
     minorUpdates := List.length (filter (fun r => is_type "minor" (updateType r)) results);
     patchUpdates := List.length (filter (fun r => is_type "patch" (updateType r)) results);
     vulnerabilityCount :=
       fold_left (fun sum r => sum + List.length (vulnerabilities r)) results 0 |}.

Section WithLibrary.
Context {L : Semver.Library}.

Definition getUpdateType (currentVersion latestVersion : option string)
  : string :=
  if negb (truthy currentVersion) || negb (truthy latestVersion)
  then "unknown"
  else
    match Semver.parse_value currentVersion,
          Semver.parse_value latestVersion with
    | Some current, Some latest =>
        if (Semver.major current <? Semver.major latest)%N then "major"
        else if (Semver.minor current <? Semver.minor latest)%N then "minor"
        else if (Semver.patch current <? Semver.patch latest)%N then "patch"
        else "none"
    | _, _ => "unknown"
    end.

(** The body of the loop of [checkDependencies] for one package name. *)
Definition checkDependency (dependencies : Map Parser.dependency)
  (packageName : string) (latestVersionResult : settled (option string))
  : result checkResult :=
  match map_get packageName dependencies with
  | None => Throw (TypeError "Cannot read properties of undefined")
  | Some dependency =>
      let clean := Parser.clean (Parser.depRange dependency) in
      upd <-
        match latestVersionResult with
        | fulfilled (Some value) =>
            if truthy (Some value) then
              available <- Semver.gt value (or_else clean "0.0.0") ;;
              Ok (Some value, available,
                  if available
                  then Some (getUpdateType clean (Some value))
                  else None)
            else Ok (None, false, None)
        | _ => Ok (None, false, None)
        end ;;
      let '(latest, available, kind) := upd in
      Ok {| name := packageName;
            currentVersion := Parser.version dependency;
            latestVersion := latest;
            updateAvailable := available;
            updateType := kind;
            vulnerabilities :=
              match clean with
              | Some c =>
                  if truthy clean
                  then Registry.getVulnerabilities packageName c
                  else []
              | None => []
              end;
            dependencyType := Parser.type dependency;
            range := Parser.depRange dependency |}
  end.

Definition checkDependencies {R : Registry.Service}
  (dependencies : Map Parser.dependency) : result (list checkResult) :=
  let packageNames := map_keys dependencies in
  let latestVersions := List.map Registry.getLatestVersion packageNames in
  mapM (fun '(packageName, latestVersionResult) =>
          checkDependency dependencies packageName latestVersionResult)
       (List.combine packageNames latestVersions).
End WithLibrary.

End CheckCmd.

(** ** commands/update.js *)

Module UpdateCmd.

Record options : Type := mkOptions {
  optMajor : bool;
  optDryRun : bool
}.

Record update : Type := mkUpdate {
  updVersion : string;
  updType : string;
  updBreaking : bool;
  updSemver : option Semver.SemVer
}.

Record recommendation : Type := mkRecommendation {
  type : string;
  version : string;
  priority : string;
  reason : string;
  breaking : bool
}.

Record updateResult : Type := mkUpdateResult {
  name : string;
  currentVersion : string;
  currentRange : Parser.VersionRangeInfo;
  dependencyType : string;
  latestVersion : option string;
  availableUpdates : list update;
  recommendations : list recommendation
}.

Record summary : Type := mkSummary {
  total : nat;
  upToDate : nat;
  hasUpdates : nat;
  patchUpdates : nat;
  minorUpdates : nat;
  majorUpdates : nat
}.

Definition of_type (t : string) (availableUpdates : list update) : list update :=
  filter (fun u => updType u =? t) availableUpdates.

Definition generateRecommendations (dependency : Parser.dependency)
  (availableUpdates : list update) (opts : options) : list recommendation :=
  match availableUpdates with
  | [] => []
  | _ =>
      let patch := of_type "patch" availableUpdates in
      let minor := of_type "minor" availableUpdates in
      let major := of_type "major" availableUpdates in
      (match patch with
       | latestPatch :: _ =>
           [ {| type := "patch"; version := updVersion latestPatch;
                priority := "high";
                reason := "Safe bug fixes and improvements";
                breaking := false |} ]
       | [] => []
       end)
      ++
      (match minor with
       | latestMinor :: _ =>
           [ {| type := "minor"; version := updVersion latestMinor;
                priority := "medium";
                reason := "New features and improvements";
                breaking := false |} ]
       | [] => []
       end)
      ++
      (match major with
       | latestMajor :: _ =>
           if optMajor opts then
             [ {| type := "major"; version := updVersion latestMajor;
                  priority := "low";
                  reason := "Major version with potential breaking changes";
                  breaking := true |} ]
           else []
       | [] => []
       end)
  end.

(** The [summary] object built by [generateUpdateReport]; the flattened
    recommendation list only adds fields to each recommendation. *)
Definition generateUpdateReport (updateResults : list updateResult) : summary :=
  let allRecommendations := flat_map recommendations updateResults in
  {| total := List.length updateResults;
     upToDate :=
       List.length (filter (fun r => (List.length (recommendations r) =? 0)%nat) updateResults);
     hasUpdates :=
       List.length (filter (fun r => (0 <? List.length (recommendations r))%nat) updateResults);
     patchUpdates := List.length (filter (fun r => type r =? "patch") allRecommendations);
     minorUpdates := List.length (filter (fun r => type r =? "minor") allRecommendations);
     majorUpdates := List.length (filter (fun r => type r =? "major") allRecommendations) |}.

Section WithLibrary.
Context {L : Semver.Library}.

Definition getUpdateType (currentVersion newVersion : option string)
  : string :=
  if negb (truthy currentVersion) || negb (truthy newVersion)
  then "unknown"
  else
    match Semver.parse_value currentVersion,
          Semver.parse_value newVersion with
    | Some current, Some latest =>
        if (Semver.major current <? Semver.major latest)%N then "major"
        else if (Semver.minor current <? Semver.minor latest)%N then "minor"
        else if (Semver.patch current <? Semver.patch latest)%N then "patch"
        else "none"
    | _, _ => "unknown"
    end.

(** The [for ... of sortedVersions] loop of [analyzeAvailableUpdates]. *)
Fixpoint collectUpdates (currentVersion : string) (includeMajor : bool)
  (sortedVersions : list string) : result (list update) :=
  match sortedVersions with
  | [] => Ok []
  | version :: rest =>
      newer <- Semver.gt version currentVersion ;;
      if negb newer then collectUpdates currentVersion includeMajor rest
      else
        let updateType := getUpdateType (Some currentVersion) (Some version) in
        if (updateType =? "major") && negb includeMajor
        then collectUpdates currentVersion includeMajor rest
        else
          updates <- collectUpdates currentVersion includeMajor rest ;;
          Ok ({| updVersion := version;
                 updType := updateType;
                 updBreaking := (updateType =? "major");
                 updSemver := Semver.parse version |} :: updates)
  end.

Definition analyzeAvailableUpdates (currentRange : Parser.VersionRangeInfo)
  (allVersions : list string) (includeMajor : bool) : result (list update) :=
  match Parser.clean currentRange with
  | Some currentVersion =>
      if negb (truthy (Some currentVersion)) then Ok []
      else
        sortedVersions <-
          sort (fun a b => Semver.compare b a)
               (filter (fun version => truthy (Semver.valid (Some version)))
                       allVersions) ;;
        collectUpdates currentVersion includeMajor sortedVersions
  | None => Ok []
  end.

(** The body of the loop of [getUpdateRecommendations] for one
    dependency. *)
Definition recommend (packageName : string) (dependency : Parser.dependency)
  (latestVersionResult : settled (option string))
  (allVersionsResult : settled (list string)) (opts : options)
  : result updateResult :=
  let blank updates recs latest :=
    {| name := packageName;
       currentVersion := Parser.version dependency;
       currentRange := Parser.depRange dependency;
       dependencyType := Parser.type dependency;
       latestVersion := latest;
       availableUpdates := updates;
       recommendations := recs |} in
  match latestVersionResult with
  | fulfilled (Some value) =>
      if truthy (Some value) then
        updates <-
          match allVersionsResult with
          | fulfilled allVersions =>
              analyzeAvailableUpdates (Parser.depRange dependency)
                allVersions (optMajor opts)
          | rejected _ => Ok []
          end ;;
        Ok (blank updates (generateRecommendations dependency updates opts)
                  (Some value))
      else Ok (blank [] [] None)
  | _ => Ok (blank [] [] None)
  end.

Definition getUpdateRecommendations {R : Registry.Service}
  (dependencies : Map Parser.dependency) (opts : options)
  : result (list updateResult) :=
  let packageNames := map_keys dependencies in
  mapM (fun packageName =>
          match map_get packageName dependencies with
          | None => Throw (TypeError "Cannot read properties of undefined")
          | Some dependency =>
              recommend packageName dependency
                (Registry.getLatestVersion packageName)
                (Registry.getVersions packageName) opts
          end)
       packageNames.
End WithLibrary.

End UpdateCmd.

(** ** commands/audit.js *)

Module AuditCmd.

Import Registry.

Record auditResult : Type := mkAuditResult {
  package : string;
  currentVersion : string;
  dependencyType : string;
  vulnerabilities : list vulnerability
}.

(** An entry of [allVulnerabilities]: the vulnerability spread together
    with the fields of the package it was reported for. *)
Record finding : Type := mkFinding {
  vuln : vulnerability;
  findingPackage : string;
  findingCurrentVersion : string;
  findingDependencyType : string
}.

Definition severityLevels : list string := ["low"; "moderate"; "high"; "critical"].

(** The table of known vulnerabilities of [performSecurityAudit]: the
    own properties of the object literal. *)
Definition mockVulnerabilities : list (string * list vulnerability) :=
  [ ("lodash",
      [ {| id := "CVE-2021-23337";
           severity := "high";
           title := "Prototype Pollution in lodash";
           description :=
             "A prototype pollution vulnerability in lodash versions before 4.17.21";
           affectedVersions := "<4.17.21";
           fixedVersions := ">=4.17.21";
           cwe := "CWE-1321" |} ]);
    ("axios",
      [ {| id := "CVE-2023-45857";
           severity := "moderate";
           title := "SSRF vulnerability in axios";
           description := "Server-Side Request Forgery vulnerability in axios";
           affectedVersions := "<1.6.0";
           fixedVersions := ">=1.6.0";
           cwe := "CWE-918" |} ]) ].

(** The names every object literal inherits from [Object.prototype]. *)
Definition objectPrototype : list string :=
  [ "constructor"; "__defineGetter__"; "__defineSetter__"; "hasOwnProperty";
    "__lookupGetter__"; "__lookupSetter__"; "isPrototypeOf";
    "propertyIsEnumerable"; "toString"; "valueOf"; "__proto__";
    "toLocaleString" ].

(** The value of [table[name]] for a table of arrays: the array of an
    own property; a member inherited from [Object.prototype], which is a
    function (the prototype itself for [__proto__]) and so a truthy value
    that is no array; or [undefined]. *)
Inductive entry : Type :=
| Findings (vulnerabilities : list vulnerability)
| Inherited
| Undefined.

(** [table[name]] on an object literal given by its own properties. *)
Definition lookup (table : list (string * list vulnerability))
  (name : string) : entry :=
  match map_get name table with
  | Some vulnerabilities => Findings vulnerabilities
  | None =>
      if existsb (String.eqb name) objectPrototype then Inherited
      else Undefined
  end.

Section WithDatabase.
(** The audit is stated over any table of the same shape, given by its
    lookup [name => table[name]]; [lookup mockVulnerabilities] is the one
    shipped. *)
Variable database : string -> entry.

(** [mockVulnerabilities[name] || []], as far as [.filter] can be called
    on it: an inherited member takes the place of the array and has no
    [filter] method. *)
Definition vulnerabilitiesOf (name : string) : result (list vulnerability) :=
  match database name with
  | Findings vulnerabilities => Ok vulnerabilities
  | Undefined => Ok []
  | Inherited => Throw (TypeError "vulnerabilities.filter is not a function")
  end.

(** The severity filter applied to the vulnerabilities of one package. *)
Definition filterBySeverity (minSeverityIndex : Z)
  (vulnerabilities : list vulnerability) : list vulnerability :=
  filter (fun vuln =>
            let vulnSeverityIndex := indexOf severityLevels (severity vuln) in
            (minSeverityIndex <=? vulnSeverityIndex)%Z)
         vulnerabilities.

(** The loop over the entries of the dependency map; an exception leaves
    the loop and the function. *)
Fixpoint auditEntries (minSeverityIndex : Z)
  (dependencies : Map Parser.dependency) : result (list auditResult) :=
  match dependencies with
  | [] => Ok []
  | (name, dependency) :: rest =>
      vulnerabilities <- vulnerabilitiesOf name ;;
      let filteredVulns := filterBySeverity minSeverityIndex vulnerabilities in
      results <- auditEntries minSeverityIndex rest ;;
      Ok (if (0 <? List.length filteredVulns)%nat
          then {| package := name;
                  currentVersion := Parser.version dependency;
                  dependencyType := Parser.type dependency;
                  vulnerabilities := filteredVulns |}
               :: results
          else results)
  end.

Definition performSecurityAudit (dependencies : Map Parser.dependency)
  (severityLevel : string) : result (list auditResult) :=
  let minSeverityIndex := indexOf severityLevels (toLowerCase severityLevel) in
  auditEntries minSeverityIndex dependencies.
End WithDatabase.

(** The [vulnerabilities] list built by [generateAuditReport]. *)
Definition allVulnerabilities (auditResults : list auditResult) : list finding :=
  flat_map (fun result =>
              List.map (fun v =>
                          {| vuln := v;
                             findingPackage := package result;
                             findingCurrentVersion := currentVersion result;
                             findingDependencyType := dependencyType result |})
                       (vulnerabilities result))
           auditResults.

(** The [severityOrder] object of [displayAuditResults]; [None] is
    [undefined]. *)
Definition severityOrder (s : string) : option Z :=
  if s =? "critical" then Some 0%Z
  else if s =? "high" then Some 1%Z
  else if s =? "moderate" then Some 2%Z
  else if s =? "low" then Some 3%Z
  else None.

(** The comparator of the sort.  A difference with [undefined] is [NaN],
    which the sort treats as [0]. *)
Definition bySeverity (a b : finding) : result Z :=
  match severityOrder (severity (vuln a)), severityOrder (severity (vuln b)) with
  | Some x, Some y => Ok (x - y)%Z
  | _, _ => Ok 0%Z
  end.

(** The list [sortedVulns] that [displayAuditResults] prints. *)
Definition sortedVulns (reportVulnerabilities : list finding) : result (list finding) :=
  sort bySeverity reportVulnerabilities.

(** The findings presented for a set of dependencies and a threshold. *)
Definition auditListing (database : string -> entry)
  (dependencies : Map Parser.dependency) (severityLevel : string)
  : result (list finding) :=
  auditResults <- performSecurityAudit database dependencies severityLevel ;;
  sortedVulns (allVulnerabilities auditResults).

End AuditCmd.

(** ** A reference grammar front end

    An executable [Semver.Library] for the part of the grammar written in
    normal form: ["MAJOR.MINOR.PATCH"] optionally followed by ["-"] and
    dot-separated pre-release identifiers, and for ranges the exact, caret
    and tilde forms.  It is used to run the program on concrete inputs. *)

Module SemverRef.

Import Semver.
Local Open Scope string_scope.

(** [s.split(sep)] for a one-character separator. *)
Fixpoint split (sep : ascii) (s : string) : list string :=
  match s with
  | EmptyString => [EmptyString]
  | String c s' =>
      if (c =? sep)%char then EmptyString :: split sep s'
      else match split sep s' with
           | h :: t => String c h :: t
           | [] => [String c EmptyString]
           end
  end.

(** Split at the first occurrence of [sep], if any. *)
Fixpoint cut (sep : ascii) (s : string) : string * option string :=
  match s with
  | EmptyString => (EmptyString, None)
  | String c s' =>
      if (c =? sep)%char then (EmptyString, Some s')
      else let (h, t) := cut sep s' in (String c h, t)
  end.

Definition formatNumber (n : N) : string :=
  NilEmpty.string_of_uint (N.to_uint n).

(** A numeric identifier [0|[1-9]\d*]. *)
Definition parseNumber (s : string) : option N :=
  match NilEmpty.uint_of_string s with
  | Some u =>
      let n := N.of_uint u in
      if (formatNumber n =? s)%string then Some n else None
  | None => None
  end.

Definition is_letter_or_hyphen (c : ascii) : bool :=
  let n := nat_of_ascii c in
  ((65 <=? n) && (n <=? 90) || (97 <=? n) && (n <=? 122) || (n =? 45))%nat.

Fixpoint all_chars (p : ascii -> bool) (s : string) : bool :=
  match s with
  | EmptyString => true
  | String c s' => p c && all_chars p s'
  end.

(** A pre-release identifier: numeric, or alphanumeric with at least one
    letter or hyphen.  A numeric identifier becomes a number when its
    value is below [MAX_SAFE_INTEGER] and stays a string otherwise. *)
Definition parseIdentifier (s : string) : option identifier :=
  if (s =? "")%string then None
  else if all_chars is_digit s then
    match parseNumber s with
    | Some n => if (n <? MAX_SAFE_INTEGER)%N then Some (IdNum n)
                else Some (IdStr s)
    | None => None
    end
  else if all_chars (fun c => is_digit c || is_letter_or_hyphen c) s
       then Some (IdStr s)
       else None.

Fixpoint parseIdentifiers (l : list string) : option (list identifier) :=
  match l with
  | [] => Some []
  | s :: l' =>
      match parseIdentifier s, parseIdentifiers l' with
      | Some i, Some rest => Some (i :: rest)
      | _, _ => None
      end
  end.

Definition parsePrerelease (pre : option string) : option (list identifier) :=
  match pre with
  | None => Some []
  | Some p => parseIdentifiers (split "." p)
  end.

Definition parseRef (s : string) : option SemVer :=
  if (256 <? String.length s)%nat then None
  else
    let (core, pre) := cut "-" s in
    match split "." core with
    | [a; b; c] =>
        match parseNumber a, parseNumber b, parseNumber c, parsePrerelease pre with
        | Some x, Some y, Some z, Some p =>
            if ((x <=? MAX_SAFE_INTEGER) && (y <=? MAX_SAFE_INTEGER)
                && (z <=? MAX_SAFE_INTEGER))%N
            then Some {| version := s; major := x; minor := y; patch := z;
                         prerelease := p |}
            else None
        | _, _, _, _ => None
        end
    | _ => None
    end.

Definition formatMain (x y z : N) : string :=
  formatNumber x ++ "." ++ formatNumber y ++ "." ++ formatNumber z.

(** Upper bound of a caret range. *)
Definition caretBound (v : SemVer) : string :=
  if (0 <? major v)%N then formatMain (major v + 1) 0 0
  else if (0 <? minor v)%N then formatMain 0 (minor v + 1) 0
  else formatMain 0 0 (patch v + 1).

Definition validRangeRef (s : string) : option string :=
  match s with
  | String "^" r =>
      match parseRef r with
      | Some v => Some (">=" ++ version v ++ " <" ++ caretBound v ++ "-0")
      | None => None
      end
  | String "~" r =>
      match parseRef r with
      | Some v => Some (">=" ++ version v ++ " <"
                        ++ formatMain (major v) (minor v + 1) 0 ++ "-0")
      | None => None
      end
  | _ => option_map version (parseRef s)
  end.

Definition library : Library :=
  {| parse := parseRef; validRange := validRangeRef |}.

End SemverRef.

(** ** Vocabulary of the statements *)

Module Spec.

(** A three-way comparator that behaves as a total preorder. *)
Record comparator {A : Type} (c : A -> A -> Z) : Prop := {
  cmp_anti : forall a b, c b a = (- c a b)%Z;
  cmp_eq : forall a b d, c a b = 0%Z -> c a d = c b d;
  cmp_lt : forall a b d, (c a b < 0)%Z -> (c b d < 0)%Z -> (c a d < 0)%Z
}.

(** Comparison of two versions by their fields alone. *)
Definition compareFields (a b : Semver.SemVer) : Z :=
  lor_num (Semver.compareMain a b) (Semver.comparePre a b).

(** An identifier that is compared by its exact value: a number, or a
    string that is not made of digits only. *)
Definition safeIdentifier (a : Semver.identifier) : bool :=
  match a with
  | Semver.IdNum _ => true
  | Semver.IdStr s => negb (Semver.numeric s)
  end.

(** A version without a numeric pre-release identifier at or above
    [MAX_SAFE_INTEGER]. *)
Definition safe (v : Semver.SemVer) : bool :=
  forallb safeIdentifier (Semver.prerelease v).

(** The order of the Semantic Versioning specification on identifiers:
    numbers by value, strings by code unit order, any number below any
    string. *)
Definition exactIdentifiers (a b : Semver.identifier) : Z :=
  match a, b with
  | Semver.IdNum x, Semver.IdNum y =>
      if (x =? y)%N then 0%Z else if (x <? y)%N then (-1)%Z else 1%Z
  | Semver.IdNum _, Semver.IdStr _ => (-1)%Z
  | Semver.IdStr _, Semver.IdNum _ => 1%Z
  | Semver.IdStr x, Semver.IdStr y =>
      if (x =? y)%string then 0%Z
      else if String.ltb x y then (-1)%Z else 1%Z
  end.

Fixpoint exactPreLoop (a b : list Semver.identifier) : Z :=
  match a, b with
  | [], [] => 0%Z
  | _ :: _, [] => 1%Z
  | [], _ :: _ => (-1)%Z
  | x :: a', y :: b' =>
      if Semver.identifier_eqb x y then exactPreLoop a' b'
      else exactIdentifiers x y
  end.

Definition exactPrerelease (pa pb : list Semver.identifier) : Z :=
  match pa, pb with
  | _ :: _, [] => (-1)%Z
  | [], _ :: _ => 1%Z
  | [], [] => 0%Z
  | pa, pb => exactPreLoop pa pb
  end.

(** The order of the specification on the fields of two versions. *)
Definition exactFields (a b : Semver.SemVer) : Z :=
  lor_num (Semver.compareMain a b)
          (exactPrerelease (Semver.prerelease a) (Semver.prerelease b)).

(** [v] is a version read by the library from some text. *)
Definition parsed {L : Semver.Library} (v : Semver.SemVer) : Prop :=
  exists s, Semver.parse s = Some v.

(** The three update buckets. *)
Definition buckets : list string := ["patch"; "minor"; "major"].

(** The numeric triple of a version. *)
Definition triple (v : Semver.SemVer) : N * N * N :=
  (Semver.major v, Semver.minor v, Semver.patch v).

(** The priority the recommender attaches to a bucket. *)
Definition priorityOf (bucket : string) : string :=
  if bucket =? "patch" then "high"
  else if bucket =? "minor" then "medium"
  else "low".

(** A registry lookup that produced no usable latest version: the
    promise was rejected, or fulfilled with [null] or an empty string. *)
Definition lookupFailed (r : settled (option string)) : bool :=
  match r with
  | fulfilled v => negb (truthy v)
  | rejected _ => true
  end.

(** Severity rank, in the order low < moderate < high < critical. *)
Definition severityRank (s : string) : option nat :=
  if s =? "low" then Some 0
  else if s =? "moderate" then Some 1
  else if s =? "high" then Some 2
  else if s =? "critical" then Some 3
  else None.

(** [rank s >= rank threshold], false for an unranked severity. *)
Definition atLeast (threshold s : string) : bool :=
  match severityRank threshold, severityRank s with
  | Some t, Some r => (t <=? r)%nat
  | _, _ => false
  end.

(** The vulnerabilities on record for a package. *)
Definition onRecord (database : string -> AuditCmd.entry) (name : string)
  : list Registry.vulnerability :=
  match database name with
  | AuditCmd.Findings vulnerabilities => vulnerabilities
  | _ => []
  end.

(** The table holds a findings list, or nothing, for every dependency:
    no dependency bears the name of a member that the table inherits. *)
Definition audited (database : string -> AuditCmd.entry)
  (dependencies : Map Parser.dependency) : Prop :=
  forall name, In name (map_keys dependencies) ->
               database name <> AuditCmd.Inherited.

(** The findings the security classifier must keep: for each dependency
    in order, the vulnerabilities on record whose rank reaches the
    threshold, each as often as it is on record. *)
Definition keptFindings (database : string -> AuditCmd.entry)
  (dependencies : Map Parser.dependency) (threshold : string)
  : list AuditCmd.finding :=
  flat_map
    (fun '(name, dependency) =>
       List.map
         (fun v => {| AuditCmd.vuln := v;
                      AuditCmd.findingPackage := name;
                      AuditCmd.findingCurrentVersion := Parser.version dependency;
                      AuditCmd.findingDependencyType := Parser.type dependency |})
         (filter (fun v => atLeast threshold (Registry.severity v))
                 (onRecord database name)))
    dependencies.


(** The entries of a manifest section that the extractor reads: those
    of an object-valued section, none otherwise. *)
Definition sectionEntries (packageJson : Parser.manifest) (depType : string)
  : list (string * string) :=
  let deps := Parser.property packageJson depType in
  if Parser.truthy_value deps && (Parser.typeof deps =? "object")
  then Parser.entries_of deps
  else [].

(** The last version specifier written for [name] in a list of entries. *)
Fixpoint lastVersion (name : string) (es : list (string * string))
  : option string :=
  match es with
  | [] => None
  | (n, v) :: es' =>
      match lastVersion name es' with
      | Some v' => Some v'
      | None => if n =? name then Some v else None
      end
  end.

(** [name] is declared in section [depType]. *)
Definition declaredIn (packageJson : Parser.manifest) (depType name : string)
  : Prop :=
  In name (List.map fst (sectionEntries packageJson depType)).

(** [n] is bound in [m] to the record made in section [depType] from
    the specifier [v]. *)
Definition bound {L : Semver.Library} (depType n : string)
  (m : Map Parser.dependency) (v : string) : Prop :=
  exists info,
    Parser.parseVersionRange v = Ok info /\
    map_get n m = Some {| Parser.name := n; Parser.version := v;
                          Parser.type := depType; Parser.depRange := info |}.

(** A finding whose severity is one of the four levels. *)
Definition ranked (f : AuditCmd.finding) : Prop :=
  severityRank (Registry.severity (AuditCmd.vuln f)) <> None.


Section Updates.
Context {L : Semver.Library}.

(** The value of [semver.compare(a, b)] on two texts that parse. *)
Definition compareText (a b : string) : Z :=
  match Semver.parse a, Semver.parse b with
  | Some x, Some y => Semver.compareSemVer x y
  | _, _ => 0%Z
  end.

(** The texts of [versions] that are versions have no numeric
    pre-release identifier at or above [MAX_SAFE_INTEGER]. *)
Definition safeVersions (versions : list string) : Prop :=
  forall v x, In v versions -> Semver.parse v = Some x -> safe x = true.

(** [version] is a valid version strictly newer than [current]. *)
Definition newer (current version : string) : Prop :=
  Semver.gt version current = Ok true.

(** [version] falls in [bucket] relative to [current]. *)
Definition inBucket (current bucket version : string) : Prop :=
  newer current version /\
  UpdateCmd.getUpdateType (Some current) (Some version) = bucket.

(** The test of the loop of [analyzeAvailableUpdates]: the version is
    newer than the current one and is not a major update left out. *)
Definition retained (current : string) (includeMajor : bool)
  (version : string) : bool :=
  (0 <? compareText version current)%Z
  && negb ((UpdateCmd.getUpdateType (Some current) (Some version) =? "major")
           && negb includeMajor).

(** The entry the loop pushes for a retained version. *)
Definition updateOf (current version : string) : UpdateCmd.update :=
  let updateType := UpdateCmd.getUpdateType (Some current) (Some version) in
  {| UpdateCmd.updVersion := version;
     UpdateCmd.updType := updateType;
     UpdateCmd.updBreaking := (updateType =? "major");
     UpdateCmd.updSemver := Semver.parse version |}.

(** The recommendations produced for a dependency from the list of
    published versions: [generateRecommendations] applied to the
    outcome of [analyzeAvailableUpdates]. *)
Definition recommendationsFor (dependency : Parser.dependency)
  (allVersions : list string) (opts : UpdateCmd.options)
  : result (list UpdateCmd.recommendation) :=
  updates <- UpdateCmd.analyzeAvailableUpdates
               (Parser.depRange dependency) allVersions
               (UpdateCmd.optMajor opts) ;;
  Ok (UpdateCmd.generateRecommendations dependency updates opts).
End Updates.

End Spec.

(** ** Sample inputs *)

Module Examples.

#[local] Existing Instance SemverRef.library.

(** A manifest in which [lodash] is declared twice. *)
Definition packageJson : Parser.manifest :=
  [ ("name", Parser.JString "demo");
    ("version", Parser.JString "1.0.0");
    ("dependencies",
      Parser.JObject [ ("lodash", "4.17.20"); ("react", "^17.0.2");
                       ("axios", "1.5.0") ]);
    ("devDependencies",
      Parser.JObject [ ("lodash", "4.17.21"); ("jest", "latest") ]);
    ("peerDependencies", Parser.JNull) ].

(** The record of a dependency declared with the given specifier. *)
Definition declared (name version : string) : Parser.dependency :=
  {| Parser.name := name;
     Parser.version := version;
     Parser.type := "dependencies";
     Parser.depRange :=
       match Parser.parseVersionRange version with
       | Ok info => info
       | Throw _ =>
           {| Parser.original := version; Parser.clean := None;
              Parser.valid := None; Parser.range := None;
              Parser.isExact := false; Parser.isRange := false;
              Parser.major := None; Parser.minor := None;
              Parser.patch := None |}
       end |}.

Definition lodash : Parser.dependency := declared "lodash" "4.17.20".
Definition react : Parser.dependency := declared "react" "^17.0.2".

Definition dependencies : Map Parser.dependency :=
  [ ("lodash", lodash); ("react", react) ].

Definition sampleFinding (id severity : string) : Registry.vulnerability :=
  {| Registry.id := id; Registry.severity := severity;
     Registry.title := ""; Registry.description := "";
     Registry.affectedVersions := "<4.17.21";
     Registry.fixedVersions := ">=4.17.21"; Registry.cwe := "" |}.

(** A table with three findings for [lodash], one of them twice. *)
Definition database : string -> AuditCmd.entry :=
  AuditCmd.lookup
    [ ("lodash",
        [ sampleFinding "A" "moderate"; sampleFinding "B" "high";
          sampleFinding "C" "critical"; sampleFinding "B" "high" ]) ].



Definition withoutMajor : UpdateCmd.options :=
  {| UpdateCmd.optMajor := false; UpdateCmd.optDryRun := false |}.

Definition withMajor : UpdateCmd.options :=
  {| UpdateCmd.optMajor := true; UpdateCmd.optDryRun := false |}.

End Examples.

(** ** services/parser.js: dependency statistics *)

Module Stats.

Record stats : Type := mkStats {
  total : nat;
  byType : Map nat;
  exactVersions : nat;
  rangeVersions : nat;
  invalidVersions : nat
}.

(** [stats.byType[dep.type] || 0]. *)
Definition countOf (depType : string) (byType : Map nat) : nat :=
  match map_get depType byType with
  | Some n => n
  | None => 0
  end.

(** The body of the loop over [dependencies.values()]. *)
Definition countDependency (s : stats) (dep : Parser.dependency) : stats :=
  let byType' :=
    map_set (Parser.type dep) (countOf (Parser.type dep) (byType s) + 1)
      (byType s) in
  if Parser.isExact (Parser.depRange dep) then
    {| total := total s; byType := byType';
       exactVersions := exactVersions s + 1;
       rangeVersions := rangeVersions s;
       invalidVersions := invalidVersions s |}
  else if Parser.isRange (Parser.depRange dep) then
    {| total := total s; byType := byType';
       exactVersions := exactVersions s;
       rangeVersions := rangeVersions s + 1;
       invalidVersions := invalidVersions s |}
  else
    {| total := total s; byType := byType';
       exactVersions := exactVersions s;
       rangeVersions := rangeVersions s;
       invalidVersions := invalidVersions s + 1 |}.

Definition getDependencyStats {L : Semver.Library}
  (packageJson : Parser.manifest) : result stats :=
  dependencies <- Parser.extractDependencies packageJson ;;
  Ok (fold_left countDependency (List.map snd dependencies)
        {| total := map_size dependencies; byType := [];
           exactVersions := 0; rangeVersions := 0; invalidVersions := 0 |}).

End Stats.

(** ** commands/audit.js: the report and the fix suggestion *)

Module AuditReport.

Import Registry AuditCmd.

(** A counter of [severityCounts]: a number, or [NaN] once an
    unrecognized severity has been counted under that key. *)
Inductive counter : Type :=
| Count (n : nat)
| NaN.

(** [severityCounts[key]++] on a property that may be [undefined]. *)
Definition increment (c : option counter) : counter :=
  match c with
  | Some (Count n) => Count (n + 1)
  | _ => NaN
  end.

(** The assignment to [__proto__] goes to the setter of
    [Object.prototype], which ignores a number. *)
Definition countSeverity (severityCounts : Map counter) (f : finding)
  : Map counter :=
  let key := severity (vuln f) in
  if key =? "__proto__" then severityCounts
  else map_set key (increment (map_get key severityCounts)) severityCounts.

Record summary : Type := mkSummary {
  totalVulnerabilities : nat;
  affectedPackages : nat;
  severityCounts : Map counter;
  minSeverity : string
}.

(** The [summary] object built by [generateAuditReport]. *)
Definition generateAuditReport (auditResults : list auditResult)
  (severityLevel : string) : summary :=
  let all := allVulnerabilities auditResults in
  {| totalVulnerabilities := List.length all;
     affectedPackages := List.length auditResults;
     severityCounts :=
       fold_left countSeverity all
         [ ("critical", Count 0); ("high", Count 0);
           ("moderate", Count 0); ("low", Count 0) ];
     minSeverity := severityLevel |}.

(** [s.replace(pattern, replacement)] for a string pattern: the first
    occurrence is replaced. *)
Fixpoint replaceFirst (pattern replacement s : string) : string :=
  if String.prefix pattern s
  then replacement ++ String.substring (String.length pattern)
                        (String.length s - String.length pattern) s
  else match s with
       | String c s' => String c (replaceFirst pattern replacement s')
       | EmptyString => EmptyString
       end.

Section WithLibrary.
Context {L : Semver.Library}.

(** The callback of the [reduce] in [handleAutoFix]. *)
Definition higher (highest : string) (f : finding) : result string :=
  let fixedVersion := replaceFirst ">=" "" (fixedVersions (vuln f)) in
  newer <- Semver.gt fixedVersion highest ;;
  Ok (if newer : bool then fixedVersion else highest).

(** [vulns.reduce(..., '0.0.0')]: the highest fixed version needed for
    one package. *)
Fixpoint reduceHigher (vulns : list finding) (highest : string)
  : result string :=
  match vulns with
  | [] => Ok highest
  | f :: rest => h <- higher highest f ;; reduceHigher rest h
  end.

Definition highestFixedVersion (vulns : list finding) : result string :=
  reduceHigher vulns "0.0.0".
End WithLibrary.

End AuditReport.

(** ** Vocabulary of the further statements *)

Module Terms.

(** A list without its repetitions, each element at its first place. *)
Fixpoint keepFirst (l : list string) : list string :=
  match l with
  | [] => []
  | x :: l' => x :: filter (fun y => negb (y =? x)) (keepFirst l')
  end.

Definition mem (x : string) (l : list string) : bool :=
  existsb (String.eqb x) l.

(** The keys of a [Map] after [set] of a key. *)
Definition addKey (keys : list string) (k : string) : list string :=
  if mem k keys then keys else keys ++ [k].

(** The names the manifest declares, section after section. *)
Definition declaredNames (packageJson : Parser.manifest) : list string :=
  flat_map (fun depType => List.map fst (Spec.sectionEntries packageJson depType))
    Parser.dependencyTypes.

Section WithLibrary.
Context {L : Semver.Library}.

(** Every record of the map is the one the extractor builds for an entry
    of the manifest. *)
Definition extracted (packageJson : Parser.manifest)
  (dependencies : Map Parser.dependency) : Prop :=
  forall k d, In (k, d) dependencies ->
    Parser.name d = k
    /\ In (Parser.type d) Parser.dependencyTypes
    /\ In (k, Parser.version d) (Spec.sectionEntries packageJson (Parser.type d))
    /\ Parser.parseVersionRange (Parser.version d) = Ok (Parser.depRange d).

(** Every record carries the analysis of its own version specifier. *)
Definition analyzed (dependencies : Map Parser.dependency) : Prop :=
  forall k d, In (k, d) dependencies ->
    Parser.parseVersionRange (Parser.version d) = Ok (Parser.depRange d).

(** [v] is the text of a version. *)
Definition validText (v : string) : Prop :=
  exists x, Semver.parse v = Some x.

(** [v] is the text of a version without a numeric pre-release
    identifier at or above [MAX_SAFE_INTEGER]. *)
Definition safeText (v : string) : Prop :=
  exists x, Semver.parse v = Some x /\ Spec.safe x = true.

(** A settled lookup the check command can process: a failure, or a
    latest version that is the text of a version. *)
Definition usable (lookup : settled (option string)) : Prop :=
  match lookup with
  | fulfilled (Some v) => v = "" \/ validText v
  | _ => True
  end.
End WithLibrary.

(** At most three recommendations, each of a bucket, a major one only
    with the include-major option. *)
Definition wellFormed (opts : UpdateCmd.options)
  (recs : list UpdateCmd.recommendation) : Prop :=
  List.length recs <= 3
  /\ forall r, In r recs ->
       In (UpdateCmd.type r) Spec.buckets
       /\ (UpdateCmd.type r = "major" -> UpdateCmd.optMajor opts = true).

Definition sumValues (m : Map nat) : nat :=
  fold_right (fun kv acc => snd kv + acc) 0 m.

(** The findings on record for the dependencies, unfiltered. *)
Definition allFindings (database : string -> AuditCmd.entry)
  (dependencies : Map Parser.dependency) : list AuditCmd.finding :=
  flat_map
    (fun '(name, dependency) =>
       List.map
         (fun v => {| AuditCmd.vuln := v;
                      AuditCmd.findingPackage := name;
                      AuditCmd.findingCurrentVersion := Parser.version dependency;
                      AuditCmd.findingDependencyType := Parser.type dependency |})
         (Spec.onRecord database name))
    dependencies.

Definition hasSeverity (s : string) (f : AuditCmd.finding) : bool :=
  (Registry.severity (AuditCmd.vuln f) =? s)%string.

(** The number of findings of a severity. *)
Definition countIn (level : string) (fs : list AuditCmd.finding) : nat :=
  List.length (filter (hasSeverity level) fs).

(** The fixed version named by a finding, as [handleAutoFix] reads it. *)
Definition fixedVersionOf (f : AuditCmd.finding) : string :=
  AuditReport.replaceFirst ">=" "" (Registry.fixedVersions (AuditCmd.vuln f)).

End Terms.

(** ** Further sample inputs *)

Module Samples.

Import Examples.

(** A registry that knows a latest version for [lodash] only. *)
Definition registry : Registry.Service :=
  {| Registry.getLatestVersion := fun name =>
       if name =? "lodash" then fulfilled (Some "4.17.21")
       else rejected ("Package '" ++ name ++ "' not found");
     Registry.getVersions := fun name =>
       if name =? "lodash"
       then fulfilled ["4.17.19"; "4.17.20"; "4.17.21"; "4.18.0"; "5.0.0"]
       else rejected ("Package '" ++ name ++ "' not found") |}.

(** A registry whose latest version for [react] is not a version. *)
Definition brokenRegistry : Registry.Service :=
  {| Registry.getLatestVersion := fun name =>
       if name =? "react" then fulfilled (Some "next")
       else fulfilled (Some "4.17.21");
     Registry.getVersions := fun name => fulfilled [] |}.

(** Findings for one package, with the fixed versions they name. *)
Definition fixedBy (package fixedVersions : string) : AuditCmd.finding :=
  {| AuditCmd.vuln :=
       {| Registry.id := "CVE"; Registry.severity := "high";
          Registry.title := ""; Registry.description := "";
          Registry.affectedVersions := "";
          Registry.fixedVersions := fixedVersions; Registry.cwe := "" |};
     AuditCmd.findingPackage := package;
     AuditCmd.findingCurrentVersion := "1.0.0";
     AuditCmd.findingDependencyType := "dependencies" |}.

(** The map extracted from the sample manifest, its statistics, and the
    outcomes of the three commands on the sample dependencies. *)
Definition extractedSample : Map Parser.dependency :=
  match Parser.extractDependencies (L := SemverRef.library) packageJson with
  | Ok m => m
  | Throw _ => []
  end.

Definition statsSample : Stats.stats :=
  match Stats.getDependencyStats (L := SemverRef.library) packageJson with
  | Ok s => s
  | Throw _ => Stats.mkStats 0 [] 0 0 0
  end.

Definition checkedSample : list CheckCmd.checkResult :=
  match CheckCmd.checkDependencies (L := SemverRef.library) (R := registry)
          dependencies with
  | Ok results => results
  | Throw _ => []
  end.

Definition updatedSample : list UpdateCmd.updateResult :=
  match UpdateCmd.getUpdateRecommendations (L := SemverRef.library)
          (R := registry) dependencies withMajor with
  | Ok results => results
  | Throw _ => []
  end.

Definition auditedSample (threshold : string) : list AuditCmd.auditResult :=
  match AuditCmd.performSecurityAudit database dependencies threshold with
  | Ok results => results
  | Throw _ => []
  end.

(** Dependencies one of which bears the name of an inherited member. *)
Definition shadowing : Map Parser.dependency :=
  [ ("lodash", lodash); ("constructor", declared "constructor" "1.0.0") ].

Definition listingSample : list AuditCmd.finding :=
  match AuditCmd.auditListing database dependencies "low" with
  | Ok listing => listing
  | Throw _ => []
  end.

Definition published : list string :=
  ["4.17.19"; "4.17.20"; "4.17.21"; "4.18.0"; "5.0.0"; "not a version"].



End Samples.

(** * Properties *)

(** ** Exceptions and sorting *)

Module JSFacts.

Lemma bind_ok {A B} (m : result A) (k : A -> result B) (b : B) :
  JS.bind m k = Ok b -> exists a, m = Ok a /\ k a = Ok b.
Proof.
  destruct m as [a|e]; simpl; intros H; [eauto | discriminate].
Qed.

(** The enumeration of the properties of an object. *)
Section EnumerationFacts.
Context {V : Type}.






End EnumerationFacts.

Lemma truthy_some (s : string) : truthy (Some s) = true <-> s <> "".
Proof.
  simpl. destruct (String.eqb_spec s ""); simpl; split; congruence.
Qed.

Lemma lor_num_zero (a b : Z) : lor_num a b = 0%Z <-> a = 0%Z /\ b = 0%Z.
Proof.
  unfold lor_num. destruct (Z.eqb_spec a 0); split; intros; lia.
Qed.

Section SortFacts.
Context {A : Type} (compareFn : A -> A -> result Z).

Lemma insert_perm (x : A) (l r : list A) :
  insert compareFn x l = Ok r -> Permutation (x :: l) r.
Proof.
  revert r. induction l as [|y l IH]; simpl; intros r H.
  - injection H as <-. apply Permutation_refl.
  - apply bind_ok in H as (c & _ & H).
    destruct (0 <? c)%Z.
    + apply bind_ok in H as (r' & Hr' & H). injection H as <-.
      apply perm_trans with (y :: x :: l); [apply perm_swap|].
      apply perm_skip, IH, Hr'.
    + injection H as <-. apply Permutation_refl.
Qed.

Lemma sort_perm (l r : list A) :
  sort compareFn l = Ok r -> Permutation l r.
Proof.
  revert r. induction l as [|x l IH]; simpl; intros r H.
  - injection H as <-. apply perm_nil.
  - apply bind_ok in H as (r' & Hr' & H).
    apply perm_trans with (x :: r'); [apply perm_skip, IH, Hr'|].
    apply insert_perm, H.
Qed.

(** On a domain [D] where the comparator returns the values of a pure
    function [c] that is a total preorder, the sort returns, and its
    result is ordered. *)
Variable D : A -> Prop.
Variable c : A -> A -> Z.
Hypothesis pure : forall a b, D a -> D b -> compareFn a b = Ok (c a b).

Lemma insert_total (x : A) (l : list A) :
  D x -> Forall D l -> exists r, insert compareFn x l = Ok r.
Proof.
  intros Hx Hl. induction Hl as [|y l Hy Hl IH]; simpl; [eauto|].
  rewrite (pure _ _ Hx Hy). simpl.
  destruct (0 <? c x y)%Z; [|eauto].
  destruct IH as (r & ->). simpl. eauto.
Qed.

Lemma sort_total (l : list A) :
  Forall D l -> exists r, sort compareFn l = Ok r.
Proof.
  intros Hl. induction Hl as [|x l Hx Hl IH]; simpl; [eauto|].
  destruct IH as (r & Hr). rewrite Hr. simpl.
  apply insert_total; [exact Hx|].
  apply sort_perm in Hr.
  eapply Permutation_Forall; eauto.
Qed.

Hypothesis anti : forall a b, D a -> D b -> (0 < c a b)%Z -> (c b a <= 0)%Z.
Hypothesis trans : forall a b d, D a -> D b -> D d ->
  (c a b <= 0)%Z -> (c b d <= 0)%Z -> (c a d <= 0)%Z.

Let ordered (a b : A) : Prop := (c a b <= 0)%Z.

Lemma insert_sorted (x : A) (l r : list A) :
  D x -> Forall D l -> StronglySorted ordered l ->
  insert compareFn x l = Ok r -> StronglySorted ordered r.
Proof.
  intros Hx Hl. revert r.
  induction Hl as [|y l Hy Hl IH]; simpl; intros r Hs H.
  - injection H as <-. repeat constructor.
  - rewrite (pure _ _ Hx Hy) in H. simpl in H.
    apply StronglySorted_inv in Hs as (Hs & Hall).
    destruct (Z.ltb_spec 0 (c x y)) as [Hc|Hc].
    + apply bind_ok in H as (r' & Hr' & H). injection H as <-.
      constructor; [apply IH; assumption|].
      apply insert_perm in Hr'.
      eapply Permutation_Forall; [exact Hr'|].
      constructor; [apply anti; assumption | exact Hall].
    + injection H as <-.
      constructor; [constructor; assumption|].
      constructor; [exact Hc|].
      rewrite Forall_forall in *. intros z Hz.
      apply (trans x y z); auto. apply Hall, Hz.
Qed.

Lemma sort_sorted (l r : list A) :
  Forall D l -> sort compareFn l = Ok r -> StronglySorted ordered r.
Proof.
  intros Hl. revert r.
  induction Hl as [|x l Hx Hl IH]; simpl; intros r H.
  - injection H as <-. constructor.
  - apply bind_ok in H as (r' & Hr' & H).
    eapply insert_sorted; [exact Hx| |apply IH, Hr'|exact H].
    apply sort_perm in Hr'. eapply Permutation_Forall; eauto.
Qed.
End SortFacts.

End JSFacts.

(** ** The version order *)

Module Order.

Import Spec.
Local Open Scope Z_scope.

Section Comparators.
Context {A : Type} (c : A -> A -> Z) (Hc : comparator c).

Lemma cmp_refl (a : A) : c a a = 0.
Proof. pose proof (cmp_anti c Hc a a). lia. Qed.

Lemma cmp_le_trans (a b d : A) : c a b <= 0 -> c b d <= 0 -> c a d <= 0.
Proof.
  intros Hab Hbd.
  destruct (Z.eq_dec (c a b) 0) as [E|E].
  - rewrite (cmp_eq c Hc a b d E). exact Hbd.
  - destruct (Z.eq_dec (c b d) 0) as [E'|E'].
    + pose proof (cmp_anti c Hc b d) as H1.
      assert (H2 : c d b = 0) by lia.
      pose proof (cmp_eq c Hc d b a H2) as H3.
      pose proof (cmp_anti c Hc a d). pose proof (cmp_anti c Hc a b). lia.
    + assert (c a d < 0); [|lia].
      apply (cmp_lt c Hc a b d); lia.
Qed.

Lemma cmp_gt_le (a b : A) : 0 < c a b -> c b a <= 0.
Proof. pose proof (cmp_anti c Hc a b). lia. Qed.
End Comparators.

Lemma comparator_lex {A} (c1 c2 : A -> A -> Z) :
  comparator c1 -> comparator c2 ->
  comparator (fun a b => lor_num (c1 a b) (c2 a b)).
Proof.
  intros H1 H2. unfold lor_num. split.
  - intros a b. rewrite (cmp_anti c1 H1 a b), (cmp_anti c2 H2 a b).
    destruct (Z.eqb_spec (c1 a b) 0), (Z.eqb_spec (- c1 a b) 0); lia.
  - intros a b d.
    destruct (Z.eqb_spec (c1 a b) 0) as [E|E]; [|lia].
    intros E2. rewrite (cmp_eq c1 H1 a b d E), (cmp_eq c2 H2 a b d E2).
    reflexivity.
  - intros a b d.
    destruct (Z.eqb_spec (c1 a b) 0) as [E|E].
    + rewrite (cmp_eq c1 H1 a b d E). intros Hab.
      destruct (Z.eqb_spec (c1 b d) 0) as [E'|E']; [|lia].
      intros Hbd. apply (cmp_lt c2 H2 a b d); assumption.
    + intros Hab.
      destruct (Z.eqb_spec (c1 b d) 0) as [E'|E'].
      * intros _.
        pose proof (cmp_anti c1 H1 b d) as Ha.
        assert (Hdb : c1 d b = 0) by lia.
        pose proof (cmp_eq c1 H1 d b a Hdb) as Hda.
        pose proof (cmp_anti c1 H1 a d). pose proof (cmp_anti c1 H1 a b).
        destruct (Z.eqb_spec (c1 a d) 0); lia.
      * intros Hbd. pose proof (cmp_lt c1 H1 a b d Hab Hbd).
        destruct (Z.eqb_spec (c1 a d) 0); lia.
Qed.

Lemma comparator_on {A B} (f : A -> B) (c : B -> B -> Z) :
  comparator c -> comparator (fun a b => c (f a) (f b)).
Proof.
  intros H. split; intros.
  - apply (cmp_anti c H).
  - apply (cmp_eq c H); assumption.
  - eapply (cmp_lt c H); eassumption.
Qed.

(** Strings under code unit order. *)
Lemma string_compare_refl (s : string) : String.compare s s = Eq.
Proof.
  induction s as [|a s IH]; simpl; [reflexivity|].
  unfold Ascii.compare. rewrite N.compare_refl. exact IH.
Qed.

Lemma string_compare_lt_trans (s1 s2 s3 : string) :
  String.compare s1 s2 = Lt -> String.compare s2 s3 = Lt ->
  String.compare s1 s3 = Lt.
Proof.
  revert s2 s3. induction s1 as [|a s1 IH]; intros [|b s2] [|d s3]; simpl;
    try congruence.
  unfold Ascii.compare.
  destruct (N.compare_spec (N_of_ascii a) (N_of_ascii b)) as [E|E|E];
    destruct (N.compare_spec (N_of_ascii b) (N_of_ascii d)) as [E'|E'|E'];
    try congruence; intros H1 H2.
  - rewrite E, E', N.compare_refl. eapply IH; eassumption.
  - rewrite E. apply N.compare_lt_iff in E'. rewrite E'. reflexivity.
  - rewrite <- E'. apply N.compare_lt_iff in E. rewrite E. reflexivity.
  - assert (E2 : (N_of_ascii a < N_of_ascii d)%N) by lia.
    apply N.compare_lt_iff in E2. rewrite E2. reflexivity.
Qed.

Lemma identifier_eqb_eq (a b : Semver.identifier) :
  Semver.identifier_eqb a b = true <-> a = b.
Proof.
  destruct a as [x|x], b as [y|y]; simpl; split; try congruence.
  - intros H. apply N.eqb_eq in H. congruence.
  - intros H. injection H as ->. apply N.eqb_refl.
  - intros H. apply String.eqb_eq in H. congruence.
  - intros H. injection H as ->. apply String.eqb_refl.
Qed.

Lemma exactIdentifiers_zero (a b : Semver.identifier) :
  exactIdentifiers a b = 0 <-> a = b.
Proof.
  destruct a as [x|x], b as [y|y]; simpl; split; try congruence; try lia.
  - destruct (N.eqb_spec x y); [congruence|]. destruct (x <? y)%N; lia.
  - intros H. injection H as ->. rewrite N.eqb_refl. reflexivity.
  - destruct (String.eqb_spec x y); [congruence|]. destruct (String.ltb x y); lia.
  - intros H. injection H as ->. rewrite String.eqb_refl. reflexivity.
Qed.

Lemma comparator_identifiers : comparator exactIdentifiers.
Proof.
  split.
  - intros [x|x] [y|y]; simpl; try reflexivity.
    + destruct (N.eqb_spec x y), (N.eqb_spec y x),
        (N.ltb_spec x y), (N.ltb_spec y x); lia.
    + rewrite (String.eqb_sym y x).
      destruct (String.eqb_spec x y) as [E|E]; [reflexivity|].
      unfold String.ltb. rewrite (String.compare_antisym y x).
      destruct (String.compare x y) eqn:Hxy; simpl; try reflexivity.
      apply String.compare_eq_iff in Hxy. contradiction.
  - intros a b d H. apply exactIdentifiers_zero in H. subst. reflexivity.
  - intros [x|x] [y|y] [z|z]; simpl; try lia.
    + destruct (N.eqb_spec x y), (N.eqb_spec y z), (N.eqb_spec x z),
        (N.ltb_spec x y), (N.ltb_spec y z), (N.ltb_spec x z); lia.
    + unfold String.ltb.
      destruct (String.eqb_spec x y) as [E|E]; [lia|].
      destruct (String.eqb_spec y z) as [E'|E']; [lia|].
      destruct (String.compare x y) eqn:Hxy; try lia.
      destruct (String.compare y z) eqn:Hyz; try lia.
      intros _ _.
      pose proof (string_compare_lt_trans _ _ _ Hxy Hyz) as Hxz.
      rewrite Hxz.
      destruct (String.eqb_spec x z) as [E2|E2]; [|lia].
      subst. rewrite string_compare_refl in Hxz. discriminate.
Qed.

Lemma exactPreLoop_anti (a b : list Semver.identifier) :
  exactPreLoop b a = - exactPreLoop a b.
Proof.
  revert b. induction a as [|x a IH]; intros [|y b]; simpl; try reflexivity.
  destruct (Semver.identifier_eqb x y) eqn:E.
  - apply identifier_eqb_eq in E. subst y.
    rewrite (proj2 (identifier_eqb_eq x x) eq_refl). apply IH.
  - destruct (Semver.identifier_eqb y x) eqn:E'.
    + apply identifier_eqb_eq in E'. subst y.
      rewrite (proj2 (identifier_eqb_eq x x) eq_refl) in E. discriminate.
    + apply (cmp_anti _ comparator_identifiers).
Qed.

Lemma exactPreLoop_zero (a b : list Semver.identifier) :
  exactPreLoop a b = 0 -> a = b.
Proof.
  revert b. induction a as [|x a IH]; intros [|y b]; simpl;
    try reflexivity; try lia.
  destruct (Semver.identifier_eqb x y) eqn:E.
  - apply identifier_eqb_eq in E. subst y. intros H. f_equal. apply IH, H.
  - intros H. apply exactIdentifiers_zero in H. subst y.
    rewrite (proj2 (identifier_eqb_eq x x) eq_refl) in E. discriminate.
Qed.

Lemma exactPreLoop_lt (a b d : list Semver.identifier) :
  exactPreLoop a b < 0 -> exactPreLoop b d < 0 ->
  exactPreLoop a d < 0.
Proof.
  revert b d. induction a as [|x a IH]; intros [|y b] [|z d]; simpl; try lia.
  destruct (Semver.identifier_eqb x y) eqn:Exy;
    destruct (Semver.identifier_eqb y z) eqn:Eyz.
  - apply identifier_eqb_eq in Exy. subst y. rewrite Eyz. apply IH.
  - apply identifier_eqb_eq in Exy. subst y. rewrite Eyz. tauto.
  - apply identifier_eqb_eq in Eyz. subst z. rewrite Exy. tauto.
  - intros H1 H2.
    pose proof (cmp_lt _ comparator_identifiers x y z H1 H2) as H3.
    destruct (Semver.identifier_eqb x z) eqn:Exz; [|exact H3].
    apply identifier_eqb_eq in Exz. subst z.
    rewrite (proj2 (exactIdentifiers_zero x x) eq_refl) in H3. lia.
Qed.

Lemma comparator_prerelease : comparator exactPrerelease.
Proof.
  split.
  - intros [|x a] [|y b]; try reflexivity.
    apply (exactPreLoop_anti (x :: a) (y :: b)).
  - intros a b d H.
    assert (a = b); [|subst; reflexivity].
    destruct a as [|x a], b as [|y b]; try reflexivity;
      try (simpl in H; lia).
    apply exactPreLoop_zero, H.
  - intros [|x a] [|y b] [|z d]; try (simpl; lia).
    apply (exactPreLoop_lt (x :: a) (y :: b) (z :: d)).
Qed.

Lemma comparator_ext {A} (c c' : A -> A -> Z) :
  (forall a b, c a b = c' a b) -> comparator c' -> comparator c.
Proof.
  intros E H. split; intros; rewrite !E in *.
  - apply (cmp_anti c' H).
  - apply (cmp_eq c' H); assumption.
  - eapply (cmp_lt c' H); eassumption.
Qed.

Lemma comparator_number {A} (f : A -> N) :
  comparator (fun a b => Semver.compareIdentifiers (Semver.IdNum (f a))
                                                   (Semver.IdNum (f b))).
Proof.
  apply (comparator_ext _
           (fun a b => exactIdentifiers (Semver.IdNum (f a))
                                        (Semver.IdNum (f b)))).
  - intros a b. reflexivity.
  - apply (comparator_on (fun v => Semver.IdNum (f v))).
    apply comparator_identifiers.
Qed.

Lemma comparator_fields : comparator exactFields.
Proof.
  unfold exactFields, Semver.compareMain.
  apply comparator_lex.
  - apply comparator_lex; [|apply comparator_lex]; apply comparator_number.
  - apply (comparator_on Semver.prerelease exactPrerelease
             comparator_prerelease).
Qed.

(** On versions without a numeric identifier at or above
    [MAX_SAFE_INTEGER] the comparison of the package is the order of the
    specification. *)
Lemma compareIdentifiers_exact (a b : Semver.identifier) :
  safeIdentifier a = true -> safeIdentifier b = true ->
  Semver.compareIdentifiers a b = exactIdentifiers a b.
Proof.
  destruct a as [x|x], b as [y|y]; unfold Semver.compareIdentifiers;
    cbn [safeIdentifier Semver.isNumeric Semver.numberOf Semver.lessThan
         Semver.identifier_eqb exactIdentifiers andb negb];
    intros Ha Hb.
  - reflexivity.
  - apply negb_true_iff in Hb. rewrite Hb. reflexivity.
  - apply negb_true_iff in Ha. rewrite Ha. reflexivity.
  - apply negb_true_iff in Ha, Hb. rewrite Ha, Hb. reflexivity.
Qed.

Lemma comparePreLoop_exact (a b : list Semver.identifier) :
  forallb safeIdentifier a = true -> forallb safeIdentifier b = true ->
  Semver.comparePreLoop a b = exactPreLoop a b.
Proof.
  revert b. induction a as [|x a IH]; intros [|y b]; simpl;
    try reflexivity.
  intros Ha Hb. apply andb_true_iff in Ha as (Hx & Ha).
  apply andb_true_iff in Hb as (Hy & Hb).
  rewrite (IH b Ha Hb), (compareIdentifiers_exact x y Hx Hy). reflexivity.
Qed.

Lemma compareFields_exact (a b : Semver.SemVer) :
  safe a = true -> safe b = true -> compareFields a b = exactFields a b.
Proof.
  unfold safe, compareFields, exactFields, Semver.comparePre, exactPrerelease.
  intros Ha Hb. f_equal.
  destruct (Semver.prerelease a) as [|x pa] eqn:Epa,
           (Semver.prerelease b) as [|y pb] eqn:Epb; try reflexivity.
  apply comparePreLoop_exact; assumption.
Qed.

Lemma comparePreLoop_refl (a : list Semver.identifier) :
  Semver.comparePreLoop a a = 0.
Proof.
  induction a as [|x a IH]; simpl; [reflexivity|].
  rewrite (proj2 (identifier_eqb_eq x x) eq_refl). exact IH.
Qed.

Lemma compareFields_refl (a : Semver.SemVer) : compareFields a a = 0.
Proof.
  unfold compareFields, Semver.compareMain, Semver.comparePre, lor_num.
  cbn [Semver.compareIdentifiers Semver.isNumeric Semver.numberOf andb].
  rewrite !N.eqb_refl. cbn [Z.eqb].
  destruct (Semver.prerelease a) as [|x pa]; [reflexivity|].
  apply comparePreLoop_refl.
Qed.

(** The numeric part of the comparison. *)
Lemma compareMain_pos (a b : Semver.SemVer) :
  0 < Semver.compareMain a b <->
  (Semver.major b < Semver.major a)%N \/
  (Semver.major b = Semver.major a /\
   ((Semver.minor b < Semver.minor a)%N \/
    (Semver.minor b = Semver.minor a /\ (Semver.patch b < Semver.patch a)%N))).
Proof.
  unfold Semver.compareMain, lor_num, Semver.compareIdentifiers.
  cbn [Semver.isNumeric Semver.numberOf andb].
  destruct (N.eqb_spec (Semver.major a) (Semver.major b)),
    (N.ltb_spec (Semver.major a) (Semver.major b)),
    (N.eqb_spec (Semver.minor a) (Semver.minor b)),
    (N.ltb_spec (Semver.minor a) (Semver.minor b)),
    (N.eqb_spec (Semver.patch a) (Semver.patch b)),
    (N.ltb_spec (Semver.patch a) (Semver.patch b)); simpl; lia.
Qed.

Lemma compareMain_zero (a b : Semver.SemVer) :
  Semver.compareMain a b = 0 <-> triple a = triple b.
Proof.
  unfold Semver.compareMain, lor_num, triple, Semver.compareIdentifiers.
  cbn [Semver.isNumeric Semver.numberOf andb].
  destruct (N.eqb_spec (Semver.major a) (Semver.major b)),
    (N.ltb_spec (Semver.major a) (Semver.major b)),
    (N.eqb_spec (Semver.minor a) (Semver.minor b)),
    (N.ltb_spec (Semver.minor a) (Semver.minor b)),
    (N.eqb_spec (Semver.patch a) (Semver.patch b)),
    (N.ltb_spec (Semver.patch a) (Semver.patch b)); simpl;
    split; intros Heq; try lia; try congruence;
    injection Heq; intros; lia.
Qed.

Section Parsed.
Context {L : Semver.Library}.
Hypothesis Hversion : Semver.parse_version L.

Lemma parsed_version_inj (a b : Semver.SemVer) :
  parsed a -> parsed b -> Semver.version a = Semver.version b -> a = b.
Proof.
  intros (s & Ha) (t & Hb) E.
  apply Hversion in Ha, Hb. rewrite E in Ha. congruence.
Qed.

Lemma compareSemVer_fields (a b : Semver.SemVer) :
  parsed a -> parsed b -> Semver.compareSemVer a b = compareFields a b.
Proof.
  intros Ha Hb. unfold Semver.compareSemVer.
  destruct (String.eqb_spec (Semver.version a) (Semver.version b)) as [E|E];
    [|reflexivity].
  rewrite (parsed_version_inj a b Ha Hb E).
  symmetry. apply compareFields_refl.
Qed.

(** The text of a parsed version is itself a valid version. *)
Lemma parsed_version_valid (s : string) (v : Semver.SemVer) :
  Semver.parse s = Some v ->
  Semver.valid (Some (Semver.version v)) = Some (Semver.version v).
Proof.
  intros H. unfold Semver.valid. simpl.
  rewrite (Hversion s v H). reflexivity.
Qed.
(** Against the baseline ["0.0.0"], a version is greater exactly when
    one of its three numbers is not zero. *)
Lemma gt_baseline (latest : string) (v : Semver.SemVer) :
  Semver.parse_zero L -> Semver.parse latest = Some v ->
  Semver.gt latest "0.0.0"
  = Ok (negb ((Semver.major v =? 0)%N && (Semver.minor v =? 0)%N
              && (Semver.patch v =? 0)%N)).
Proof.
  intros (z & Hz & Hmajor & Hminor & Hpatch & Hpre) Hv.
  unfold Semver.gt, Semver.compare, Semver.newSemVer. rewrite Hv, Hz.
  cbn [JS.bind]. f_equal.
  rewrite (compareSemVer_fields v z) by (eexists; eassumption).
  unfold compareFields, Semver.compareMain, Semver.comparePre, lor_num.
  rewrite Hmajor, Hminor, Hpatch, Hpre. unfold Semver.compareIdentifiers.
  cbn [Semver.isNumeric Semver.numberOf andb].
  destruct (N.eqb_spec (Semver.major v) 0), (N.ltb_spec (Semver.major v) 0),
    (N.eqb_spec (Semver.minor v) 0), (N.ltb_spec (Semver.minor v) 0),
    (N.eqb_spec (Semver.patch v) 0), (N.ltb_spec (Semver.patch v) 0);
    try lia; try reflexivity;
    destruct (Semver.prerelease v); reflexivity.
Qed.
End Parsed.

End Order.

(** ** The reference front end satisfies the laws *)

Module SemverRefFacts.

Import Semver SemverRef.

Lemma parseRef_version (s : string) (v : SemVer) :
  parseRef s = Some v -> version v = s.
Proof.
  unfold parseRef. intros H.
  repeat match type of H with
         | context [match ?x with _ => _ end] =>
             destruct x; try discriminate H
         end.
  injection H as <-. reflexivity.
Qed.

Lemma parse_empty_ref : parse_empty library.
Proof. reflexivity. Qed.

Lemma parse_version_ref : parse_version library.
Proof.
  intros s v H. simpl in *.
  rewrite (parseRef_version s v H). exact H.
Qed.

Lemma parse_zero_ref : parse_zero library.
Proof. eexists. repeat split; reflexivity. Qed.

End SemverRefFacts.

(** ** parser.js: the version range analyzer *)

Module ParserFacts.

Import Parser.

Section WithLibrary.
Context {L : Semver.Library}.
Hypothesis Hempty : Semver.parse_empty L.
Hypothesis Hversion : Semver.parse_version L.

Lemma parsed_version_nonempty (s : string) (v : Semver.SemVer) :
  Semver.parse s = Some v -> Semver.version v <> "".
Proof.
  intros H E. apply Hversion in H. rewrite E in H.
  unfold Semver.parse_empty in Hempty. congruence.
Qed.

(** The outcome of [parseVersionRange] when the cleaned text is a
    version. *)
Lemma parseVersionRange_exact (version : string) (x : Semver.SemVer) :
  Semver.parse (Semver.stripEqV (trim version)) = Some x ->
  parseVersionRange version =
  Ok {| original := version;
        clean := Some (Semver.version x);
        valid := Some (Semver.version x);
        range := Semver.validRange version;
        isExact := true;
        isRange := false;
        major := Some (Semver.major x);
        minor := Some (Semver.minor x);
        patch := Some (Semver.patch x) |}.
Proof.
  intros H. unfold parseVersionRange, Semver.clean. rewrite H. simpl.
  rewrite (Order.parsed_version_valid Hversion _ _ H).
  pose proof (parsed_version_nonempty _ _ H) as Hne.
  unfold component, Semver.majorOf, Semver.minorOf, Semver.patchOf,
    Semver.newSemVer.
  rewrite (proj2 (JSFacts.truthy_some _) Hne), (Hversion _ _ H). simpl.
  destruct (Semver.validRange version); reflexivity.
Qed.

(** The outcome of [parseVersionRange] when it is not. *)
Lemma parseVersionRange_inexact (version : string) :
  Semver.parse (Semver.stripEqV (trim version)) = None ->
  parseVersionRange version =
  Ok {| original := version;
        clean := None;
        valid := None;
        range := Semver.validRange version;
        isExact := false;
        isRange := match Semver.validRange version with
                   | Some _ => true
                   | None => false
                   end;
        major := None;
        minor := None;
        patch := None |}.
Proof.
  intros H. unfold parseVersionRange, Semver.clean. rewrite H. simpl.
  destruct (Semver.validRange version); reflexivity.
Qed.

Lemma valid_clean (version : string) :
  Semver.valid (Semver.clean version) = Semver.clean version.
Proof.
  unfold Semver.clean.
  destruct (Semver.parse (Semver.stripEqV (trim version))) as [x|] eqn:H;
    simpl; [|reflexivity].
  apply (Order.parsed_version_valid Hversion _ _ H).
Qed.

Lemma parseVersionRange_total (version : string) :
  exists info, parseVersionRange version = Ok info.
Proof.
  destruct (Semver.parse (Semver.stripEqV (trim version))) as [x|] eqn:H.
  - unfold parseVersionRange, Semver.clean. rewrite H. simpl.
    rewrite (Order.parsed_version_valid Hversion _ _ H).
    unfold component, Semver.majorOf, Semver.minorOf, Semver.patchOf,
      Semver.newSemVer.
    rewrite (Hversion _ _ H).
    destruct (truthy (Some (Semver.version x))); simpl; eauto.
  - eexists. apply parseVersionRange_inexact, H.
Qed.

Lemma parseVersionRange_clean (version : string) (info : VersionRangeInfo) :
  parseVersionRange version = Ok info -> clean info = Semver.clean version.
Proof.
  unfold parseVersionRange. intros H.
  apply JSFacts.bind_ok in H as (mj & _ & H).
  apply JSFacts.bind_ok in H as (mn & _ & H).
  apply JSFacts.bind_ok in H as (pt & _ & H).
  injection H as <-. reflexivity.
Qed.
End WithLibrary.

End ParserFacts.

(** ** Claims on the version range analyzer and the update classifier *)

Module ClassifierFacts.

Section WithLibrary.
Context {L : Semver.Library}.

Lemma getUpdateType_unparsed (currentVersion newVersion : option string) :
  Semver.parse_value currentVersion = None \/
  Semver.parse_value newVersion = None ->
  UpdateCmd.getUpdateType currentVersion newVersion = "unknown".
Proof.
  unfold UpdateCmd.getUpdateType.
  intros [H|H]; rewrite H;
    destruct (negb (truthy currentVersion) || negb (truthy newVersion));
    try reflexivity;
    destruct (Semver.parse_value currentVersion); reflexivity.
Qed.

Lemma getUpdateType_parsed (currentVersion newVersion : option string)
  (current candidate : Semver.SemVer) :
  Semver.parse_empty L ->
  Semver.parse_value currentVersion = Some current ->
  Semver.parse_value newVersion = Some candidate ->
  UpdateCmd.getUpdateType currentVersion newVersion
  = if (Semver.major current <? Semver.major candidate)%N then "major"
    else if (Semver.minor current <? Semver.minor candidate)%N then "minor"
    else if (Semver.patch current <? Semver.patch candidate)%N then "patch"
    else "none".
Proof.
  intros Hempty Hc Hn. unfold Semver.parse_empty in Hempty.
  unfold UpdateCmd.getUpdateType.
  assert (Ht : forall v x, Semver.parse_value v = Some x -> truthy v = true).
  { intros [s|] x Hv; simpl in Hv; [|discriminate].
    apply JSFacts.truthy_some. intros ->. congruence. }
  rewrite (Ht _ _ Hc), (Ht _ _ Hn), Hc, Hn. reflexivity.
Qed.
End WithLibrary.

End ClassifierFacts.

Section ClassifierClaims.
Context {L : Semver.Library}.

(** C1. [getUpdateType] returns ["unknown"] when either argument fails
    to parse as a version; otherwise it returns ["major"] if the major
    number of the candidate exceeds that of the current version, else
    ["minor"] if the minor number does, else ["patch"] if the patch number
    does, else ["none"].  This holds for the function of update.js and
    for the one of check.js. *)
Theorem getUpdateType_classifies (currentVersion newVersion : option string)
  (Hempty : Semver.parse_empty L) :
  ((Semver.parse_value currentVersion = None \/
    Semver.parse_value newVersion = None) ->
   UpdateCmd.getUpdateType currentVersion newVersion = "unknown" /\
   CheckCmd.getUpdateType currentVersion newVersion = "unknown")
  /\
  (forall current candidate,
      Semver.parse_value currentVersion = Some current ->
      Semver.parse_value newVersion = Some candidate ->
      let bucket :=
        if (Semver.major current <? Semver.major candidate)%N then "major"
        else if (Semver.minor current <? Semver.minor candidate)%N then "minor"
        else if (Semver.patch current <? Semver.patch candidate)%N then "patch"
        else "none" in
      UpdateCmd.getUpdateType currentVersion newVersion = bucket /\
      CheckCmd.getUpdateType currentVersion newVersion = bucket).
Proof.
  split.
  - intros H. split.
    + apply ClassifierFacts.getUpdateType_unparsed, H.
    + apply (ClassifierFacts.getUpdateType_unparsed currentVersion newVersion H).
  - intros current candidate Hc Hn. cbv zeta. split.
    + apply ClassifierFacts.getUpdateType_parsed; assumption.
    + apply (ClassifierFacts.getUpdateType_parsed
               currentVersion newVersion current candidate Hempty Hc Hn).
Qed.

(** C7. The classifier of the update command and the classifier of the
    check command return the same classification on every pair of
    arguments. *)
Theorem getUpdateType_same_in_both_commands
  (currentVersion newVersion : option string) :
  UpdateCmd.getUpdateType currentVersion newVersion
  = CheckCmd.getUpdateType currentVersion newVersion.
Proof. reflexivity. Qed.

(** C3. In the result of [parseVersionRange], [isExact] and [isRange]
    are never both true; both are false exactly when the text validates
    neither as an exact version (after cleaning) nor as a range; and the
    resolved exact version ([clean], [valid]) and each of [major],
    [minor], [patch] is present exactly when [isExact] is true. *)
Theorem parseVersionRange_flags (version : string)
  (info : Parser.VersionRangeInfo)
  (Hempty : Semver.parse_empty L) (Hversion : Semver.parse_version L)
  (Hinfo : Parser.parseVersionRange version = Ok info) :
  (Parser.isExact info && Parser.isRange info = false)
  /\ ((Parser.isExact info = false /\ Parser.isRange info = false) <->
      (Semver.valid (Semver.clean version) = None /\
       Semver.validRange version = None))
  /\ (Parser.isExact info = true <-> Parser.clean info <> None)
  /\ (Parser.isExact info = true <-> Parser.valid info <> None)
  /\ (Parser.isExact info = true <-> Parser.major info <> None)
  /\ (Parser.isExact info = true <-> Parser.minor info <> None)
  /\ (Parser.isExact info = true <-> Parser.patch info <> None).
Proof.
  rewrite (ParserFacts.valid_clean Hversion).
  unfold Semver.clean.
  destruct (Semver.parse (Semver.stripEqV (trim version))) as [x|] eqn:H.
  - rewrite (ParserFacts.parseVersionRange_exact Hempty Hversion _ _ H) in Hinfo.
    injection Hinfo as <-. simpl.
    repeat split; intros; try discriminate; try tauto;
      match goal with
      | Hc : _ /\ _ |- _ => destruct Hc; discriminate
      end.
  - rewrite (ParserFacts.parseVersionRange_inexact _ H) in Hinfo.
    injection Hinfo as <-. simpl.
    destruct (Semver.validRange version);
      repeat split; intros; try discriminate; try tauto;
      try congruence;
      match goal with
      | Hc : _ /\ _ |- _ => destruct Hc; discriminate
      end.
Qed.

(** C8. [parseVersionRange] returns a result for every version
    specifier and never throws; for a specifier that validates neither
    as an exact version nor as a range the result has [isExact] and
    [isRange] false and no [major], [minor] or [patch].  Being a
    function of its argument alone, it gives equal results on equal
    specifiers. *)
Theorem parseVersionRange_never_throws (version : string)
  (Hversion : Semver.parse_version L) :
  exists info,
    Parser.parseVersionRange version = Ok info
    /\ (forall version', version' = version ->
          Parser.parseVersionRange version' = Ok info)
    /\ (Semver.valid (Semver.clean version) = None ->
        Semver.validRange version = None ->
        Parser.isExact info = false /\ Parser.isRange info = false /\
        Parser.major info = None /\ Parser.minor info = None /\
        Parser.patch info = None).
Proof.
  rewrite (ParserFacts.valid_clean Hversion). unfold Semver.clean.
  destruct (Semver.parse (Semver.stripEqV (trim version))) as [x|] eqn:H.
  - destruct (ParserFacts.parseVersionRange_total Hversion version)
      as (info & Hinfo).
    exists info. split; [exact Hinfo|]. split; [intros ? ->; exact Hinfo|].
    simpl. discriminate.
  - rewrite (ParserFacts.parseVersionRange_inexact _ H).
    eexists. split; [reflexivity|].
    split; [intros ? ->; apply ParserFacts.parseVersionRange_inexact, H|].
    simpl. intros _ ->. repeat split.
Qed.

End ClassifierClaims.

Section AntisymmetryClaim.
Context {L : Semver.Library}.

(** C6, as amended.  For versions [a] and [b] that both parse: neither
    direction of the classifier yields ["unknown"]; both directions yield
    ["none"] exactly when the numeric triples are equal; the two directions
    never yield the same update bucket; and when one direction yields an
    update bucket and no component of the older version exceeds the
    matching component of the newer one, the reversed direction yields
    ["none"]. *)
Theorem getUpdateType_reversed (a b : string) (va vb : Semver.SemVer)
  (Hempty : Semver.parse_empty L)
  (Ha : Semver.parse a = Some va) (Hb : Semver.parse b = Some vb) :
  let forward := UpdateCmd.getUpdateType (Some a) (Some b) in
  let backward := UpdateCmd.getUpdateType (Some b) (Some a) in
  forward <> "unknown" /\ backward <> "unknown"
  /\ ((forward = "none" /\ backward = "none") <-> Spec.triple va = Spec.triple vb)
  /\ (In forward Spec.buckets -> backward <> forward)
  /\ (In forward Spec.buckets ->
      (Semver.major va <= Semver.major vb)%N ->
      (Semver.minor va <= Semver.minor vb)%N ->
      (Semver.patch va <= Semver.patch vb)%N ->
      backward = "none").
Proof.
  cbv zeta.
  rewrite (ClassifierFacts.getUpdateType_parsed (Some a) (Some b) va vb
             Hempty Ha Hb),
    (ClassifierFacts.getUpdateType_parsed (Some b) (Some a) vb va
       Hempty Hb Ha).
  unfold Spec.triple, Spec.buckets.
  destruct (N.ltb_spec (Semver.major va) (Semver.major vb)),
    (N.ltb_spec (Semver.minor va) (Semver.minor vb)),
    (N.ltb_spec (Semver.patch va) (Semver.patch vb)),
    (N.ltb_spec (Semver.major vb) (Semver.major va)),
    (N.ltb_spec (Semver.minor vb) (Semver.minor va)),
    (N.ltb_spec (Semver.patch vb) (Semver.patch va));
    try lia;
    (repeat split; intros; try discriminate; try lia;
     try match goal with
         | Heq : (_, _, _) = (_, _, _) |- _ => injection Heq; intros; lia
         | Hc : _ /\ _ |- _ => destruct Hc; discriminate
         end;
     try (f_equal; [f_equal|]; lia);
     try (simpl in *; intuition discriminate)).
Qed.

End AntisymmetryClaim.

(** ** Reports *)

Module ReportFacts.

Lemma filter_partition {A} (p : A -> bool) (l : list A) :
  List.length (filter (fun x => negb (p x)) l) + List.length (filter p l)
  = List.length l.
Proof.
  induction l as [|x l IH]; simpl; [reflexivity|].
  destruct (p x); simpl; lia.
Qed.

Lemma recommendations_partition (l : list UpdateCmd.updateResult) :
  List.length (filter (fun r => (List.length (UpdateCmd.recommendations r) =? 0)%nat) l)
  + List.length (filter (fun r => (0 <? List.length (UpdateCmd.recommendations r))%nat) l)
  = List.length l.
Proof.
  induction l as [|x l IH]; simpl; [reflexivity|].
  destruct (List.length (UpdateCmd.recommendations x)); simpl; lia.
Qed.

End ReportFacts.

Section ReportClaims.
Context {L : Semver.Library}.

(** C4. In the check report [upToDate + outdated = total], and in the
    update report [upToDate + hasUpdates = total], for every list of
    per-dependency results.  A dependency whose registry lookup failed
    gets [updateAvailable = false] (check) and no recommendation (update),
    and so adds one to [upToDate] and nothing to the other counter. *)
Theorem summary_partition :
  (forall results,
      CheckCmd.upToDate (CheckCmd.generateReport results)
      + CheckCmd.outdated (CheckCmd.generateReport results)
      = CheckCmd.total (CheckCmd.generateReport results))
  /\ (forall updateResults,
      UpdateCmd.upToDate (UpdateCmd.generateUpdateReport updateResults)
      + UpdateCmd.hasUpdates (UpdateCmd.generateUpdateReport updateResults)
      = UpdateCmd.total (UpdateCmd.generateUpdateReport updateResults))
  /\ (forall dependencies packageName dependency lookup,
      map_get packageName dependencies = Some dependency ->
      Spec.lookupFailed lookup = true ->
      exists r,
        CheckCmd.checkDependency dependencies packageName lookup = Ok r
        /\ CheckCmd.updateAvailable r = false
        /\ forall rest,
            CheckCmd.upToDate (CheckCmd.generateReport (r :: rest))
            = S (CheckCmd.upToDate (CheckCmd.generateReport rest))
            /\ CheckCmd.outdated (CheckCmd.generateReport (r :: rest))
               = CheckCmd.outdated (CheckCmd.generateReport rest))
  /\ (forall packageName dependency lookup allVersions opts,
      Spec.lookupFailed lookup = true ->
      exists r,
        UpdateCmd.recommend packageName dependency lookup allVersions opts = Ok r
        /\ UpdateCmd.recommendations r = []
        /\ forall rest,
            UpdateCmd.upToDate (UpdateCmd.generateUpdateReport (r :: rest))
            = S (UpdateCmd.upToDate (UpdateCmd.generateUpdateReport rest))
            /\ UpdateCmd.hasUpdates (UpdateCmd.generateUpdateReport (r :: rest))
               = UpdateCmd.hasUpdates (UpdateCmd.generateUpdateReport rest)).
Proof.
  split; [|split; [|split]].
  - intros results. apply ReportFacts.filter_partition.
  - intros updateResults. apply ReportFacts.recommendations_partition.
  - intros dependencies packageName dependency lookup Hget Hfail.
    unfold CheckCmd.checkDependency. rewrite Hget.
    assert (Hupd :
      match lookup with
      | fulfilled (Some value) =>
          if truthy (Some value)
          then
            available <- Semver.gt value
              (or_else (Parser.clean (Parser.depRange dependency)) "0.0.0") ;;
            Ok (Some value, available,
                if available
                then Some (CheckCmd.getUpdateType
                             (Parser.clean (Parser.depRange dependency))
                             (Some value))
                else None)
          else Ok (None, false, None)
      | _ => Ok (None, false, None)
      end = Ok (None, false, None)).
    { destruct lookup as [[value|]|reason]; try reflexivity.
      unfold Spec.lookupFailed in Hfail.
      destruct (truthy (Some value)); [discriminate|reflexivity]. }
    rewrite Hupd. simpl.
    eexists. split; [reflexivity|]. split; [reflexivity|].
    intros rest. split; reflexivity.
  - intros packageName dependency lookup allVersions opts Hfail.
    unfold UpdateCmd.recommend.
    destruct lookup as [[value|]|reason];
      try (eexists; split; [reflexivity|]; split; [reflexivity|];
           intros rest; split; reflexivity).
    unfold Spec.lookupFailed in Hfail.
    destruct (truthy (Some value)); [discriminate|].
    eexists; split; [reflexivity|]; split; [reflexivity|].
    intros rest; split; reflexivity.
Qed.

(** C10. In the check command, for a dependency whose cleaned version
    is absent, [updateAvailable] is the outcome of comparing the latest
    version of the registry with ["0.0.0"]; when that comparison says the
    latest version is greater, the dependency is reported with
    [updateAvailable = true] and [updateType = "unknown"], and it adds one
    to the [outdated] counter of the summary. *)
Theorem check_without_exact_version
  (dependencies : Map Parser.dependency) (packageName : string)
  (dependency : Parser.dependency) (latest : string) (available : bool)
  (Hget : map_get packageName dependencies = Some dependency)
  (Hclean : Parser.clean (Parser.depRange dependency) = None)
  (Hlatest : latest <> "")
  (Hgt : Semver.gt latest "0.0.0" = Ok available) :
  exists r,
    CheckCmd.checkDependency dependencies packageName (fulfilled (Some latest))
    = Ok r
    /\ CheckCmd.latestVersion r = Some latest
    /\ CheckCmd.updateAvailable r = available
    /\ (available = true ->
        CheckCmd.updateType r = Some "unknown"
        /\ forall rest,
            CheckCmd.outdated (CheckCmd.generateReport (r :: rest))
            = S (CheckCmd.outdated (CheckCmd.generateReport rest))
            /\ CheckCmd.upToDate (CheckCmd.generateReport (r :: rest))
               = CheckCmd.upToDate (CheckCmd.generateReport rest)).
Proof.
  unfold CheckCmd.checkDependency. rewrite Hget, Hclean.
  rewrite (proj2 (JSFacts.truthy_some latest) Hlatest).
  cbn [or_else]. rewrite Hgt. cbn [JS.bind].
  eexists. split; [reflexivity|]. cbn.
  split; [reflexivity|]. split; [reflexivity|].
  intros ->. split; [reflexivity|].
  intros rest. split; reflexivity.
Qed.

End ReportClaims.

(** ** parser.js: the dependency extractor *)

Module ExtractFacts.

Import Parser.

Lemma map_get_set {V} (k k' : string) (v : V) (m : Map V) :
  map_get k (map_set k' v m) = if (k' =? k)%string then Some v else map_get k m.
Proof.
  induction m as [|[k0 v0] m IH]; simpl.
  - reflexivity.
  - destruct (String.eqb_spec k0 k') as [E|E]; simpl.
    + subst k0. destruct (k' =? k)%string; reflexivity.
    + destruct (String.eqb_spec k0 k) as [E'|E'].
      * subst k0. destruct (String.eqb_spec k' k); [congruence|reflexivity].
      * exact IH.
Qed.

Lemma map_set_keys {V} (k : string) (v : V) (m : Map V) :
  map_keys (map_set k v m)
  = if in_dec string_dec k (map_keys m) then map_keys m else map_keys m ++ [k].
Proof.
  induction m as [|[k0 v0] m IH]; simpl; [reflexivity|].
  destruct (String.eqb_spec k0 k) as [E|E]; simpl.
  - subst k0. destruct (string_dec k k); [reflexivity|congruence].
  - unfold map_keys in *. rewrite IH.
    destruct (string_dec k0 k); [congruence|].
    destruct (in_dec string_dec k (List.map fst m)); reflexivity.
Qed.

Lemma map_set_nodup {V} (k : string) (v : V) (m : Map V) :
  NoDup (map_keys m) -> NoDup (map_keys (map_set k v m)).
Proof.
  intros H. rewrite map_set_keys.
  destruct (in_dec string_dec k (map_keys m)) as [Hin|Hin]; [exact H|].
  apply NoDup_app; [exact H|repeat constructor; simpl; tauto|].
  intros x Hx [<-|[]]. exact (Hin Hx).
Qed.

Lemma map_get_in_keys {V} (k : string) (v : V) (m : Map V) :
  map_get k m = Some v -> In k (map_keys m).
Proof.
  induction m as [|[k0 v0] m IH]; simpl; [discriminate|].
  destruct (String.eqb_spec k0 k); [left; assumption|].
  intros H. right. apply IH, H.
Qed.

Lemma lastVersion_declared (n : string) (es : list (string * string)) :
  In n (List.map fst es) -> exists v, Spec.lastVersion n es = Some v.
Proof.
  induction es as [|[k v] es IH]; simpl; [tauto|].
  intros [E|H].
  - subst k. destruct (Spec.lastVersion n es); [eauto|].
    rewrite String.eqb_refl. eauto.
  - destruct (IH H) as (v' & ->). eauto.
Qed.

Lemma lastVersion_undeclared (n : string) (es : list (string * string)) :
  ~ In n (List.map fst es) -> Spec.lastVersion n es = None.
Proof.
  induction es as [|[k v] es IH]; simpl; [reflexivity|].
  intros H. rewrite IH by tauto.
  destruct (String.eqb_spec k n); [tauto|reflexivity].
Qed.

Section WithLibrary.
Context {L : Semver.Library}.

Lemma setEntries_get (depType : string) (es : list (string * string))
  (m0 m : Map dependency) (n : string) :
  setEntries depType es m0 = Ok m ->
  match Spec.lastVersion n es with
  | Some v => Spec.bound depType n m v
  | None => map_get n m = map_get n m0
  end.
Proof.
  revert m0. induction es as [|[k v] es IH]; simpl; intros m0 H.
  - injection H as <-. reflexivity.
  - apply JSFacts.bind_ok in H as (info & Hinfo & H).
    specialize (IH _ H).
    destruct (Spec.lastVersion n es); [exact IH|].
    rewrite IH, map_get_set.
    destruct (String.eqb_spec k n) as [E|E]; [|reflexivity].
    subst k. exists info. split; [exact Hinfo|].
    rewrite IH, map_get_set, String.eqb_refl. reflexivity.
Qed.

Lemma setEntries_nodup (depType : string) (es : list (string * string))
  (m0 m : Map dependency) :
  setEntries depType es m0 = Ok m ->
  NoDup (map_keys m0) -> NoDup (map_keys m).
Proof.
  revert m0. induction es as [|[k v] es IH]; simpl; intros m0 H Hm0.
  - injection H as <-. exact Hm0.
  - apply JSFacts.bind_ok in H as (info & _ & H).
    apply (IH _ H), map_set_nodup, Hm0.
Qed.

Lemma extractSections_step (packageJson : manifest) (depType : string)
  (types : list string) (m0 : Map dependency) :
  extractSections packageJson (depType :: types) m0
  = (d <- setEntries depType (Spec.sectionEntries packageJson depType) m0 ;;
     extractSections packageJson types d).
Proof.
  simpl. unfold Spec.sectionEntries.
  destruct (truthy_value (property packageJson depType)
            && (typeof (property packageJson depType) =? "object")%string);
    reflexivity.
Qed.

Lemma extractSections_nodup (packageJson : manifest) (types : list string)
  (m0 m : Map dependency) :
  extractSections packageJson types m0 = Ok m ->
  NoDup (map_keys m0) -> NoDup (map_keys m).
Proof.
  revert m0. induction types as [|t types IH]; intros m0 H Hm0.
  - simpl in H. injection H as <-. exact Hm0.
  - rewrite extractSections_step in H.
    apply JSFacts.bind_ok in H as (d & Hd & H).
    apply (IH _ H). eapply setEntries_nodup; eauto.
Qed.

Lemma extractSections_untouched (packageJson : manifest)
  (types : list string) (m0 m : Map dependency) (n : string) :
  extractSections packageJson types m0 = Ok m ->
  (forall t, In t types -> ~ Spec.declaredIn packageJson t n) ->
  map_get n m = map_get n m0.
Proof.
  revert m0. induction types as [|t types IH]; intros m0 H Hno.
  - simpl in H. injection H as <-. reflexivity.
  - rewrite extractSections_step in H.
    apply JSFacts.bind_ok in H as (d & Hd & H).
    rewrite (IH _ H) by (intros; apply Hno; right; assumption).
    pose proof (setEntries_get _ _ _ _ n Hd) as Hget.
    rewrite lastVersion_undeclared in Hget; [exact Hget|].
    apply Hno. left. reflexivity.
Qed.

Lemma extractSections_last (packageJson : manifest)
  (before after : list string) (depType : string)
  (m0 m : Map dependency) (n : string) :
  extractSections packageJson (before ++ depType :: after) m0 = Ok m ->
  Spec.declaredIn packageJson depType n ->
  (forall t, In t after -> ~ Spec.declaredIn packageJson t n) ->
  exists v,
    Spec.lastVersion n (Spec.sectionEntries packageJson depType) = Some v /\
    Spec.bound depType n m v.
Proof.
  revert m0. induction before as [|t before IH]; intros m0 H Hin Hno.
  - simpl app in H. rewrite extractSections_step in H.
    apply JSFacts.bind_ok in H as (d & Hd & H).
    destruct (lastVersion_declared _ _ Hin) as (v & Hv).
    exists v. split; [exact Hv|].
    pose proof (setEntries_get _ _ _ _ n Hd) as Hget.
    rewrite Hv in Hget. destruct Hget as (info & Hinfo & Hget).
    exists info. split; [exact Hinfo|].
    rewrite (extractSections_untouched _ _ _ _ n H Hno). exact Hget.
  - simpl app in H. rewrite extractSections_step in H.
    apply JSFacts.bind_ok in H as (d & Hd & H).
    apply (IH _ H Hin Hno).
Qed.

Hypothesis Hversion : Semver.parse_version L.

Lemma setEntries_total (depType : string) (es : list (string * string))
  (m0 : Map dependency) :
  exists m, setEntries depType es m0 = Ok m.
Proof.
  revert m0. induction es as [|[k v] es IH]; simpl; intros m0; [eauto|].
  destruct (ParserFacts.parseVersionRange_total Hversion v) as (info & ->).
  simpl. apply IH.
Qed.

Lemma extractSections_total (packageJson : manifest) (types : list string)
  (m0 : Map dependency) :
  exists m, extractSections packageJson types m0 = Ok m.
Proof.
  revert m0. induction types as [|t types IH]; intros m0; [simpl; eauto|].
  rewrite extractSections_step.
  destruct (setEntries_total t (Spec.sectionEntries packageJson t) m0)
    as (d & ->).
  simpl. apply IH.
Qed.
End WithLibrary.

End ExtractFacts.

Section ExtractClaim.
Context {L : Semver.Library}.

(** C9. [extractDependencies] returns a map whose keys are pairwise
    distinct.  A name declared in a section and in no later section of
    the order dependencies, devDependencies, peerDependencies,
    optionalDependencies (whether or not earlier sections declare it too)
    occurs exactly once among the keys, and is bound to the record of
    that section: its [type] is the section, its [version] the specifier
    written there, its [range] the analysis of that specifier. *)
Theorem extractDependencies_last_write_wins (packageJson : Parser.manifest)
  (Hversion : Semver.parse_version L) :
  exists m,
    Parser.extractDependencies packageJson = Ok m
    /\ NoDup (map_keys m)
    /\ forall before depType after name,
        Parser.dependencyTypes = before ++ depType :: after ->
        Spec.declaredIn packageJson depType name ->
        (forall t, In t after -> ~ Spec.declaredIn packageJson t name) ->
        count_occ string_dec (map_keys m) name = 1
        /\ exists version info,
            Spec.lastVersion name (Spec.sectionEntries packageJson depType)
            = Some version
            /\ Parser.parseVersionRange version = Ok info
            /\ map_get name m
               = Some {| Parser.name := name;
                         Parser.version := version;
                         Parser.type := depType;
                         Parser.depRange := info |}.
Proof.
  unfold Parser.extractDependencies.
  destruct (ExtractFacts.extractSections_total Hversion packageJson
              Parser.dependencyTypes []) as (m & Hm).
  exists m. split; [exact Hm|].
  assert (Hnd : NoDup (map_keys m)).
  { eapply ExtractFacts.extractSections_nodup; [exact Hm|constructor]. }
  split; [exact Hnd|].
  intros before depType after name Htypes Hin Hno.
  rewrite Htypes in Hm.
  destruct (ExtractFacts.extractSections_last _ _ _ _ _ _ _ Hm Hin Hno)
    as (v & Hv & info & Hinfo & Hget).
  split.
  - apply NoDup_count_occ'; [exact Hnd|].
    eapply ExtractFacts.map_get_in_keys, Hget.
  - exists v, info. auto.
Qed.

End ExtractClaim.

(** ** audit.js: the security classifier *)

Module AuditFacts.

Import Registry AuditCmd.

Lemma toLowerCase_level (threshold : string) :
  In threshold severityLevels -> toLowerCase threshold = threshold.
Proof.
  simpl. intros [<-|[<-|[<-|[<-|[]]]]]; reflexivity.
Qed.

Lemma indexOf_level (s : string) :
  indexOf severityLevels s
  = match Spec.severityRank s with
    | Some r => Z.of_nat r
    | None => (-1)%Z
    end.
Proof.
  unfold indexOf, severityLevels, Spec.severityRank.
  cbn [indexOf_from].
  rewrite (String.eqb_sym "low" s), (String.eqb_sym "moderate" s),
    (String.eqb_sym "high" s), (String.eqb_sym "critical" s).
  destruct (s =? "low")%string; [reflexivity|].
  destruct (s =? "moderate")%string; [reflexivity|].
  destruct (s =? "high")%string; [reflexivity|].
  destruct (s =? "critical")%string; reflexivity.
Qed.

(** The index test of the filter is the rank test. *)
Lemma index_test_rank (threshold s : string) :
  In threshold severityLevels ->
  (indexOf severityLevels threshold <=? indexOf severityLevels s)%Z
  = Spec.atLeast threshold s.
Proof.
  intros Hin. rewrite !indexOf_level. unfold Spec.atLeast.
  assert (Ht : exists t, Spec.severityRank threshold = Some t).
  { simpl in Hin.
    destruct Hin as [<-|[<-|[<-|[<-|[]]]]]; eexists; reflexivity. }
  destruct Ht as (t & ->).
  destruct (Spec.severityRank s) as [r|].
  - destruct (Z.leb_spec (Z.of_nat t) (Z.of_nat r)), (Nat.leb_spec t r);
      try reflexivity; lia.
  - destruct (Z.leb_spec (Z.of_nat t) (-1)); [lia|reflexivity].
Qed.

Lemma filterBySeverity_rank (threshold : string) (vs : list vulnerability) :
  In threshold severityLevels ->
  filterBySeverity (indexOf severityLevels (toLowerCase threshold)) vs
  = filter (fun v => Spec.atLeast threshold (severity v)) vs.
Proof.
  intros Hin. rewrite (toLowerCase_level _ Hin).
  unfold filterBySeverity. apply filter_ext.
  intros v. apply index_test_rank, Hin.
Qed.

Lemma vulnerabilitiesOf_ok (database : string -> entry) (name : string)
  (vs : list vulnerability) :
  vulnerabilitiesOf database name = Ok vs ->
  database name <> Inherited /\ vs = Spec.onRecord database name.
Proof.
  unfold vulnerabilitiesOf, Spec.onRecord.
  destruct (database name); intros H; try discriminate;
    injection H as <-; split; (discriminate || reflexivity).
Qed.

Lemma vulnerabilitiesOf_audited (database : string -> entry) (name : string) :
  database name <> Inherited ->
  vulnerabilitiesOf database name = Ok (Spec.onRecord database name).
Proof.
  unfold vulnerabilitiesOf, Spec.onRecord.
  destruct (database name); intros H; try reflexivity. congruence.
Qed.

(** The audit returns exactly when no dependency bears an inherited
    name. *)
Lemma auditEntries_total (database : string -> entry) (minSeverityIndex : Z)
  (dependencies : Map Parser.dependency) :
  Spec.audited database dependencies ->
  exists results, auditEntries database minSeverityIndex dependencies = Ok results.
Proof.
  unfold Spec.audited.
  induction dependencies as [|[name dependency] rest IH]; intros H;
    [exists []; reflexivity|].
  cbn [auditEntries].
  rewrite (vulnerabilitiesOf_audited database name)
    by (apply H; left; reflexivity).
  destruct IH as (results & ->);
    [intros n Hn; apply H; right; exact Hn|].
  cbn [JS.bind]. eauto.
Qed.

Lemma auditEntries_audited (database : string -> entry) (minSeverityIndex : Z)
  (dependencies : Map Parser.dependency) (results : list auditResult) :
  auditEntries database minSeverityIndex dependencies = Ok results ->
  Spec.audited database dependencies.
Proof.
  unfold Spec.audited. revert results.
  induction dependencies as [|[name dependency] rest IH]; intros results H n Hn;
    [destruct Hn|].
  cbn [auditEntries] in H.
  apply JSFacts.bind_ok in H as (vs & Hvs & H).
  apply JSFacts.bind_ok in H as (rs & Hrs & _).
  destruct Hn as [<-|Hn].
  - apply (vulnerabilitiesOf_ok _ _ _ Hvs).
  - apply (IH rs Hrs n Hn).
Qed.

Lemma auditEntries_throws (database : string -> entry) (minSeverityIndex : Z)
  (dependencies : Map Parser.dependency) (name : string) :
  In name (map_keys dependencies) -> database name = Inherited ->
  exists e, auditEntries database minSeverityIndex dependencies = Throw e.
Proof.
  intros Hin Hname.
  destruct (auditEntries database minSeverityIndex dependencies)
    as [results|e] eqn:H; [|eauto].
  destruct (auditEntries_audited _ _ _ _ H name Hin Hname).
Qed.

(** The findings of the results of the loop. *)
Lemma allVulnerabilities_entries (database : string -> entry)
  (minSeverityIndex : Z) (dependencies : Map Parser.dependency)
  (results : list auditResult) :
  auditEntries database minSeverityIndex dependencies = Ok results ->
  allVulnerabilities results
  = flat_map
      (fun '(name, dependency) =>
         List.map
           (fun v => {| vuln := v;
                        findingPackage := name;
                        findingCurrentVersion := Parser.version dependency;
                        findingDependencyType := Parser.type dependency |})
           (filterBySeverity minSeverityIndex (Spec.onRecord database name)))
      dependencies.
Proof.
  revert results.
  induction dependencies as [|[name dependency] rest IH]; intros results H.
  - injection H as <-. reflexivity.
  - cbn [auditEntries] in H.
    apply JSFacts.bind_ok in H as (vs & Hvs & H).
    apply JSFacts.bind_ok in H as (rs & Hrs & H).
    apply vulnerabilitiesOf_ok in Hvs as (_ & ->).
    injection H as <-. cbn [flat_map]. rewrite <- (IH rs Hrs).
    destruct (filterBySeverity _ _) as [|v vs]; reflexivity.
Qed.

(** The report lists exactly the findings to keep, in order. *)
Lemma allVulnerabilities_kept (database : string -> entry)
  (dependencies : Map Parser.dependency) (threshold : string)
  (results : list auditResult) :
  In threshold severityLevels ->
  performSecurityAudit database dependencies threshold = Ok results ->
  allVulnerabilities results
  = Spec.keptFindings database dependencies threshold.
Proof.
  intros Hin H. unfold performSecurityAudit in H.
  rewrite (allVulnerabilities_entries _ _ _ _ H). unfold Spec.keptFindings.
  apply flat_map_ext. intros [name dependency].
  rewrite (filterBySeverity_rank threshold _ Hin). reflexivity.
Qed.


Lemma kept_ranked (database : string -> entry)
  (dependencies : Map Parser.dependency) (threshold : string) :
  Forall Spec.ranked (Spec.keptFindings database dependencies threshold).
Proof.
  apply Forall_forall. intros f Hf. unfold Spec.keptFindings in Hf.
  apply in_flat_map in Hf as ([name dependency] & _ & Hf).
  apply in_map_iff in Hf as (v & <- & Hv).
  apply filter_In in Hv as (_ & Hv).
  unfold Spec.ranked, Spec.atLeast in *. simpl.
  destruct (Spec.severityRank threshold); [|discriminate].
  destruct (Spec.severityRank (severity v)); [discriminate|discriminate].
Qed.



End AuditFacts.

Section AuditClaim.


End AuditClaim.

(** ** update.js: the update recommender *)

Module UpdateFacts.

Import UpdateCmd.

(** In a list sorted by [R], the first element that passes a test comes
    before, hence is [R]-related to, every other element that passes. *)
Lemma first_of_sorted {A} (R : A -> A -> Prop) (p : A -> bool) (l : list A) :
  StronglySorted R l ->
  match filter p l with
  | v :: _ =>
      In v l /\ p v = true /\
      forall w, In w l -> p w = true -> w = v \/ R v w
  | [] => forall w, In w l -> p w = false
  end.
Proof.
  intros Hs. induction Hs as [|x l Hs IH Hall]; simpl.
  - tauto.
  - destruct (p x) eqn:Hx.
    + split; [tauto|]. split; [exact Hx|].
      intros w [<-|Hw] _; [tauto|].
      right. rewrite Forall_forall in Hall. apply Hall, Hw.
    + destruct (filter p l) as [|v rest].
      * intros w [<-|Hw]; [exact Hx|apply IH, Hw].
      * destruct IH as (Hin & Hv & Hfirst).
        split; [tauto|]. split; [exact Hv|].
        intros w [<-|Hw] Hpw; [congruence|].
        apply Hfirst; assumption.
Qed.

Lemma of_type_map (f : string -> update) (t : string) (l : list string) :
  of_type t (List.map f l)
  = List.map f (filter (fun v => (updType (f v) =? t)%string) l).
Proof.
  unfold of_type. induction l as [|v l IH]; simpl; [reflexivity|].
  destruct (updType (f v) =? t)%string; simpl; rewrite IH; reflexivity.
Qed.

Lemma filter_filter {A} (p q : A -> bool) (l : list A) :
  filter q (filter p l) = filter (fun x => p x && q x) l.
Proof.
  induction l as [|x l IH]; simpl; [reflexivity|].
  destruct (p x); simpl; [destruct (q x)|]; rewrite IH; reflexivity.
Qed.

(** The guard on an empty list changes nothing. *)
Lemma generateRecommendations_body (dependency : Parser.dependency)
  (availableUpdates : list update) (opts : options) :
  generateRecommendations dependency availableUpdates opts
  = (match of_type "patch" availableUpdates with
     | latestPatch :: _ =>
         [ {| type := "patch"; version := updVersion latestPatch;
              priority := "high";
              reason := "Safe bug fixes and improvements";
              breaking := false |} ]
     | [] => []
     end)
    ++
    (match of_type "minor" availableUpdates with
     | latestMinor :: _ =>
         [ {| type := "minor"; version := updVersion latestMinor;
              priority := "medium";
              reason := "New features and improvements";
              breaking := false |} ]
     | [] => []
     end)
    ++
    (match of_type "major" availableUpdates with
     | latestMajor :: _ =>
         if optMajor opts then
           [ {| type := "major"; version := updVersion latestMajor;
                priority := "low";
                reason := "Major version with potential breaking changes";
                breaking := true |} ]
         else []
     | [] => []
     end).
Proof. destruct availableUpdates; reflexivity. Qed.

(** Every recommendation is the head of its bucket. *)
Lemma recommendation_head (dependency : Parser.dependency)
  (availableUpdates : list update) (opts : options) (r : recommendation) :
  In r (generateRecommendations dependency availableUpdates opts) ->
  exists u rest,
    of_type (type r) availableUpdates = u :: rest
    /\ version r = updVersion u
    /\ In (type r) Spec.buckets
    /\ priority r = Spec.priorityOf (type r)
    /\ breaking r = (type r =? "major")%string
    /\ (type r = "major" -> optMajor opts = true).
Proof.
  rewrite generateRecommendations_body. intros H.
  apply in_app_or in H as [H|H]; [|apply in_app_or in H as [H|H]].
  - destruct (of_type "patch" availableUpdates) as [|u rest] eqn:E; [destruct H|].
    destruct H as [<-|[]]. cbn [type]. rewrite E.
    exists u, rest. simpl. intuition discriminate.
  - destruct (of_type "minor" availableUpdates) as [|u rest] eqn:E; [destruct H|].
    destruct H as [<-|[]]. cbn [type]. rewrite E.
    exists u, rest. simpl. intuition discriminate.
  - destruct (of_type "major" availableUpdates) as [|u rest] eqn:E; [destruct H|].
    destruct (optMajor opts) eqn:Hopt; [|destruct H].
    destruct H as [<-|[]]. cbn [type]. rewrite E.
    exists u, rest. simpl. intuition discriminate.
Qed.

(** The head of a bucket is recommended, the major one with the option. *)
Lemma recommendation_emitted (dependency : Parser.dependency)
  (availableUpdates : list update) (opts : options) (bucket : string)
  (u : update) (rest : list update) :
  of_type bucket availableUpdates = u :: rest ->
  In bucket Spec.buckets ->
  (bucket = "major" -> optMajor opts = true) ->
  exists r,
    In r (generateRecommendations dependency availableUpdates opts)
    /\ type r = bucket /\ version r = updVersion u.
Proof.
  rewrite generateRecommendations_body. intros Hhead Hin Hmajor.
  simpl in Hin. destruct Hin as [<-|[<-|[<-|[]]]]; rewrite Hhead.
  - eexists. split; [apply in_or_app; left; left; reflexivity|].
    split; reflexivity.
  - eexists. split; [apply in_or_app; right; apply in_or_app; left; left;
                     reflexivity|].
    split; reflexivity.
  - rewrite (Hmajor eq_refl).
    eexists. split; [apply in_or_app; right; apply in_or_app; right; left;
                     reflexivity|].
    split; reflexivity.
Qed.

Lemma recommendations_count (dependency : Parser.dependency)
  (availableUpdates : list update) (opts : options) :
  let recs := generateRecommendations dependency availableUpdates opts in
  List.length recs <= 3
  /\ forall bucket,
      List.length (filter (fun r => (type r =? bucket)%string) recs) <= 1.
Proof.
  cbv zeta. rewrite generateRecommendations_body.
  destruct (of_type "patch" availableUpdates),
    (of_type "minor" availableUpdates),
    (of_type "major" availableUpdates),
    (optMajor opts);
    (split; [simpl; lia|]); intros bucket; cbn [app filter type];
    repeat match goal with
           | |- context [(?lit =? bucket)%string] =>
               destruct (String.eqb_spec lit bucket)
           end;
    subst; try discriminate; simpl; lia.
Qed.

Section WithLibrary.
Context {L : Semver.Library}.
Hypothesis Hempty : Semver.parse_empty L.
Hypothesis Hversion : Semver.parse_version L.

Let valid_text (v : string) : Prop := exists x, Semver.parse v = Some x.

Let safe_text (v : string) : Prop :=
  exists x, Semver.parse v = Some x /\ Spec.safe x = true.

Lemma valid_truthy (v : string) :
  truthy (Semver.valid (Some v)) = true <-> valid_text v.
Proof.
  unfold Semver.valid, valid_text. simpl.
  destruct (Semver.parse v) as [x|] eqn:H; simpl.
  - pose proof (ParserFacts.parsed_version_nonempty Hempty Hversion _ _ H).
    destruct (String.eqb_spec (Semver.version x) ""); [contradiction|].
    simpl. split; eauto.
  - split; [discriminate|]. intros (x & Hx). discriminate.
Qed.

Lemma compare_text (a b : string) :
  valid_text a -> valid_text b ->
  Semver.compare a b = Ok (Spec.compareText a b).
Proof.
  intros (x & Hx) (y & Hy).
  unfold Semver.compare, Semver.newSemVer, Spec.compareText.
  rewrite Hx, Hy. reflexivity.
Qed.

Lemma gt_text (a b : string) :
  valid_text a -> valid_text b ->
  Semver.gt a b = Ok (0 <? Spec.compareText a b)%Z.
Proof.
  intros Ha Hb. unfold Semver.gt. rewrite (compare_text a b Ha Hb).
  reflexivity.
Qed.

Lemma gt_valid (a b : string) (r : bool) :
  Semver.gt a b = Ok r -> valid_text a /\ valid_text b.
Proof.
  unfold Semver.gt, Semver.compare, Semver.newSemVer, valid_text.
  destruct (Semver.parse a); [|discriminate].
  destruct (Semver.parse b); [|discriminate].
  eauto.
Qed.

Lemma compareText_fields (a b : string) (x y : Semver.SemVer) :
  Semver.parse a = Some x -> Semver.parse b = Some y ->
  Spec.compareText a b = Spec.compareFields x y.
Proof.
  intros Hx Hy. unfold Spec.compareText. rewrite Hx, Hy.
  apply (Order.compareSemVer_fields Hversion); eexists; eassumption.
Qed.

Lemma compareText_refl (a : string) :
  valid_text a -> Spec.compareText a a = 0%Z.
Proof.
  intros (x & Hx). rewrite (compareText_fields _ _ _ _ Hx Hx).
  apply Order.compareFields_refl.
Qed.

(** Between versions without a numeric pre-release identifier at or
    above [MAX_SAFE_INTEGER] the comparison is a total preorder. *)
Lemma compareText_exact (a b : string) (x y : Semver.SemVer) :
  Semver.parse a = Some x -> Semver.parse b = Some y ->
  Spec.safe x = true -> Spec.safe y = true ->
  Spec.compareText a b = Spec.exactFields x y.
Proof.
  intros Hx Hy Sx Sy. rewrite (compareText_fields _ _ _ _ Hx Hy).
  apply Order.compareFields_exact; assumption.
Qed.

Lemma compareText_anti (a b : string) :
  safe_text a -> safe_text b ->
  Spec.compareText b a = (- Spec.compareText a b)%Z.
Proof.
  intros (x & Hx & Sx) (y & Hy & Sy).
  rewrite (compareText_exact _ _ _ _ Hx Hy Sx Sy),
    (compareText_exact _ _ _ _ Hy Hx Sy Sx).
  apply (Spec.cmp_anti _ Order.comparator_fields).
Qed.

Lemma compareText_trans (a b d : string) :
  safe_text a -> safe_text b -> safe_text d ->
  (Spec.compareText a b <= 0)%Z -> (Spec.compareText b d <= 0)%Z ->
  (Spec.compareText a d <= 0)%Z.
Proof.
  intros (x & Hx & Sx) (y & Hy & Sy) (z & Hz & Sz).
  rewrite (compareText_exact _ _ _ _ Hx Hy Sx Sy),
    (compareText_exact _ _ _ _ Hy Hz Sy Sz),
    (compareText_exact _ _ _ _ Hx Hz Sx Sz).
  apply (Order.cmp_le_trans _ Order.comparator_fields).
Qed.

Lemma safe_valid (v : string) : safe_text v -> valid_text v.
Proof. intros (x & Hx & _). exists x. exact Hx. Qed.

Lemma safeVersions_text (versions : list string) (v : string) :
  Spec.safeVersions versions -> In v versions -> valid_text v -> safe_text v.
Proof.
  intros Hsafe Hin (x & Hx). exists x. split; [exact Hx|].
  apply (Hsafe v x Hin Hx).
Qed.

(** Behind the [semver.gt] guard of its callers, the classifier names
    the most significant number that differs, and ["none"] means that the
    two versions differ by their pre-release tags only. *)
Lemma newer_bucket (current v : string) (c x : Semver.SemVer) :
  Semver.parse current = Some c -> Semver.parse v = Some x ->
  Spec.newer current v ->
  let bucket := getUpdateType (Some current) (Some v) in
  (bucket = "major" <-> (Semver.major c < Semver.major x)%N)
  /\ (bucket = "minor" <->
      Semver.major c = Semver.major x /\ (Semver.minor c < Semver.minor x)%N)
  /\ (bucket = "patch" <->
      Semver.major c = Semver.major x /\ Semver.minor c = Semver.minor x /\
      (Semver.patch c < Semver.patch x)%N)
  /\ (bucket = "none" <-> Spec.triple c = Spec.triple x).
Proof.
  intros Hc Hx Hnewer. cbv zeta.
  rewrite (ClassifierFacts.getUpdateType_parsed (Some current) (Some v) c x
             Hempty Hc Hx).
  unfold Spec.newer in Hnewer.
  rewrite (gt_text v current (ex_intro _ x Hx) (ex_intro _ c Hc)) in Hnewer.
  injection Hnewer as Hnewer. apply Z.ltb_lt in Hnewer.
  rewrite (compareText_fields _ _ _ _ Hx Hc) in Hnewer.
  assert (Hmain : (0 < Semver.compareMain x c)%Z
                  \/ Semver.compareMain x c = 0%Z).
  { unfold Spec.compareFields, lor_num in Hnewer.
    destruct (Z.eqb_spec (Semver.compareMain x c) 0); [right|left]; assumption. }
  rewrite Order.compareMain_pos, Order.compareMain_zero in Hmain.
  unfold Spec.triple in *.
  destruct (N.ltb_spec (Semver.major c) (Semver.major x)),
    (N.ltb_spec (Semver.minor c) (Semver.minor x)),
    (N.ltb_spec (Semver.patch c) (Semver.patch x));
    (repeat split; intros; try discriminate; try lia;
     try match goal with
         | Heq : (_, _, _) = (_, _, _) |- _ => injection Heq; intros; lia
         end;
     try (destruct Hmain as [Hmain|Hmain];
          [lia | injection Hmain; intros; (lia || (f_equal; [f_equal|]; lia))])).
Qed.

(** The loop pushes the retained versions, in order. *)
Lemma collectUpdates_retained (current : string) (includeMajor : bool)
  (sortedVersions : list string) :
  valid_text current -> Forall valid_text sortedVersions ->
  collectUpdates current includeMajor sortedVersions
  = Ok (List.map (Spec.updateOf current)
          (filter (Spec.retained current includeMajor) sortedVersions)).
Proof.
  intros Hc Hs. induction Hs as [|v l Hv Hl IH]; [reflexivity|].
  cbn [collectUpdates filter]. rewrite (gt_text v current Hv Hc).
  cbn [JS.bind]. unfold Spec.retained at 1.
  destruct (0 <? Spec.compareText v current)%Z; cbn [negb andb]; [|exact IH].
  destruct ((getUpdateType (Some current) (Some v) =? "major")%string
            && negb includeMajor); cbn [negb]; [exact IH|].
  rewrite IH. reflexivity.
Qed.

(** The versions the loop walks over: the valid ones. *)
Lemma sorted_versions (allVersions : list string) :
  exists sortedVersions,
    sort (fun a b => Semver.compare b a)
      (filter (fun version => truthy (Semver.valid (Some version))) allVersions)
    = Ok sortedVersions
    /\ Forall valid_text sortedVersions
    /\ (forall v, In v sortedVersions <-> In v allVersions /\ valid_text v).
Proof.
  set (candidates := filter _ allVersions).
  assert (Hcand : Forall valid_text candidates).
  { apply Forall_forall. intros v Hv. apply filter_In in Hv as (_ & Hv).
    apply valid_truthy, Hv. }
  assert (Hpure : forall a b, valid_text a -> valid_text b ->
            (fun a b => Semver.compare b a) a b = Ok (Spec.compareText b a)).
  { intros a b Ha Hb. apply compare_text; assumption. }
  destruct (JSFacts.sort_total _ _ _ Hpure candidates Hcand) as (s & Hsort).
  pose proof (JSFacts.sort_perm _ _ _ Hsort) as Hperm.
  exists s. split; [exact Hsort|].
  split; [eapply Permutation_Forall; eauto|].
  intros v. split.
  - intros Hv. apply (Permutation_in _ (Permutation_sym Hperm)) in Hv.
    apply filter_In in Hv as (Hin & Hv). split; [exact Hin|].
    apply valid_truthy, Hv.
  - intros (Hin & Hv). apply (Permutation_in _ Hperm).
    apply filter_In. split; [exact Hin|]. apply valid_truthy, Hv.
Qed.

(** They come newest first when the comparison is consistent on them. *)
Lemma sorted_versions_ordered (allVersions sortedVersions : list string) :
  Spec.safeVersions allVersions ->
  sort (fun a b => Semver.compare b a)
    (filter (fun version => truthy (Semver.valid (Some version))) allVersions)
  = Ok sortedVersions ->
  StronglySorted (fun a b => (Spec.compareText b a <= 0)%Z) sortedVersions.
Proof.
  intros Hsafe Hsort.
  set (candidates := filter _ allVersions) in Hsort.
  assert (Hcand : Forall safe_text candidates).
  { apply Forall_forall. intros v Hv. apply filter_In in Hv as (Hin & Hv).
    apply (safeVersions_text allVersions); [exact Hsafe|exact Hin|].
    apply valid_truthy, Hv. }
  assert (Hpure : forall a b, safe_text a -> safe_text b ->
            (fun a b => Semver.compare b a) a b = Ok (Spec.compareText b a)).
  { intros a b Ha Hb. apply compare_text; apply safe_valid; assumption. }
  eapply (JSFacts.sort_sorted _ _ _ Hpure); [| |exact Hcand|exact Hsort].
  - intros a b Ha Hb. rewrite (compareText_anti b a Hb Ha). lia.
  - intros a b d Ha Hb Hd H1 H2.
    apply (compareText_trans d b a); assumption.
Qed.
(** The outcome of [analyzeAvailableUpdates] for a current version that
    parses. *)
Lemma analyzeAvailableUpdates_retained (currentRange : Parser.VersionRangeInfo)
  (current : string) (allVersions : list string) (includeMajor : bool) :
  Parser.clean currentRange = Some current -> valid_text current ->
  exists sortedVersions,
    sort (fun a b => Semver.compare b a)
      (filter (fun version => truthy (Semver.valid (Some version))) allVersions)
    = Ok sortedVersions
    /\ analyzeAvailableUpdates currentRange allVersions includeMajor
       = Ok (List.map (Spec.updateOf current)
               (filter (Spec.retained current includeMajor) sortedVersions))
    /\ (forall v, In v sortedVersions <-> In v allVersions /\ valid_text v).
Proof.
  intros Hclean Hc. unfold analyzeAvailableUpdates. rewrite Hclean.
  assert (Htruthy : truthy (Some current) = true).
  { destruct Hc as (x & Hx). apply JSFacts.truthy_some. intros ->.
    unfold Semver.parse_empty in Hempty. congruence. }
  rewrite Htruthy. cbn [negb].
  destruct (sorted_versions allVersions)
    as (sortedVersions & Hsort & Hvalid & Hmem).
  rewrite Hsort. cbn [JS.bind].
  rewrite (collectUpdates_retained _ _ _ Hc Hvalid).
  exists sortedVersions. auto.
Qed.

(** Every bucket that holds a published version is served: patch and
    minor always, major with the include-major option. *)
Lemma recommendations_complete (dependency : Parser.dependency)
  (allVersions : list string) (opts : options) (current bucket v : string) :
  Parser.clean (Parser.depRange dependency) = Some current ->
  valid_text current ->
  In v allVersions -> Spec.inBucket current bucket v ->
  In bucket Spec.buckets ->
  (bucket = "major" -> optMajor opts = true) ->
  exists recs r,
    Spec.recommendationsFor dependency allVersions opts = Ok recs
    /\ In r recs /\ type r = bucket.
Proof.
  intros Hclean Hc Hin (Hnewer & Htype) Hbucket Hmajor.
  unfold Spec.recommendationsFor.
  destruct (analyzeAvailableUpdates_retained _ _ allVersions (optMajor opts)
              Hclean Hc) as (sortedVersions & _ & -> & Hmem).
  cbn [JS.bind].
  set (updates := List.map (Spec.updateOf current) _).
  destruct (of_type bucket updates) as [|u rest] eqn:Hhead.
  - exfalso. unfold Spec.newer in Hnewer.
    destruct (gt_valid _ _ _ Hnewer) as (Hv & _).
    rewrite (gt_text v current Hv Hc) in Hnewer. injection Hnewer as Hnewer.
    assert (Hu : In (Spec.updateOf current v) (of_type bucket updates)).
    { unfold of_type, updates. apply filter_In. split.
      - apply in_map, filter_In. split; [apply Hmem; auto|].
        unfold Spec.retained. rewrite Hnewer, Htype. cbn [andb].
        destruct (String.eqb_spec bucket "major") as [E|E]; [|reflexivity].
        rewrite (Hmajor E). reflexivity.
      - cbn [Spec.updateOf updType]. rewrite Htype. apply String.eqb_refl. }
    rewrite Hhead in Hu. destruct Hu.
  - destruct (recommendation_emitted dependency updates opts bucket u rest
                Hhead Hbucket Hmajor) as (r & Hr & Ht & _).
    eauto.
Qed.
End WithLibrary.

End UpdateFacts.

Section RecommenderClaim.
Context {L : Semver.Library}.


End RecommenderClaim.

(** ** Runs on sample inputs *)

Section Runs.

#[local] Existing Instance SemverRef.library.
Import Examples.

(** Scenario: [lodash] at 4.17.20 with 4.17.21 published. *)
Example scenario_patch :
  Spec.recommendationsFor lodash ["4.17.20"; "4.17.21"] withoutMajor
  = Ok [ {| UpdateCmd.type := "patch"; UpdateCmd.version := "4.17.21";
            UpdateCmd.priority := "high";
            UpdateCmd.reason := "Safe bug fixes and improvements";
            UpdateCmd.breaking := false |} ].
Proof. reflexivity. Qed.

(** Scenario: a major update is classified but not recommended without
    the include-major option. *)
Example scenario_major_suppressed :
  CheckCmd.getUpdateType (Some "17.0.2") (Some "18.2.0") = "major"
  /\ Spec.recommendationsFor (declared "react" "17.0.2")
       ["17.0.2"; "18.2.0"] withoutMajor = Ok [].
Proof. split; reflexivity. Qed.

(** Scenario: a caret range. *)
Example scenario_range :
  exists info,
    Parser.parseVersionRange "^1.2.0" = Ok info
    /\ Parser.isExact info = false /\ Parser.isRange info = true
    /\ Parser.major info = None /\ Parser.minor info = None
    /\ Parser.patch info = None.
Proof. eexists. repeat split. Qed.

(** Scenario: threshold high over moderate, high, critical findings. *)
Example scenario_audit :
  option_map (List.map (fun f => Registry.severity (AuditCmd.vuln f)))
    (match AuditCmd.auditListing database dependencies "high" with
     | Ok l => Some l
     | Throw _ => None
     end)
  = Some ["critical"; "high"; "high"].
Proof. reflexivity. Qed.

(** A newer version that differs only by its pre-release tag falls in
    no bucket. *)
Example prerelease_to_release :
  Semver.gt "1.2.3" "1.2.3-alpha" = Ok true
  /\ UpdateCmd.getUpdateType (Some "1.2.3-alpha") (Some "1.2.3") = "none".
Proof. split; reflexivity. Qed.

Lemma getUpdateType_classifies_witness :
  Semver.parse_empty SemverRef.library
  /\ UpdateCmd.getUpdateType (Some "4.17.20") (Some "4.17.21") = "patch"
  /\ CheckCmd.getUpdateType (Some "4.17.20") (Some "4.17.21") = "patch"
  /\ UpdateCmd.getUpdateType (Some "not a version") (Some "4.17.21") = "unknown".
Proof.
  split; [exact SemverRefFacts.parse_empty_ref|].
  destruct (getUpdateType_classifies (Some "4.17.20") (Some "4.17.21")
              SemverRefFacts.parse_empty_ref) as (_ & H).
  destruct (H _ _ eq_refl eq_refl) as (Hu & Hc).
  destruct (getUpdateType_classifies (Some "not a version") (Some "4.17.21")
              SemverRefFacts.parse_empty_ref) as (H' & _).
  destruct (H' (or_introl eq_refl)) as (Hu' & _).
  repeat split; assumption.
Defined.

Lemma parseVersionRange_flags_witness :
  Semver.parse_empty SemverRef.library
  /\ Semver.parse_version SemverRef.library
  /\ Parser.parseVersionRange "^17.0.2" = Ok (Parser.depRange react)
  /\ (Parser.isExact (Parser.depRange react)
      && Parser.isRange (Parser.depRange react) = false)
  /\ (Parser.isExact (Parser.depRange react) = true
      <-> Parser.clean (Parser.depRange react) <> None).
Proof.
  split; [exact SemverRefFacts.parse_empty_ref|].
  split; [exact SemverRefFacts.parse_version_ref|].
  split; [reflexivity|].
  destruct (parseVersionRange_flags "^17.0.2" (Parser.depRange react)
              SemverRefFacts.parse_empty_ref SemverRefFacts.parse_version_ref
              eq_refl) as (H1 & _ & H3 & _).
  split; assumption.
Defined.

Lemma parseVersionRange_never_throws_witness :
  Semver.parse_version SemverRef.library
  /\ exists info,
      Parser.parseVersionRange "not a version" = Ok info
      /\ (forall version', version' = "not a version" ->
            Parser.parseVersionRange version' = Ok info)
      /\ (Semver.valid (Semver.clean "not a version") = None ->
          Semver.validRange "not a version" = None ->
          Parser.isExact info = false /\ Parser.isRange info = false /\
          Parser.major info = None /\ Parser.minor info = None /\
          Parser.patch info = None).
Proof.
  split; [exact SemverRefFacts.parse_version_ref|].
  exact (parseVersionRange_never_throws "not a version"
           SemverRefFacts.parse_version_ref).
Defined.

(** C6, as stated, fails: from 1.5.0 to 2.0.0 is a major update, yet
    the reversed direction is classified as a minor update, not as
    ["none"]. *)
Lemma getUpdateType_not_antisymmetric :
  UpdateCmd.getUpdateType (Some "1.5.0") (Some "2.0.0") = "major"
  /\ UpdateCmd.getUpdateType (Some "2.0.0") (Some "1.5.0") = "minor"
  /\ ~ (In (UpdateCmd.getUpdateType (Some "1.5.0") (Some "2.0.0")) Spec.buckets ->
        UpdateCmd.getUpdateType (Some "2.0.0") (Some "1.5.0") = "none").
Proof.
  split; [reflexivity|]. split; [reflexivity|].
  intros H.
  assert (Hin : In (UpdateCmd.getUpdateType (Some "1.5.0") (Some "2.0.0"))
                   Spec.buckets) by (simpl; tauto).
  specialize (H Hin). discriminate H.
Qed.

Lemma getUpdateType_reversed_witness :
  Semver.parse_empty SemverRef.library
  /\ Semver.parse "1.5.0"
     = Some (Semver.mkSemVer "1.5.0" 1 5 0 [])
  /\ Semver.parse "1.6.2"
     = Some (Semver.mkSemVer "1.6.2" 1 6 2 [])
  /\ UpdateCmd.getUpdateType (Some "1.5.0") (Some "1.6.2") <> "unknown"
  /\ UpdateCmd.getUpdateType (Some "1.6.2") (Some "1.5.0") = "none".
Proof.
  split; [exact SemverRefFacts.parse_empty_ref|].
  split; [reflexivity|]. split; [reflexivity|].
  destruct (getUpdateType_reversed "1.5.0" "1.6.2" _ _
              SemverRefFacts.parse_empty_ref eq_refl eq_refl)
    as (H1 & _ & _ & _ & H5).
  split; [exact H1|].
  apply H5; [simpl; tauto| | |]; cbn; lia.
Defined.

Lemma summary_partition_witness :
  map_get "lodash" dependencies = Some lodash
  /\ Spec.lookupFailed (rejected "Package 'lodash' not found") = true
  /\ (exists r,
        CheckCmd.checkDependency dependencies "lodash"
          (rejected "Package 'lodash' not found") = Ok r
        /\ CheckCmd.updateAvailable r = false
        /\ CheckCmd.upToDate (CheckCmd.generateReport [r]) = 1
        /\ CheckCmd.outdated (CheckCmd.generateReport [r]) = 0)
  /\ (exists r,
        UpdateCmd.recommend "lodash" lodash
          (fulfilled None) (fulfilled ["4.17.21"]) withMajor = Ok r
        /\ UpdateCmd.recommendations r = []
        /\ UpdateCmd.upToDate (UpdateCmd.generateUpdateReport [r]) = 1
        /\ UpdateCmd.hasUpdates (UpdateCmd.generateUpdateReport [r]) = 0).
Proof.
  split; [reflexivity|]. split; [reflexivity|].
  destruct (summary_partition (L := SemverRef.library)) as (_ & _ & Hc & Hu).
  split.
  - destruct (Hc dependencies "lodash" lodash
                (rejected "Package 'lodash' not found") eq_refl eq_refl)
      as (r & Hr & Ha & Hrest).
    exists r. split; [exact Hr|]. split; [exact Ha|].
    destruct (Hrest []) as (H1 & H2). split; assumption.
  - destruct (Hu "lodash" lodash (fulfilled None) (fulfilled ["4.17.21"])
                withMajor eq_refl)
      as (r & Hr & Ha & Hrest).
    exists r. split; [exact Hr|]. split; [exact Ha|].
    destruct (Hrest []) as (H1 & H2). split; assumption.
Defined.

Lemma check_without_exact_version_witness :
  map_get "react" dependencies = Some react
  /\ Parser.clean (Parser.depRange react) = None
  /\ "18.2.0" <> ""
  /\ Semver.gt "18.2.0" "0.0.0" = Ok true
  /\ exists r,
      CheckCmd.checkDependency dependencies "react" (fulfilled (Some "18.2.0"))
      = Ok r
      /\ CheckCmd.updateAvailable r = true
      /\ CheckCmd.updateType r = Some "unknown"
      /\ CheckCmd.outdated (CheckCmd.generateReport [r]) = 1.
Proof.
  split; [reflexivity|]. split; [reflexivity|].
  split; [discriminate|]. split; [reflexivity|].
  destruct (check_without_exact_version dependencies "react" react "18.2.0"
              true eq_refl eq_refl ltac:(discriminate) eq_refl)
    as (r & Hr & _ & Ha & Hrest).
  destruct (Hrest eq_refl) as (Ht & Hcount).
  exists r. repeat split; try assumption.
  apply (Hcount []).
Defined.

Lemma extractDependencies_last_write_wins_witness :
  Semver.parse_version SemverRef.library
  /\ Parser.dependencyTypes
     = ["dependencies"] ++ "devDependencies"
         :: ["peerDependencies"; "optionalDependencies"]
  /\ Spec.declaredIn packageJson "dependencies" "lodash"
  /\ Spec.declaredIn packageJson "devDependencies" "lodash"
  /\ (forall t, In t ["peerDependencies"; "optionalDependencies"] ->
        ~ Spec.declaredIn packageJson t "lodash")
  /\ exists m,
      Parser.extractDependencies packageJson = Ok m
      /\ NoDup (map_keys m)
      /\ count_occ string_dec (map_keys m) "lodash" = 1
      /\ exists info,
          map_get "lodash" m
          = Some {| Parser.name := "lodash"; Parser.version := "4.17.21";
                    Parser.type := "devDependencies";
                    Parser.depRange := info |}.
Proof.
  assert (Hafter : forall t, In t ["peerDependencies"; "optionalDependencies"] ->
                     ~ Spec.declaredIn packageJson t "lodash").
  { intros t [<-|[<-|[]]] H; exact H. }
  split; [exact SemverRefFacts.parse_version_ref|].
  split; [reflexivity|].
  split; [left; reflexivity|].
  split; [left; reflexivity|].
  split; [exact Hafter|].
  destruct (extractDependencies_last_write_wins packageJson
              SemverRefFacts.parse_version_ref) as (m & Hm & Hnd & Hlast).
  destruct (Hlast ["dependencies"] "devDependencies"
              ["peerDependencies"; "optionalDependencies"] "lodash"
              eq_refl (or_introl eq_refl) Hafter)
    as (Hcount & version & info & Hversion & _ & Hget).
  exists m. split; [exact Hm|]. split; [exact Hnd|]. split; [exact Hcount|].
  exists info. injection Hversion as <-. exact Hget.
Defined.




End Runs.

(** * Further properties *)

(** ** parser.js: the shape of the extracted map *)

Module KeyFacts.

Import Parser Terms.

Lemma mem_In (x : string) (l : list string) : mem x l = true <-> In x l.
Proof.
  unfold mem. rewrite existsb_exists. split.
  - intros (y & Hy & E). apply String.eqb_eq in E. subst. exact Hy.
  - intros H. exists x. split; [exact H|apply String.eqb_refl].
Qed.

Lemma map_keys_set {V} (k : string) (v : V) (m : Map V) :
  map_keys (map_set k v m) = addKey (map_keys m) k.
Proof.
  unfold addKey, mem. induction m as [|[k0 v0] m IH]; simpl; [reflexivity|].
  rewrite (String.eqb_sym k k0).
  destruct (String.eqb_spec k0 k) as [E|E]; simpl.
  - subst. reflexivity.
  - unfold map_keys in *. rewrite IH.
    destruct (existsb (String.eqb k) (List.map fst m)); reflexivity.
Qed.

Lemma filter_comm {A} (p q : A -> bool) (l : list A) :
  filter p (filter q l) = filter q (filter p l).
Proof.
  induction l as [|x l IH]; simpl; [reflexivity|].
  destruct (p x) eqn:Hp, (q x) eqn:Hq; simpl; rewrite ?Hp, ?Hq, IH; reflexivity.
Qed.

Lemma filter_id {A} (p : A -> bool) (l : list A) :
  (forall x, In x l -> p x = true) -> filter p l = l.
Proof.
  induction l as [|x l IH]; simpl; intros H; [reflexivity|].
  rewrite (H x (or_introl eq_refl)), IH; auto.
Qed.

Lemma keepFirst_filter (p : string -> bool) (l : list string) :
  keepFirst (filter p l) = filter p (keepFirst l).
Proof.
  induction l as [|x l IH]; simpl; [reflexivity|].
  destruct (p x) eqn:Hp; simpl.
  - rewrite IH. f_equal. apply filter_comm.
  - rewrite IH, filter_comm. symmetry. apply filter_id.
    intros y Hy. apply filter_In in Hy as (_ & Hy).
    destruct (String.eqb_spec y x) as [->|]; [congruence|reflexivity].
Qed.

Lemma fold_addKey (names keys : list string) :
  fold_left addKey names keys
  = keys ++ keepFirst (filter (fun n => negb (mem n keys)) names).
Proof.
  revert keys. induction names as [|n names IH]; intros keys; simpl.
  - symmetry. apply List.app_nil_r.
  - unfold addKey at 2. destruct (mem n keys) eqn:Hn; simpl; [apply IH|].
    rewrite IH, <- List.app_assoc. simpl. do 2 f_equal.
    rewrite <- keepFirst_filter, UpdateFacts.filter_filter.
    f_equal. apply filter_ext. intros y.
    unfold mem. rewrite existsb_app. simpl. rewrite orb_false_r.
    rewrite negb_orb. reflexivity.
Qed.

Lemma keepFirst_NoDup (l : list string) : NoDup (keepFirst l).
Proof.
  induction l as [|x l IH]; simpl; constructor.
  - intros H. apply filter_In in H as (_ & H).
    rewrite String.eqb_refl in H. discriminate.
  - apply NoDup_filter, IH.
Qed.

Lemma keepFirst_In (x : string) (l : list string) :
  In x (keepFirst l) <-> In x l.
Proof.
  induction l as [|y l IH]; simpl; [tauto|].
  rewrite filter_In, IH.
  destruct (String.eqb_spec x y) as [->|E]; simpl; [tauto|].
  split; intros [H|H]; try tauto.
Qed.

Lemma In_map_set {V} (k k' : string) (v v' : V) (m : Map V) :
  In (k, v) (map_set k' v' m) -> (k = k' /\ v = v') \/ In (k, v) m.
Proof.
  induction m as [|[k0 v0] m IH]; simpl.
  - intros [E|[]]. injection E as <- <-. tauto.
  - destruct (String.eqb_spec k0 k'); simpl.
    + intros [E|H]; [injection E as <- <-|]; tauto.
    + intros [E|H]; [tauto|]. destruct (IH H); tauto.
Qed.

Lemma map_get_key {V} (k : string) (m : Map V) :
  In k (map_keys m) -> exists v, map_get k m = Some v /\ In (k, v) m.
Proof.
  induction m as [|[k0 v0] m IH]; simpl; [tauto|].
  destruct (String.eqb_spec k0 k) as [->|E].
  - intros _. eauto.
  - intros [H|H]; [contradiction|].
    destruct (IH H) as (v & Hv & Hin). eauto.
Qed.

Section WithLibrary.
Context {L : Semver.Library}.

Lemma setEntries_keys (depType : string) (es : list (string * string))
  (m0 m : Map dependency) :
  setEntries depType es m0 = Ok m ->
  map_keys m = fold_left addKey (List.map fst es) (map_keys m0).
Proof.
  revert m0. induction es as [|[k v] es IH]; simpl; intros m0 H.
  - injection H as <-. reflexivity.
  - apply JSFacts.bind_ok in H as (info & _ & H).
    rewrite (IH _ H), map_keys_set. reflexivity.
Qed.

Lemma extractSections_keys (packageJson : manifest) (types : list string)
  (m0 m : Map dependency) :
  extractSections packageJson types m0 = Ok m ->
  map_keys m
  = fold_left addKey
      (flat_map (fun t => List.map fst (Spec.sectionEntries packageJson t)) types)
      (map_keys m0).
Proof.
  revert m0. induction types as [|t types IH]; intros m0 H.
  - simpl in H. injection H as <-. reflexivity.
  - rewrite ExtractFacts.extractSections_step in H.
    apply JSFacts.bind_ok in H as (d & Hd & H).
    simpl flat_map. rewrite fold_left_app, (IH _ H).
    rewrite (setEntries_keys _ _ _ _ Hd). reflexivity.
Qed.

Lemma setEntries_extracted (packageJson : manifest) (depType : string)
  (es : list (string * string)) (m0 m : Map dependency) :
  In depType dependencyTypes ->
  incl es (Spec.sectionEntries packageJson depType) ->
  setEntries depType es m0 = Ok m ->
  extracted packageJson m0 -> extracted packageJson m.
Proof.
  intros Ht. revert m0. induction es as [|[k v] es IH]; simpl; intros m0 Hes H Hm0.
  - injection H as <-. exact Hm0.
  - apply JSFacts.bind_ok in H as (info & Hinfo & H).
    apply (IH _ (fun x Hx => Hes x (or_intror Hx)) H).
    intros k' d Hin. apply In_map_set in Hin as [(-> & ->)|Hin].
    + simpl. repeat split; auto. apply Hes. left. reflexivity.
    + apply Hm0, Hin.
Qed.

Lemma extractSections_extracted (packageJson : manifest) (types : list string)
  (m0 m : Map dependency) :
  incl types dependencyTypes ->
  extractSections packageJson types m0 = Ok m ->
  extracted packageJson m0 -> extracted packageJson m.
Proof.
  revert m0. induction types as [|t types IH]; intros m0 Hincl H Hm0.
  - simpl in H. injection H as <-. exact Hm0.
  - rewrite ExtractFacts.extractSections_step in H.
    apply JSFacts.bind_ok in H as (d & Hd & H).
    apply (IH _ (fun x Hx => Hincl x (or_intror Hx)) H).
    eapply setEntries_extracted; eauto.
    + apply Hincl. left. reflexivity.
    + apply incl_refl.
Qed.

Lemma extractDependencies_extracted (packageJson : manifest)
  (m : Map dependency) :
  extractDependencies packageJson = Ok m -> extracted packageJson m.
Proof.
  intros H. eapply extractSections_extracted; [apply incl_refl|exact H|].
  intros k d [].
Qed.

Lemma extractDependencies_keys (packageJson : manifest) (m : Map dependency) :
  extractDependencies packageJson = Ok m ->
  map_keys m = keepFirst (declaredNames packageJson).
Proof.
  intros H. unfold extractDependencies in H.
  rewrite (extractSections_keys _ _ _ _ H), fold_addKey.
  change (map_keys (@nil (string * dependency))) with (@nil string).
  cbn [app]. unfold declaredNames. f_equal.
  apply filter_id. intros; reflexivity.
Qed.

Lemma extracted_analyzed (packageJson : manifest) (m : Map dependency) :
  extracted packageJson m -> analyzed m.
Proof. intros H k d Hin. apply (H k d Hin). Qed.
End WithLibrary.

End KeyFacts.

Module StatsFacts.

Import Stats Terms.

Lemma sumValues_set (k : string) (m : Map nat) :
  sumValues (map_set k (countOf k m + 1) m) = sumValues m + 1.
Proof.
  unfold countOf. induction m as [|[k0 n0] m IH]; simpl; [reflexivity|].
  destruct (String.eqb_spec k0 k); simpl; [lia|].
  rewrite IH. lia.
Qed.

Lemma countDependency_counts (s : stats) (dep : Parser.dependency) :
  let s' := countDependency s dep in
  total s' = total s
  /\ exactVersions s' + rangeVersions s' + invalidVersions s'
     = exactVersions s + rangeVersions s + invalidVersions s + 1
  /\ sumValues (byType s') = sumValues (byType s) + 1
  /\ map_keys (byType s') = addKey (map_keys (byType s)) (Parser.type dep).
Proof.
  cbv zeta. unfold countDependency.
  destruct (Parser.isExact (Parser.depRange dep));
    [|destruct (Parser.isRange (Parser.depRange dep))]; simpl;
    rewrite sumValues_set, KeyFacts.map_keys_set; repeat split; lia.
Qed.

Lemma fold_counts (deps : list Parser.dependency) (s : stats) :
  let s' := fold_left countDependency deps s in
  total s' = total s
  /\ exactVersions s' + rangeVersions s' + invalidVersions s'
     = exactVersions s + rangeVersions s + invalidVersions s + List.length deps
  /\ sumValues (byType s') = sumValues (byType s) + List.length deps
  /\ map_keys (byType s')
     = fold_left addKey (List.map Parser.type deps) (map_keys (byType s)).
Proof.
  cbv zeta. revert s. induction deps as [|d deps IH]; intros s; simpl.
  - repeat split; lia.
  - destruct (IH (countDependency s d)) as (H1 & H2 & H3 & H4).
    destruct (countDependency_counts s d) as (G1 & G2 & G3 & G4).
    cbv zeta in *. rewrite H1, H2, H3, H4, G1, G2, G3, G4.
    repeat split; lia.
Qed.

End StatsFacts.

Section ExtractorProperties.
Context {L : Semver.Library}.


(** X2. Every record of the extracted map is filed under its own name,
    comes from one of the four sections, repeats a version specifier
    written for that name in that section, and carries the analysis of
    that specifier. *)
Theorem extractDependencies_records (packageJson : Parser.manifest)
  (m : Map Parser.dependency)
  (Hm : Parser.extractDependencies packageJson = Ok m) :
  forall k d, In (k, d) m ->
    Parser.name d = k
    /\ In (Parser.type d) Parser.dependencyTypes
    /\ In (k, Parser.version d)
          (Spec.sectionEntries packageJson (Parser.type d))
    /\ Parser.parseVersionRange (Parser.version d) = Ok (Parser.depRange d).
Proof. exact (KeyFacts.extractDependencies_extracted packageJson m Hm). Qed.

(** X3. In the statistics of a manifest the three version counters add
    up to the total, the per-section counters add up to the total, every
    counted section is one of the four, and the total is the number of
    distinct declared names. *)
Theorem getDependencyStats_totals (packageJson : Parser.manifest)
  (s : Stats.stats)
  (Hs : Stats.getDependencyStats packageJson = Ok s) :
  Stats.exactVersions s + Stats.rangeVersions s + Stats.invalidVersions s
  = Stats.total s
  /\ Terms.sumValues (Stats.byType s) = Stats.total s
  /\ Stats.total s
     = List.length (Terms.keepFirst (Terms.declaredNames packageJson))
  /\ (forall depType, In depType (map_keys (Stats.byType s)) ->
                      In depType Parser.dependencyTypes).
Proof.
  unfold Stats.getDependencyStats in Hs.
  apply JSFacts.bind_ok in Hs as (m & Hm & Hs). injection Hs as <-.
  destruct (StatsFacts.fold_counts (List.map snd m)
              {| Stats.total := map_size m; Stats.byType := [];
                 Stats.exactVersions := 0; Stats.rangeVersions := 0;
                 Stats.invalidVersions := 0 |}) as (H1 & H2 & H3 & H4).
  cbv zeta in *. simpl in H1, H2, H3, H4.
  rewrite List.length_map in H2, H3. unfold map_size in *.
  rewrite H1, H2, H3. repeat split.
  - rewrite <- (KeyFacts.extractDependencies_keys _ _ Hm).
    unfold map_keys. symmetry. apply List.length_map.
  - intros depType Hin. rewrite H4, KeyFacts.fold_addKey in Hin.
    simpl in Hin. apply (proj1 (KeyFacts.keepFirst_In _ _)) in Hin.
    apply filter_In in Hin as (Hin & _).
    apply in_map_iff in Hin as (d & <- & Hd).
    apply in_map_iff in Hd as ([k d'] & <- & Hd).
    apply (KeyFacts.extractDependencies_extracted _ _ Hm k d' Hd).
Qed.

End ExtractorProperties.

(** ** check.js: the per-dependency check and its report *)

Module CheckFacts.

Import CheckCmd Terms.

Lemma mapM_ok {A B} (f : A -> result B) (l : list A) :
  (forall x, In x l -> exists y, f x = Ok y) -> exists ys, mapM f l = Ok ys.
Proof.
  induction l as [|x l IH]; simpl; intros H; [eauto|].
  destruct (H x (or_introl eq_refl)) as (y & ->).
  destruct IH as (ys & ->); [intros; apply H; right; assumption|].
  simpl. eauto.
Qed.

Lemma mapM_forall2 {A B} (f : A -> result B) (l : list A) (ys : list B) :
  mapM f l = Ok ys -> Forall2 (fun x y => f x = Ok y) l ys.
Proof.
  revert ys. induction l as [|x l IH]; simpl; intros ys H.
  - injection H as <-. constructor.
  - apply JSFacts.bind_ok in H as (y & Hy & H).
    apply JSFacts.bind_ok in H as (ys' & Hys & H). injection H as <-.
    constructor; auto.
Qed.

Lemma mapM_throw {A B} (f : A -> result B) (l : list A) (x : A) (e : error) :
  In x l -> f x = Throw e -> exists e', mapM f l = Throw e'.
Proof.
  induction l as [|y l IH]; simpl; intros Hin Hx; [destruct Hin|].
  destruct (f y) as [b|e0] eqn:Hy; simpl; [|eauto].
  destruct Hin as [->|Hin]; [congruence|].
  destruct (IH Hin Hx) as (e' & ->). simpl. eauto.
Qed.

Lemma combine_map {A B} (g : A -> B) (l : list A) :
  List.combine l (List.map g l) = List.map (fun x => (x, g x)) l.
Proof. induction l as [|x l IH]; simpl; [|rewrite IH]; reflexivity. Qed.

Section WithLibrary.
Context {L : Semver.Library}.

(** What every result of [checkDependency] looks like. *)
Lemma checkDependency_shape (dependencies : Map Parser.dependency)
  (packageName : string) (lookup : settled (option string)) (r : checkResult) :
  checkDependency dependencies packageName lookup = Ok r ->
  name r = packageName
  /\ vulnerabilities r = []
  /\ (updateAvailable r = false -> updateType r = None)
  /\ (latestVersion r = None -> updateAvailable r = false).
Proof.
  unfold checkDependency.
  destruct (map_get packageName dependencies) as [d|]; [|discriminate].
  intros H. apply JSFacts.bind_ok in H as ([[latest available] kind] & Hupd & H).
  injection H as <-. cbn.
  assert (Hv : match Parser.clean (Parser.depRange d) with
               | Some c =>
                   if truthy (Parser.clean (Parser.depRange d))
                   then Registry.getVulnerabilities packageName c
                   else []
               | None => []
               end = []).
  { destruct (Parser.clean (Parser.depRange d)); [|reflexivity].
    destruct (truthy _); reflexivity. }
  rewrite Hv. split; [reflexivity|]. split; [reflexivity|].
  destruct lookup as [[value|]|reason];
    try (injection Hupd as <- <- <-; split; [reflexivity|reflexivity]).
  destruct (truthy (Some value));
    [|injection Hupd as <- <- <-; split; reflexivity].
  apply JSFacts.bind_ok in Hupd as (b & _ & Hupd).
  injection Hupd as <- <- <-.
  split; [intros ->; reflexivity|discriminate].
Qed.

(** The baseline of the comparison is the text of a version. *)
Lemma baseline_valid (d : Parser.dependency) :
  Semver.parse_version L -> Semver.parse_zero L ->
  Parser.parseVersionRange (Parser.version d) = Ok (Parser.depRange d) ->
  validText (or_else (Parser.clean (Parser.depRange d)) "0.0.0").
Proof.
  intros Hversion (z & Hz & _) Hd.
  rewrite (ParserFacts.parseVersionRange_clean _ _ Hd).
  unfold Semver.clean.
  destruct (Semver.parse (Semver.stripEqV (trim (Parser.version d))))
    as [x|] eqn:Hx; simpl; [|exists z; exact Hz].
  destruct (Semver.version x =? "")%string; [exists z; exact Hz|].
  exists x. apply (Hversion _ _ Hx).
Qed.

Lemma checkDependency_ok (dependencies : Map Parser.dependency)
  (packageName : string) (d : Parser.dependency)
  (lookup : settled (option string)) :
  map_get packageName dependencies = Some d ->
  validText (or_else (Parser.clean (Parser.depRange d)) "0.0.0") ->
  usable lookup ->
  exists r, checkDependency dependencies packageName lookup = Ok r.
Proof.
  intros Hget (b & Hb) Hlookup. unfold checkDependency. rewrite Hget.
  destruct lookup as [[value|]|reason]; simpl; eauto.
  destruct (String.eqb_spec value ""); simpl; [eauto|].
  destruct Hlookup as [?|(x & Hx)]; [contradiction|].
  unfold Semver.gt, Semver.compare, Semver.newSemVer. rewrite Hx, Hb.
  simpl. eauto.
Qed.

Lemma checkDependency_throws (dependencies : Map Parser.dependency)
  (packageName : string) (d : Parser.dependency) (value : string) :
  map_get packageName dependencies = Some d ->
  value <> "" -> Semver.parse value = None ->
  exists e,
    checkDependency dependencies packageName (fulfilled (Some value)) = Throw e.
Proof.
  intros Hget Hne Hparse. unfold checkDependency. rewrite Hget.
  rewrite (proj2 (JSFacts.truthy_some value) Hne).
  unfold Semver.gt, Semver.compare, Semver.newSemVer. rewrite Hparse.
  simpl. eauto.
Qed.

(** A result adds to at most one of the three bucket counters, and only
    when it adds to [outdated]. *)
Lemma bucket_counters (results : list checkResult) :
  Forall (fun r => updateAvailable r = false -> updateType r = None) results ->
  majorUpdates (generateReport results) + minorUpdates (generateReport results)
  + patchUpdates (generateReport results)
  <= outdated (generateReport results).
Proof.
  unfold generateReport. cbn.
  induction 1 as [|r results Hr _ IH]; simpl; [lia|].
  destruct (updateAvailable r).
  - destruct (updateType r) as [t|]; simpl; [|lia].
    destruct (String.eqb_spec t "major") as [->|]; simpl; [lia|].
    destruct (String.eqb_spec t "minor") as [->|]; simpl; [lia|].
    destruct (String.eqb_spec t "patch") as [->|]; simpl; lia.
  - rewrite (Hr eq_refl). simpl. exact IH.
Qed.

Lemma no_vulnerabilities (results : list checkResult) (n : nat) :
  Forall (fun r => vulnerabilities r = []) results ->
  fold_left (fun sum r => sum + List.length (vulnerabilities r)) results n = n.
Proof.
  intros H. revert n. induction H as [|r results Hr _ IH]; intros n; simpl.
  - reflexivity.
  - rewrite Hr. simpl. rewrite Nat.add_0_r. apply IH.
Qed.
End WithLibrary.

End CheckFacts.

Section CheckProperties.
Context {L : Semver.Library} {R : Registry.Service}.

(** X4. When every record carries the analysis of its specifier and
    every registry lookup either failed or produced the text of a version,
    [checkDependencies] returns one result per dependency, in the order of
    the keys of the map. *)
Theorem checkDependencies_one_result_each
  (dependencies : Map Parser.dependency)
  (Hversion : Semver.parse_version L) (Hzero : Semver.parse_zero L)
  (Hdeps : Terms.analyzed dependencies)
  (Hlookups : forall k, In k (map_keys dependencies) ->
                        Terms.usable (Registry.getLatestVersion k)) :
  exists results,
    CheckCmd.checkDependencies dependencies = Ok results
    /\ List.map CheckCmd.name results = map_keys dependencies.
Proof.
  unfold CheckCmd.checkDependencies. rewrite CheckFacts.combine_map.
  destruct (CheckFacts.mapM_ok
              (fun '(packageName, latestVersionResult) =>
                 CheckCmd.checkDependency dependencies packageName
                   latestVersionResult)
              (List.map (fun x => (x, Registry.getLatestVersion x))
                        (map_keys dependencies))) as (results & Hres).
  { intros [k lookup] Hin. apply in_map_iff in Hin as (k' & E & Hk).
    injection E as <- <-.
    destruct (KeyFacts.map_get_key _ _ Hk) as (d & Hget & Hd).
    apply (CheckFacts.checkDependency_ok _ _ d); auto.
    apply CheckFacts.baseline_valid; auto. apply (Hdeps _ _ Hd). }
  exists results. split; [exact Hres|].
  apply CheckFacts.mapM_forall2 in Hres. clear Hlookups.
  remember (map_keys dependencies) as keys eqn:E. clear E.
  revert results Hres. induction keys as [|k keys IH]; intros results Hres;
    inversion Hres as [|? r ? rs Hr Hrs]; subst; simpl; [reflexivity|].
  f_equal; [|apply IH, Hrs].
  apply (CheckFacts.checkDependency_shape _ _ _ _ Hr).
Qed.

(** X5. A single lookup that is fulfilled with a non-empty text that is
    not a version makes [checkDependencies] throw: no result is returned
    for any dependency. *)
Theorem checkDependencies_aborts_on_invalid_latest
  (dependencies : Map Parser.dependency) (packageName value : string)
  (Hkey : In packageName (map_keys dependencies))
  (Hlookup : Registry.getLatestVersion packageName = fulfilled (Some value))
  (Hnonempty : value <> "")
  (Hinvalid : Semver.parse value = None) :
  exists e, CheckCmd.checkDependencies dependencies = Throw e.
Proof.
  unfold CheckCmd.checkDependencies. rewrite CheckFacts.combine_map.
  destruct (KeyFacts.map_get_key _ _ Hkey) as (d & Hget & _).
  destruct (CheckFacts.checkDependency_throws _ _ d value Hget Hnonempty Hinvalid)
    as (e & He).
  apply (CheckFacts.mapM_throw _ _ (packageName, fulfilled (Some value)) e).
  - apply in_map_iff. exists packageName. rewrite Hlookup. auto.
  - exact He.
Qed.

(** X7. In the report built from the results of [checkDependencies] the
    total is the number of dependencies, the counters of major, minor and
    patch updates together never exceed [outdated], and the vulnerability
    counter is zero. *)
Theorem check_report_counters (dependencies : Map Parser.dependency)
  (results : list CheckCmd.checkResult)
  (Hresults : CheckCmd.checkDependencies dependencies = Ok results) :
  let summary := CheckCmd.generateReport results in
  CheckCmd.total summary = map_size dependencies
  /\ CheckCmd.majorUpdates summary + CheckCmd.minorUpdates summary
     + CheckCmd.patchUpdates summary <= CheckCmd.outdated summary
  /\ CheckCmd.vulnerabilityCount summary = 0.
Proof.
  unfold CheckCmd.checkDependencies in Hresults.
  rewrite CheckFacts.combine_map in Hresults.
  apply CheckFacts.mapM_forall2 in Hresults.
  assert (Hshape : Forall (fun r =>
            CheckCmd.vulnerabilities r = []
            /\ (CheckCmd.updateAvailable r = false -> CheckCmd.updateType r = None))
            results).
  { clear -Hresults. induction Hresults as [|[k lookup] r l rs Hr _ IH];
      constructor; [|exact IH].
    destruct (CheckFacts.checkDependency_shape _ _ _ _ Hr) as (_ & H1 & H2 & _).
    auto. }
  cbv zeta. split; [|split].
  - apply Forall2_length in Hresults. rewrite List.length_map in Hresults.
    unfold map_keys in Hresults. rewrite List.length_map in Hresults.
    symmetry. exact Hresults.
  - apply CheckFacts.bucket_counters.
    eapply Forall_impl; [|exact Hshape]. intros r (_ & H). exact H.
  - apply (CheckFacts.no_vulnerabilities results 0).
    eapply Forall_impl; [|exact Hshape]. intros r (H & _). exact H.
Qed.

End CheckProperties.

Section CheckOneProperties.
Context {L : Semver.Library}.

(** X6. For a dependency with an exact current version and a latest
    version that parses, the check reports an update exactly when the
    latest version is greater in the version order; without an update the
    update type stays [null]; with one, the update type is never
    ["unknown"] and names the most significant of major, minor, patch in
    which the two versions differ, or ["none"] when the three numbers
    agree. *)
Theorem checkDependency_exact_version
  (dependencies : Map Parser.dependency) (packageName : string)
  (dependency : Parser.dependency) (current latest : string)
  (c x : Semver.SemVer)
  (Hempty : Semver.parse_empty L) (Hversion : Semver.parse_version L)
  (Hget : map_get packageName dependencies = Some dependency)
  (Hclean : Parser.clean (Parser.depRange dependency) = Some current)
  (Hc : Semver.parse current = Some c) (Hx : Semver.parse latest = Some x) :
  exists r,
    CheckCmd.checkDependency dependencies packageName (fulfilled (Some latest))
    = Ok r
    /\ CheckCmd.latestVersion r = Some latest
    /\ (CheckCmd.updateAvailable r = true <-> Spec.newer current latest)
    /\ (CheckCmd.updateAvailable r = false -> CheckCmd.updateType r = None)
    /\ (CheckCmd.updateAvailable r = true ->
        exists bucket,
          CheckCmd.updateType r = Some bucket
          /\ bucket <> "unknown"
          /\ (bucket = "major" <-> (Semver.major c < Semver.major x)%N)
          /\ (bucket = "minor" <->
              Semver.major c = Semver.major x /\
              (Semver.minor c < Semver.minor x)%N)
          /\ (bucket = "patch" <->
              Semver.major c = Semver.major x /\
              Semver.minor c = Semver.minor x /\
              (Semver.patch c < Semver.patch x)%N)
          /\ (bucket = "none" <-> Spec.triple c = Spec.triple x)).
Proof.
  assert (Hne : forall s v, Semver.parse s = Some v -> s <> "").
  { intros s v Hs ->. unfold Semver.parse_empty in Hempty. congruence. }
  pose proof (UpdateFacts.gt_text latest current
                (ex_intro _ x Hx) (ex_intro _ c Hc)) as Hgt.
  unfold CheckCmd.checkDependency. rewrite Hget, Hclean.
  rewrite (proj2 (JSFacts.truthy_some latest) (Hne _ _ Hx)).
  assert (Hbase : or_else (Some current) "0.0.0" = current).
  { simpl. destruct (String.eqb_spec current ""); [|reflexivity].
    destruct (Hne _ _ Hc). assumption. }
  rewrite Hbase, Hgt. unfold Spec.newer. rewrite Hgt.
  destruct (0 <? Spec.compareText latest current)%Z eqn:Hcmp;
    cbn [JS.bind]; eexists; (split; [reflexivity|]);
    cbn [CheckCmd.latestVersion CheckCmd.updateAvailable CheckCmd.updateType];
    (split; [reflexivity|]).
  - split; [tauto|]. split; [discriminate|]. intros _.
    eexists. split; [reflexivity|].
    assert (Hnewer : Spec.newer current latest) by exact Hgt.
    split.
    + change (CheckCmd.getUpdateType (Some current) (Some latest))
        with (UpdateCmd.getUpdateType (Some current) (Some latest)).
      rewrite (ClassifierFacts.getUpdateType_parsed (Some current) (Some latest)
                 c x Hempty Hc Hx).
      destruct (_ <? _)%N; [discriminate|].
      destruct (_ <? _)%N; [discriminate|].
      destruct (_ <? _)%N; discriminate.
    + exact (UpdateFacts.newer_bucket Hempty Hversion current latest c x
               Hc Hx Hnewer).
  - split; [split; [discriminate|intros H; discriminate H]|].
    split; [reflexivity|discriminate].
Qed.

(** X8. For a dependency without an exact current version and a latest
    version that parses, the check reports an update unless the major,
    minor and patch numbers of the latest version are all zero. *)
Theorem checkDependency_baseline_zero
  (dependencies : Map Parser.dependency) (packageName : string)
  (dependency : Parser.dependency) (latest : string) (x : Semver.SemVer)
  (Hempty : Semver.parse_empty L) (Hversion : Semver.parse_version L)
  (Hzero : Semver.parse_zero L)
  (Hget : map_get packageName dependencies = Some dependency)
  (Hclean : Parser.clean (Parser.depRange dependency) = None)
  (Hx : Semver.parse latest = Some x) :
  exists r,
    CheckCmd.checkDependency dependencies packageName (fulfilled (Some latest))
    = Ok r
    /\ CheckCmd.updateAvailable r
       = negb ((Semver.major x =? 0)%N && (Semver.minor x =? 0)%N
               && (Semver.patch x =? 0)%N).
Proof.
  assert (Hne : latest <> "").
  { intros ->. unfold Semver.parse_empty in Hempty. congruence. }
  unfold CheckCmd.checkDependency. rewrite Hget, Hclean.
  rewrite (proj2 (JSFacts.truthy_some latest) Hne).
  cbn [or_else]. rewrite (Order.gt_baseline Hversion latest x Hzero Hx).
  cbn [JS.bind]. eexists. split; reflexivity.
Qed.

End CheckOneProperties.

(** ** update.js: available updates, recommendations and their report *)

Module RecommendFacts.

Import UpdateCmd Terms.

Lemma sorted_filter {A} (R : A -> A -> Prop) (p : A -> bool) (l : list A) :
  StronglySorted R l -> StronglySorted R (filter p l).
Proof.
  induction 1 as [|x l Hs IH Hall]; simpl; [constructor|].
  destruct (p x); [|exact IH].
  constructor; [exact IH|].
  rewrite Forall_forall in *. intros y Hy.
  apply filter_In in Hy as (Hy & _). auto.
Qed.

Lemma sorted_map {A B} (f : A -> B) (R : B -> B -> Prop) (l : list A) :
  StronglySorted (fun a b => R (f a) (f b)) l -> StronglySorted R (List.map f l).
Proof.
  induction 1 as [|x l Hs IH Hall]; simpl; constructor; [exact IH|].
  rewrite Forall_forall in *. intros y Hy.
  apply in_map_iff in Hy as (a & <- & Ha). auto.
Qed.

(** Counting a list of recommendations by bucket. *)
Lemma bucket_lengths (recs : list recommendation) :
  (forall r, In r recs -> In (type r) Spec.buckets) ->
  List.length (filter (fun r => (type r =? "patch")%string) recs)
  + List.length (filter (fun r => (type r =? "minor")%string) recs)
  + List.length (filter (fun r => (type r =? "major")%string) recs)
  = List.length recs.
Proof.
  induction recs as [|r recs IH]; simpl; intros H; [reflexivity|].
  specialize (IH (fun x Hx => H x (or_intror Hx))).
  destruct (H r (or_introl eq_refl)) as [E|[E|[E|[]]]]; rewrite <- E; simpl; lia.
Qed.

Lemma no_major (recs : list recommendation) :
  (forall r, In r recs -> type r <> "major") ->
  List.length (filter (fun r => (type r =? "major")%string) recs) = 0.
Proof.
  induction recs as [|r recs IH]; simpl; intros H; [reflexivity|].
  destruct (String.eqb_spec (type r) "major") as [E|E].
  - destruct (H r (or_introl eq_refl) E).
  - apply IH. intros x Hx. apply H. right. exact Hx.
Qed.

Lemma generateRecommendations_wellFormed (dependency : Parser.dependency)
  (availableUpdates : list update) (opts : options) :
  wellFormed opts (generateRecommendations dependency availableUpdates opts).
Proof.
  split; [apply UpdateFacts.recommendations_count|].
  intros r Hr.
  destruct (UpdateFacts.recommendation_head _ _ _ _ Hr)
    as (u & rest & _ & _ & H1 & _ & _ & H2).
  auto.
Qed.

Lemma report_counters (opts : options) (results : list updateResult) :
  Forall (fun r => wellFormed opts (recommendations r)) results ->
  let summary := generateUpdateReport results in
  let all := flat_map recommendations results in
  patchUpdates summary + minorUpdates summary + majorUpdates summary
  = List.length all
  /\ hasUpdates summary <= List.length all
  /\ List.length all <= 3 * hasUpdates summary
  /\ (optMajor opts = false -> majorUpdates summary = 0).
Proof.
  intros H. cbv zeta. unfold generateUpdateReport. cbn.
  split; [|split; [|split]].
  - apply bucket_lengths. intros r Hr.
    apply in_flat_map in Hr as (x & Hx & Hr).
    rewrite Forall_forall in H. apply (H x Hx), Hr.
  - induction H as [|x results Hx _ IH]; simpl; [lia|].
    rewrite List.length_app.
    destruct (recommendations x); simpl in *; lia.
  - induction H as [|x results (Hx & _) _ IH]; simpl; [lia|].
    rewrite List.length_app.
    destruct (recommendations x); simpl in *; lia.
  - intros Hopt. apply no_major. intros r Hr E.
    apply in_flat_map in Hr as (x & Hx & Hr).
    rewrite Forall_forall in H.
    destruct (H x Hx) as (_ & Hwf). destruct (Hwf r Hr) as (_ & Hm).
    rewrite (Hm E) in Hopt. discriminate.
Qed.

Section WithLibrary.
Context {L : Semver.Library}.

Lemma recommend_shape (packageName : string) (dependency : Parser.dependency)
  (latest : settled (option string)) (versions : settled (list string))
  (opts : options) (r : updateResult) :
  recommend packageName dependency latest versions opts = Ok r ->
  name r = packageName /\ wellFormed opts (recommendations r).
Proof.
  assert (Hnil : wellFormed opts []).
  { split; [simpl; lia|intros ? []]. }
  unfold recommend.
  destruct latest as [[value|]|reason];
    try (intros H; injection H as <-; split; [reflexivity|exact Hnil]).
  destruct (truthy (Some value));
    [|intros H; injection H as <-; split; [reflexivity|exact Hnil]].
  intros H. apply JSFacts.bind_ok in H as (updates & _ & H).
  injection H as <-. split; [reflexivity|].
  apply generateRecommendations_wellFormed.
Qed.

Hypothesis Hempty : Semver.parse_empty L.
Hypothesis Hversion : Semver.parse_version L.

Lemma clean_validText (text : string) (info : Parser.VersionRangeInfo)
  (current : string) :
  Parser.parseVersionRange text = Ok info ->
  Parser.clean info = Some current -> validText current.
Proof.
  intros Hinfo Hclean.
  rewrite (ParserFacts.parseVersionRange_clean _ _ Hinfo) in Hclean.
  unfold Semver.clean in Hclean.
  destruct (Semver.parse (Semver.stripEqV (trim text))) as [x|] eqn:Hx;
    [|discriminate].
  injection Hclean as <-. exists x. apply (Hversion _ _ Hx).
Qed.

Lemma analyze_total (text : string) (info : Parser.VersionRangeInfo)
  (allVersions : list string) (includeMajor : bool) :
  Parser.parseVersionRange text = Ok info ->
  exists updates,
    analyzeAvailableUpdates info allVersions includeMajor = Ok updates.
Proof.
  intros Hinfo.
  destruct (Parser.clean info) as [current|] eqn:Hclean.
  - destruct (UpdateFacts.analyzeAvailableUpdates_retained Hempty Hversion
                info current allVersions includeMajor Hclean
                (clean_validText _ _ _ Hinfo Hclean)) as (s & _ & -> & _).
    eauto.
  - unfold analyzeAvailableUpdates. rewrite Hclean. eauto.
Qed.

Lemma recommend_total (packageName : string) (dependency : Parser.dependency)
  (latest : settled (option string)) (versions : settled (list string))
  (opts : options) :
  Parser.parseVersionRange (Parser.version dependency)
  = Ok (Parser.depRange dependency) ->
  exists r, recommend packageName dependency latest versions opts = Ok r.
Proof.
  intros Hd. unfold recommend.
  destruct latest as [[value|]|reason]; eauto.
  destruct (truthy (Some value)); eauto.
  destruct versions as [allVersions|reason]; simpl; eauto.
  destruct (analyze_total _ _ allVersions (optMajor opts) Hd) as (u & ->).
  simpl. eauto.
Qed.

(** Leaving major updates out is the same as removing them afterwards. *)
Lemma retained_without_major (current : string) (l : list string) :
  List.map (Spec.updateOf current) (filter (Spec.retained current false) l)
  = filter (fun u => negb (updType u =? "major")%string)
      (List.map (Spec.updateOf current) (filter (Spec.retained current true) l)).
Proof.
  assert (Ht : forall v, Spec.retained current true v
                         = (0 <? Spec.compareText v current)%Z).
  { intros v. unfold Spec.retained. cbn [negb].
    rewrite andb_false_r. apply andb_true_r. }
  assert (Hf : forall v, Spec.retained current false v
                         = ((0 <? Spec.compareText v current)%Z
                            && negb (getUpdateType (Some current) (Some v)
                                     =? "major")%string)).
  { intros v. unfold Spec.retained. cbn [negb]. rewrite andb_true_r.
    reflexivity. }
  induction l as [|v l IH]; [reflexivity|].
  cbn [filter]. rewrite Ht, Hf.
  destruct (0 <? Spec.compareText v current)%Z; cbn [andb]; [|exact IH].
  cbn [List.map filter Spec.updateOf updType].
  destruct (getUpdateType (Some current) (Some v) =? "major")%string;
    cbn [negb List.map]; rewrite IH; reflexivity.
Qed.

(** The recommended version of a bucket is not exceeded by any published
    version of that bucket, when the comparison is consistent on the
    published versions. *)
Lemma recommendation_newest (dependency : Parser.dependency)
  (allVersions : list string) (opts : options) (current : string)
  (recs : list recommendation) (r : recommendation) (v : string) :
  Spec.safeVersions allVersions ->
  Parser.clean (Parser.depRange dependency) = Some current ->
  validText current ->
  Spec.recommendationsFor dependency allVersions opts = Ok recs ->
  In r recs -> In v allVersions -> Spec.inBucket current (type r) v ->
  exists c, Semver.compare (version r) v = Ok c /\ (0 <= c)%Z.
Proof.
  intros Hsafe Hclean Hc Hrecs Hr Hin (Hnewer & Htype).
  unfold Spec.recommendationsFor in Hrecs.
  destruct (UpdateFacts.analyzeAvailableUpdates_retained Hempty Hversion
              _ _ allVersions (optMajor opts) Hclean Hc)
    as (sortedVersions & Hsort & Han & Hmem).
  pose proof (UpdateFacts.sorted_versions_ordered Hempty Hversion
                allVersions sortedVersions Hsafe Hsort) as Hsorted.
  rewrite Han in Hrecs. cbn [JS.bind] in Hrecs. injection Hrecs as <-.
  destruct (UpdateFacts.recommendation_head _ _ _ _ Hr)
    as (u & rest & Hhead & Hver & _ & _ & _ & Hmajor).
  rewrite UpdateFacts.of_type_map, UpdateFacts.filter_filter in Hhead.
  set (p := fun v => _ && _) in Hhead.
  pose proof (UpdateFacts.first_of_sorted _ p _ Hsorted) as Hfirst.
  destruct (filter p sortedVersions) as [|v0 rest0]; [discriminate|].
  injection Hhead as <- _. cbn [Spec.updateOf updVersion] in Hver.
  rewrite Hver.
  destruct Hfirst as (Hin0 & _ & Hfirst).
  apply Hmem in Hin0 as (Hin0 & Hv0).
  unfold Spec.newer in Hnewer.
  destruct (UpdateFacts.gt_valid _ _ _ Hnewer) as (Hv & _).
  rewrite (UpdateFacts.gt_text v current Hv Hc) in Hnewer.
  injection Hnewer as Hnewer.
  exists (Spec.compareText v0 v).
  split; [apply UpdateFacts.compare_text; assumption|].
  assert (Hpv : p v = true).
  { unfold p, Spec.retained. rewrite Hnewer. cbn [andb].
    cbn [Spec.updateOf updType]. rewrite Htype.
    rewrite String.eqb_refl, andb_true_r.
    destruct (String.eqb_spec (type r) "major") as [E|E]; [|reflexivity].
    rewrite (Hmajor E). reflexivity. }
  destruct (Hfirst v (proj2 (Hmem v) (conj Hin Hv)) Hpv) as [->|Hle].
  - rewrite (UpdateFacts.compareText_refl Hversion v0 Hv0). lia.
  - rewrite (UpdateFacts.compareText_anti Hversion v v0
               (UpdateFacts.safeVersions_text allVersions v Hsafe Hin Hv)
               (UpdateFacts.safeVersions_text allVersions v0 Hsafe Hin0 Hv0)).
    lia.
Qed.
End WithLibrary.

End RecommendFacts.

Section UpdateProperties.
Context {L : Semver.Library}.

(** X9. Whatever the registry answers, [getUpdateRecommendations]
    returns one result per dependency, in the order of the keys of the
    map, each with at most three recommendations, as long as every record
    carries the analysis of its specifier. *)
Theorem getUpdateRecommendations_never_throws {R : Registry.Service}
  (dependencies : Map Parser.dependency) (opts : UpdateCmd.options)
  (Hempty : Semver.parse_empty L) (Hversion : Semver.parse_version L)
  (Hdeps : Terms.analyzed dependencies) :
  exists results,
    UpdateCmd.getUpdateRecommendations dependencies opts = Ok results
    /\ List.map UpdateCmd.name results = map_keys dependencies
    /\ Forall (fun r => List.length (UpdateCmd.recommendations r) <= 3) results.
Proof.
  unfold UpdateCmd.getUpdateRecommendations.
  set (f := fun packageName : string => _).
  destruct (CheckFacts.mapM_ok f (map_keys dependencies)) as (results & Hres).
  { intros k Hk. unfold f.
    destruct (KeyFacts.map_get_key _ _ Hk) as (d & -> & Hd).
    apply (RecommendFacts.recommend_total Hempty Hversion), (Hdeps _ _ Hd). }
  exists results. split; [exact Hres|].
  apply CheckFacts.mapM_forall2 in Hres.
  assert (Hall : Forall2 (fun k r => UpdateCmd.name r = k
                   /\ List.length (UpdateCmd.recommendations r) <= 3)
                   (map_keys dependencies) results).
  { eapply Forall2_impl; [|exact Hres]. intros k r Hr. unfold f in Hr.
    destruct (map_get k dependencies) as [d|]; [|discriminate].
    destruct (RecommendFacts.recommend_shape _ _ _ _ _ _ Hr) as (Hn & Hw & _).
    auto. }
  clear Hres. split.
  - induction Hall as [|k r ks rs (Hn & _) _ IH]; simpl; [reflexivity|].
    rewrite Hn, IH. reflexivity.
  - induction Hall as [|k r ks rs (_ & Hn) _ IH]; constructor; assumption.
Qed.

(** X10. For a current version that parses, [analyzeAvailableUpdates]
    lists exactly the published versions that [semver.gt] finds newer
    than the current one (major updates only when asked for); each entry
    carries the classification of its version, which is one of major,
    minor, patch and none, and is marked breaking exactly when it is
    major.  The list runs from the newest to the oldest when no published
    version has a numeric pre-release identifier at or above
    [MAX_SAFE_INTEGER]. *)
Theorem analyzeAvailableUpdates_lists_newer
  (currentRange : Parser.VersionRangeInfo) (current : string)
  (c : Semver.SemVer) (allVersions : list string) (includeMajor : bool)
  (Hempty : Semver.parse_empty L) (Hversion : Semver.parse_version L)
  (Hclean : Parser.clean currentRange = Some current)
  (Hc : Semver.parse current = Some c) :
  exists updates,
    UpdateCmd.analyzeAvailableUpdates currentRange allVersions includeMajor
    = Ok updates
    /\ (forall u, In u updates ->
          In (UpdateCmd.updVersion u) allVersions
          /\ Spec.newer current (UpdateCmd.updVersion u)
          /\ UpdateCmd.updType u
             = UpdateCmd.getUpdateType (Some current)
                 (Some (UpdateCmd.updVersion u))
          /\ In (UpdateCmd.updType u) ["major"; "minor"; "patch"; "none"]
          /\ UpdateCmd.updBreaking u = (UpdateCmd.updType u =? "major")%string
          /\ (UpdateCmd.updType u = "major" -> includeMajor = true))
    /\ (forall v, In v allVersions -> Spec.newer current v ->
          (UpdateCmd.getUpdateType (Some current) (Some v) = "major" ->
           includeMajor = true) ->
          exists u, In u updates /\ UpdateCmd.updVersion u = v)
    /\ (Spec.safeVersions allVersions ->
        StronglySorted
          (fun a b => (Spec.compareText (UpdateCmd.updVersion b)
                         (UpdateCmd.updVersion a) <= 0)%Z)
          updates).
Proof.
  assert (Hvalid : Terms.validText current) by (exists c; exact Hc).
  destruct (UpdateFacts.analyzeAvailableUpdates_retained Hempty Hversion
              currentRange current allVersions includeMajor Hclean Hvalid)
    as (sortedVersions & Hsort & -> & Hmem).
  eexists. split; [reflexivity|]. split; [|split].
  - intros u Hu. apply in_map_iff in Hu as (v & <- & Hv).
    apply filter_In in Hv as (Hv & Hret).
    apply Hmem in Hv as (Hin & Hval).
    unfold Spec.retained in Hret. apply andb_prop in Hret as (Hgt & Hmaj).
    cbn [Spec.updateOf UpdateCmd.updVersion UpdateCmd.updType
           UpdateCmd.updBreaking].
    split; [exact Hin|]. split.
    { unfold Spec.newer. rewrite (UpdateFacts.gt_text v current Hval Hvalid), Hgt.
      reflexivity. }
    split; [reflexivity|]. split.
    { destruct Hval as (x & Hx).
      rewrite (ClassifierFacts.getUpdateType_parsed (Some current) (Some v)
                 c x Hempty Hc Hx).
      destruct (_ <? _)%N; [simpl; tauto|].
      destruct (_ <? _)%N; [simpl; tauto|].
      destruct (_ <? _)%N; simpl; tauto. }
    split; [reflexivity|].
    intros E. rewrite E in Hmaj. simpl in Hmaj.
    destruct includeMajor; [reflexivity|discriminate].
  - intros v Hin Hnewer Hmaj. exists (Spec.updateOf current v).
    split; [|reflexivity].
    unfold Spec.newer in Hnewer.
    destruct (UpdateFacts.gt_valid _ _ _ Hnewer) as (Hval & _).
    rewrite (UpdateFacts.gt_text v current Hval Hvalid) in Hnewer.
    injection Hnewer as Hnewer.
    apply in_map, filter_In. split; [apply Hmem; auto|].
    unfold Spec.retained. rewrite Hnewer. cbn [andb].
    destruct (String.eqb_spec
                (UpdateCmd.getUpdateType (Some current) (Some v)) "major")
      as [E|E]; [|reflexivity].
    rewrite (Hmaj E). reflexivity.
  - intros Hsafe.
    apply RecommendFacts.sorted_map, RecommendFacts.sorted_filter.
    apply (UpdateFacts.sorted_versions_ordered Hempty Hversion
             allVersions sortedVersions Hsafe Hsort).
Qed.

(** X11. Analysing without major updates gives the analysis with major
    updates from which the major entries are removed, in the same
    order. *)
Theorem analyzeAvailableUpdates_without_major
  (text : string) (currentRange : Parser.VersionRangeInfo)
  (allVersions : list string)
  (Hempty : Semver.parse_empty L) (Hversion : Semver.parse_version L)
  (Hrange : Parser.parseVersionRange text = Ok currentRange) :
  exists updates,
    UpdateCmd.analyzeAvailableUpdates currentRange allVersions true = Ok updates
    /\ UpdateCmd.analyzeAvailableUpdates currentRange allVersions false
       = Ok (filter (fun u => negb (UpdateCmd.updType u =? "major")%string)
               updates).
Proof.
  destruct (Parser.clean currentRange) as [current|] eqn:Hclean.
  - pose proof (RecommendFacts.clean_validText Hversion _ _ _ Hrange Hclean)
      as Hvalid.
    unfold UpdateCmd.analyzeAvailableUpdates. rewrite Hclean.
    destruct (truthy (Some current)); cbn [negb];
      [|exists []; split; reflexivity].
    destruct (UpdateFacts.sorted_versions Hempty Hversion allVersions)
      as (sortedVersions & -> & Hall & _).
    cbn [JS.bind].
    rewrite !(UpdateFacts.collectUpdates_retained _ _ _ Hvalid Hall).
    eexists. split; [reflexivity|].
    f_equal. apply RecommendFacts.retained_without_major.
  - unfold UpdateCmd.analyzeAvailableUpdates. rewrite Hclean.
    exists []. split; reflexivity.
Qed.

(** X12. Every bucket that holds a published version newer than the
    current one is served by a recommendation: patch and minor always,
    major when the include-major option is set. *)
Theorem recommendations_cover_buckets
  (dependency : Parser.dependency) (allVersions : list string)
  (opts : UpdateCmd.options) (current bucket v : string) (c : Semver.SemVer)
  (Hempty : Semver.parse_empty L) (Hversion : Semver.parse_version L)
  (Hclean : Parser.clean (Parser.depRange dependency) = Some current)
  (Hc : Semver.parse current = Some c)
  (Hin : In v allVersions)
  (Hv : Spec.inBucket current bucket v)
  (Hbucket : In bucket Spec.buckets)
  (Hmajor : bucket = "major" -> UpdateCmd.optMajor opts = true) :
  exists recs r,
    Spec.recommendationsFor dependency allVersions opts = Ok recs
    /\ In r recs /\ UpdateCmd.type r = bucket.
Proof.
  apply (UpdateFacts.recommendations_complete Hempty Hversion dependency
           allVersions opts current bucket v Hclean (ex_intro _ c Hc)
           Hin Hv Hbucket Hmajor).
Qed.

(** X13. In the report built from the results of
    [getUpdateRecommendations] the total is the number of dependencies,
    the patch, minor and major counters add up to the number of
    recommendations, which lies between [hasUpdates] and three times
    [hasUpdates], and the major counter is zero without the include-major
    option. *)
Theorem update_report_counters {R : Registry.Service}
  (dependencies : Map Parser.dependency) (opts : UpdateCmd.options)
  (results : list UpdateCmd.updateResult)
  (Hresults : UpdateCmd.getUpdateRecommendations dependencies opts = Ok results) :
  let summary := UpdateCmd.generateUpdateReport results in
  let all := flat_map UpdateCmd.recommendations results in
  UpdateCmd.total summary = map_size dependencies
  /\ UpdateCmd.patchUpdates summary + UpdateCmd.minorUpdates summary
     + UpdateCmd.majorUpdates summary = List.length all
  /\ UpdateCmd.hasUpdates summary <= List.length all
  /\ List.length all <= 3 * UpdateCmd.hasUpdates summary
  /\ (UpdateCmd.optMajor opts = false -> UpdateCmd.majorUpdates summary = 0).
Proof.
  unfold UpdateCmd.getUpdateRecommendations in Hresults.
  apply CheckFacts.mapM_forall2 in Hresults.
  cbv zeta. split.
  - apply Forall2_length in Hresults. unfold map_keys in Hresults.
    rewrite List.length_map in Hresults. symmetry. exact Hresults.
  - apply (RecommendFacts.report_counters opts).
    induction Hresults as [|k r ks rs Hr _ IH]; constructor; [|exact IH].
    destruct (map_get k dependencies) as [d|]; [|discriminate].
    apply (RecommendFacts.recommend_shape _ _ _ _ _ _ Hr).
Qed.

(** X14. The two commands agree: when the check of a dependency with an
    exact current version reports an update of type patch, minor or (with
    the include-major option) major, and the latest version is among the
    published versions, the update command recommends a version of that
    same bucket; that version is at least the latest one when no
    published version has a numeric pre-release identifier at or above
    [MAX_SAFE_INTEGER]. *)
Theorem check_and_update_agree
  (dependencies : Map Parser.dependency) (packageName : string)
  (dependency : Parser.dependency) (current latest bucket : string)
  (c : Semver.SemVer) (allVersions : list string) (opts : UpdateCmd.options)
  (checked : CheckCmd.checkResult)
  (Hempty : Semver.parse_empty L) (Hversion : Semver.parse_version L)
  (Hget : map_get packageName dependencies = Some dependency)
  (Hclean : Parser.clean (Parser.depRange dependency) = Some current)
  (Hc : Semver.parse current = Some c)
  (Hchecked : CheckCmd.checkDependency dependencies packageName
                (fulfilled (Some latest)) = Ok checked)
  (Htype : CheckCmd.updateType checked = Some bucket)
  (Hbucket : In bucket Spec.buckets)
  (Hmajor : bucket = "major" -> UpdateCmd.optMajor opts = true)
  (Hpublished : In latest allVersions) :
  exists recs r,
    Spec.recommendationsFor dependency allVersions opts = Ok recs
    /\ In r recs
    /\ UpdateCmd.type r = bucket
    /\ (Spec.safeVersions allVersions ->
        exists cmp,
          Semver.compare (UpdateCmd.version r) latest = Ok cmp
          /\ (0 <= cmp)%Z).
Proof.
  assert (Hvalid : Terms.validText current) by (exists c; exact Hc).
  assert (Hin : Spec.inBucket current bucket latest).
  { unfold CheckCmd.checkDependency in Hchecked.
    rewrite Hget, Hclean in Hchecked.
    assert (Hbase : or_else (Some current) "0.0.0" = current).
    { simpl. destruct (String.eqb_spec current "") as [->|]; [|reflexivity].
      unfold Semver.parse_empty in Hempty. congruence. }
    rewrite Hbase in Hchecked.
    destruct (truthy (Some latest)).
    - apply JSFacts.bind_ok in Hchecked as ([[l a] k] & Hupd & Hchecked).
      injection Hchecked as <-. cbn in Htype. subst k.
      apply JSFacts.bind_ok in Hupd as (available & Hgt & Hupd).
      injection Hupd as _ _ Hk.
      destruct available; [|discriminate].
      injection Hk as Hk. split; [exact Hgt|exact Hk].
    - cbn in Hchecked. injection Hchecked as <-. discriminate. }
  destruct (UpdateFacts.recommendations_complete Hempty Hversion dependency
              allVersions opts current bucket latest Hclean Hvalid
              Hpublished Hin Hbucket Hmajor) as (recs & r & Hrecs & Hr & Ht).
  exists recs, r. split; [exact Hrecs|]. split; [exact Hr|].
  split; [exact Ht|].
  rewrite <- Ht in Hin. intros Hsafe.
  apply (RecommendFacts.recommendation_newest Hempty Hversion dependency
           allVersions opts current recs r latest Hsafe Hclean Hvalid Hrecs Hr
           Hpublished Hin).
Qed.

End UpdateProperties.

(** ** audit.js: thresholds, counters, order of ties, fixed versions *)

Module AuditMoreFacts.

Import Registry AuditCmd AuditReport Terms.

Lemma indexOf_from_absent (i : Z) (l : list string) (x : string) :
  ~ In x l -> indexOf_from i l x = (-1)%Z.
Proof.
  revert i. induction l as [|y l IH]; simpl; intros i H; [reflexivity|].
  destruct (String.eqb_spec y x); [tauto|]. apply IH. tauto.
Qed.

Lemma indexOf_from_bound (i : Z) (l : list string) (x : string) :
  (0 <= i)%Z -> (-1 <= indexOf_from i l x)%Z.
Proof.
  revert i. induction l as [|y l IH]; simpl; intros i H; [lia|].
  destruct (y =? x)%string; [lia|]. apply IH. lia.
Qed.

Lemma filter_flat_map {A B} (p : B -> bool) (f : A -> list B) (l : list A) :
  filter p (flat_map f l) = flat_map (fun x => filter p (f x)) l.
Proof.
  induction l as [|x l IH]; simpl; [reflexivity|].
  rewrite filter_app, IH. reflexivity.
Qed.

Lemma filter_map {A B} (p : B -> bool) (g : A -> B) (l : list A) :
  filter p (List.map g l) = List.map g (filter (fun x => p (g x)) l).
Proof.
  induction l as [|x l IH]; simpl; [reflexivity|].
  destruct (p (g x)); simpl; rewrite IH; reflexivity.
Qed.

(** With index [-1] as the minimum the filter keeps everything. *)
Lemma allVulnerabilities_unfiltered (database : string -> entry)
  (dependencies : Map Parser.dependency) (results : list auditResult) :
  auditEntries database (-1) dependencies = Ok results ->
  allVulnerabilities results = allFindings database dependencies.
Proof.
  intros H. rewrite (AuditFacts.allVulnerabilities_entries _ _ _ _ H).
  unfold allFindings. apply flat_map_ext. intros [name dependency].
  f_equal. apply KeyFacts.filter_id. intros v _.
  apply Z.leb_le. apply indexOf_from_bound. lia.
Qed.

Lemma atLeast_trans (t1 t2 s : string) :
  Spec.atLeast t1 t2 = true -> Spec.atLeast t2 s = true ->
  Spec.atLeast t1 s = true.
Proof.
  unfold Spec.atLeast.
  destruct (Spec.severityRank t1), (Spec.severityRank t2),
    (Spec.severityRank s); try discriminate.
  rewrite !Nat.leb_le. lia.
Qed.

Lemma kept_refilter (database : string -> entry)
  (dependencies : Map Parser.dependency) (t1 t2 : string) :
  Spec.atLeast t1 t2 = true ->
  Spec.keptFindings database dependencies t2
  = filter (fun f => Spec.atLeast t2 (severity (vuln f)))
      (Spec.keptFindings database dependencies t1).
Proof.
  intros Hle. unfold Spec.keptFindings. rewrite filter_flat_map.
  apply flat_map_ext. intros [name dependency].
  rewrite filter_map. cbn [vuln]. rewrite UpdateFacts.filter_filter.
  f_equal. apply filter_ext. intros v.
  destruct (Spec.atLeast t2 (severity v)) eqn:E.
  - rewrite (atLeast_trans _ _ _ Hle E). reflexivity.
  - symmetry. apply andb_false_r.
Qed.

Lemma fold_countSeverity (fs : list finding) (m : Map counter)
  (g : string -> nat) :
  (forall f, In f fs -> In (severity (vuln f)) severityLevels) ->
  (forall level, In level severityLevels ->
                 map_get level m = Some (Count (g level))) ->
  forall level, In level severityLevels ->
    map_get level (fold_left countSeverity fs m)
    = Some (Count (g level + countIn level fs)).
Proof.
  revert m g. induction fs as [|f fs IH]; intros m g Hfs Hm level Hlevel.
  - simpl. unfold countIn. simpl. rewrite Nat.add_0_r. auto.
  - cbn [fold_left].
    rewrite (IH (countSeverity m f)
               (fun l => g l + (if hasSeverity l f then 1 else 0))).
    + unfold countIn. cbn [filter].
      destruct (hasSeverity level f); simpl; f_equal; f_equal; lia.
    + intros x Hx. apply Hfs. right. exact Hx.
    + intros l Hl. unfold countSeverity.
      assert (Hkey : (severity (vuln f) =? "__proto__")%string = false).
      { pose proof (Hfs f (or_introl eq_refl)) as Hf. simpl in Hf.
        destruct Hf as [<-|[<-|[<-|[<-|[]]]]]; reflexivity. }
      rewrite Hkey.
      rewrite ExtractFacts.map_get_set. unfold hasSeverity.
      destruct (String.eqb_spec (severity (vuln f)) l) as [E|E].
      * rewrite (Hm _ (Hfs f (or_introl eq_refl))). simpl.
        rewrite E. reflexivity.
      * rewrite (Hm l Hl). f_equal. f_equal. lia.
    + exact Hlevel.
Qed.

Lemma severity_lengths (fs : list finding) :
  (forall f, In f fs -> In (severity (vuln f)) severityLevels) ->
  countIn "critical" fs + countIn "high" fs + countIn "moderate" fs
  + countIn "low" fs = List.length fs.
Proof.
  unfold countIn, hasSeverity.
  induction fs as [|f fs IH]; simpl; intros H; [reflexivity|].
  specialize (IH (fun x Hx => H x (or_intror Hx))).
  destruct (H f (or_introl eq_refl)) as [E|[E|[E|[E|[]]]]]; rewrite <- E;
    simpl; lia.
Qed.

Lemma ranked_level (f : finding) :
  Spec.ranked f -> In (severity (vuln f)) severityLevels.
Proof.
  unfold Spec.ranked, Spec.severityRank, severityLevels.
  destruct (String.eqb_spec (severity (vuln f)) "low"); [simpl; auto|].
  destruct (String.eqb_spec (severity (vuln f)) "moderate"); [simpl; auto|].
  destruct (String.eqb_spec (severity (vuln f)) "high"); [simpl; auto|].
  destruct (String.eqb_spec (severity (vuln f)) "critical"); [simpl; auto|].
  congruence.
Qed.

Lemma auditEntries_shape (database : string -> entry)
  (minSeverityIndex : Z) (dependencies : Map Parser.dependency)
  (results : list auditResult) :
  auditEntries database minSeverityIndex dependencies = Ok results ->
  List.length results <= List.length dependencies
  /\ Forall (fun r => vulnerabilities r <> []) results
  /\ incl (List.map package results) (map_keys dependencies).
Proof.
  revert results.
  induction dependencies as [|[name dependency] rest IH]; intros results H.
  - injection H as <-. repeat split; [simpl; lia|constructor|apply incl_refl].
  - cbn [auditEntries] in H.
    apply JSFacts.bind_ok in H as (vs & _ & H).
    apply JSFacts.bind_ok in H as (rs & Hrs & H).
    destruct (IH rs Hrs) as (H1 & H2 & H3). injection H as <-.
    destruct (filterBySeverity _ _) as [|v vs'] eqn:E; simpl.
    + repeat split; [lia|exact H2|]. apply incl_tl, H3.
    + repeat split; [lia| |].
      * constructor; [simpl; discriminate|exact H2].
      * intros x [<-|Hx]; [left; reflexivity|right; apply H3, Hx].
Qed.

(** An element moves past another in the sort only if the pair is not
    in the class of [q]; the sort then keeps the order within the class. *)
Section Stability.
Context {A : Type} (compareFn : A -> A -> result Z) (q : A -> bool).
Hypothesis Hclass : forall x y c,
  compareFn x y = Ok c -> (0 < c)%Z -> q x && q y = false.

Lemma insert_class (x : A) (l r : list A) :
  insert compareFn x l = Ok r -> filter q r = filter q (x :: l).
Proof.
  revert r. induction l as [|y l IH]; simpl; intros r H.
  - injection H as <-. reflexivity.
  - apply JSFacts.bind_ok in H as (c & Hc & H).
    destruct (Z.ltb_spec 0 c) as [Hpos|Hneg].
    + apply JSFacts.bind_ok in H as (r' & Hr' & H). injection H as <-.
      simpl. rewrite (IH _ Hr'). simpl.
      pose proof (Hclass x y c Hc Hpos) as Hxy.
      destruct (q x), (q y); simpl in *; try reflexivity. discriminate.
    + injection H as <-. reflexivity.
Qed.

Lemma sort_class (l r : list A) :
  sort compareFn l = Ok r -> filter q r = filter q l.
Proof.
  revert r. induction l as [|x l IH]; simpl; intros r H.
  - injection H as <-. reflexivity.
  - apply JSFacts.bind_ok in H as (r' & Hr' & H).
    rewrite (insert_class _ _ _ H). simpl. rewrite (IH _ Hr'). reflexivity.
Qed.
End Stability.

Lemma bySeverity_class (s : string) (x y : finding) (c : Z) :
  bySeverity x y = Ok c -> (0 < c)%Z -> hasSeverity s x && hasSeverity s y = false.
Proof.
  unfold bySeverity, hasSeverity.
  destruct (String.eqb_spec (severity (vuln x)) s) as [->|]; [|reflexivity].
  destruct (String.eqb_spec (severity (vuln y)) s) as [->|]; [|reflexivity].
  destruct (severityOrder s); intros H; injection H as <-; lia.
Qed.

Section WithLibrary.
Context {L : Semver.Library}.
Hypothesis Hversion : Semver.parse_version L.

(** The invariant of the [reduce] of [handleAutoFix]. *)
Lemma reduceHigher_max (vulns : list finding) (highest : string) :
  safeText highest ->
  Forall (fun f => safeText (fixedVersionOf f)) vulns ->
  exists h,
    reduceHigher vulns highest = Ok h
    /\ safeText h
    /\ (h = highest \/ exists f, In f vulns /\ h = fixedVersionOf f)
    /\ (Spec.compareText highest h <= 0)%Z
    /\ forall f, In f vulns -> (Spec.compareText (fixedVersionOf f) h <= 0)%Z.
Proof.
  intros Hh Hall. revert highest Hh.
  induction Hall as [|f vulns Hf _ IH]; intros highest Hh.
  - exists highest. simpl. split; [reflexivity|]. split; [exact Hh|].
    split; [auto|]. split; [|intros ? []].
    pose proof (UpdateFacts.compareText_anti Hversion highest highest Hh Hh). lia.
  - cbn [reduceHigher]. unfold higher. fold (fixedVersionOf f).
    rewrite (UpdateFacts.gt_text _ _ (UpdateFacts.safe_valid _ Hf)
               (UpdateFacts.safe_valid _ Hh)).
    cbn [JS.bind].
    set (h1 := if (0 <? Spec.compareText (fixedVersionOf f) highest)%Z
               then fixedVersionOf f else highest).
    assert (H1 : safeText h1) by (unfold h1; destruct (_ <? _)%Z; assumption).
    assert (H2 : (Spec.compareText highest h1 <= 0)%Z).
    { unfold h1. destruct (Z.ltb_spec 0 (Spec.compareText (fixedVersionOf f) highest)).
      - rewrite (UpdateFacts.compareText_anti Hversion _ _ Hf Hh). lia.
      - pose proof (UpdateFacts.compareText_anti Hversion highest highest Hh Hh).
        lia. }
    assert (H3 : (Spec.compareText (fixedVersionOf f) h1 <= 0)%Z).
    { unfold h1. destruct (Z.ltb_spec 0 (Spec.compareText (fixedVersionOf f) highest)).
      - pose proof (UpdateFacts.compareText_anti Hversion _ _ Hf Hf). lia.
      - assumption. }
    destruct (IH h1 H1) as (h & Hred & Hv & Hor & Hle & Hmax).
    exists h. split; [exact Hred|]. split; [exact Hv|]. split; [|split].
    + destruct Hor as [->|(f' & Hf' & ->)].
      * unfold h1. destruct (_ <? _)%Z; [right; exists f; simpl; auto|auto].
      * right. exists f'. simpl. auto.
    + apply (UpdateFacts.compareText_trans Hversion highest h1 h); assumption.
    + intros f' [<-|Hf'].
      * apply (UpdateFacts.compareText_trans Hversion _ h1 h); assumption.
      * apply Hmax, Hf'.
Qed.
End WithLibrary.

Lemma reduceHigher_throws {L : Semver.Library} (vulns : list finding)
  (highest : string) (f : finding) :
  In f vulns -> Semver.parse (fixedVersionOf f) = None ->
  exists e, reduceHigher vulns highest = Throw e.
Proof.
  revert highest. induction vulns as [|g vulns IH]; intros highest Hin Hf;
    [destruct Hin|].
  cbn [reduceHigher].
  destruct (higher highest g) as [h|e] eqn:Hg; cbn [JS.bind]; [|eauto].
  destruct Hin as [->|Hin]; [|apply IH; assumption].
  unfold higher, Semver.gt, Semver.compare, Semver.newSemVer in Hg.
  fold (fixedVersionOf f) in Hg. rewrite Hf in Hg. discriminate.
Qed.

End AuditMoreFacts.

Section AuditProperties.

(** X15. When the audit returns for a threshold that, in lower case, is
    none of low, moderate, high and critical, nothing was filtered: it
    reports every finding on record for the dependencies, whatever its
    severity. *)
Theorem audit_unrecognized_threshold
  (database : string -> AuditCmd.entry)
  (dependencies : Map Parser.dependency) (threshold : string)
  (results : list AuditCmd.auditResult)
  (Hthreshold : ~ In (toLowerCase threshold) AuditCmd.severityLevels)
  (Hresults : AuditCmd.performSecurityAudit database dependencies threshold
              = Ok results) :
  AuditCmd.allVulnerabilities results
  = Terms.allFindings database dependencies.
Proof.
  unfold AuditCmd.performSecurityAudit, indexOf in Hresults.
  rewrite (AuditMoreFacts.indexOf_from_absent _ _ _ Hthreshold) in Hresults.
  apply AuditMoreFacts.allVulnerabilities_unfiltered, Hresults.
Qed.

(** X16. Raising the threshold only removes findings: when the audit
    returns at a lower threshold it returns at a higher one too, and the
    findings at the higher threshold are those at the lower threshold
    that reach the higher one, in the same order. *)
Theorem audit_threshold_monotone
  (database : string -> AuditCmd.entry)
  (dependencies : Map Parser.dependency) (lower higher : string)
  (atLower : list AuditCmd.auditResult)
  (Hlower : In lower AuditCmd.severityLevels)
  (Hhigher : In higher AuditCmd.severityLevels)
  (Horder : Spec.atLeast lower higher = true)
  (HatLower : AuditCmd.performSecurityAudit database dependencies lower
              = Ok atLower) :
  exists atHigher,
    AuditCmd.performSecurityAudit database dependencies higher = Ok atHigher
    /\ AuditCmd.allVulnerabilities atHigher
       = filter (fun f => Spec.atLeast higher
                            (Registry.severity (AuditCmd.vuln f)))
           (AuditCmd.allVulnerabilities atLower).
Proof.
  pose proof (AuditFacts.auditEntries_audited _ _ _ _ HatLower) as Hnames.
  destruct (AuditFacts.auditEntries_total database
              (indexOf AuditCmd.severityLevels (toLowerCase higher))
              dependencies Hnames) as (atHigher & HatHigher).
  fold (AuditCmd.performSecurityAudit database dependencies higher)
    in HatHigher.
  exists atHigher. split; [exact HatHigher|].
  rewrite (AuditFacts.allVulnerabilities_kept _ _ _ _ Hhigher HatHigher),
    (AuditFacts.allVulnerabilities_kept _ _ _ _ Hlower HatLower).
  apply AuditMoreFacts.kept_refilter, Horder.
Qed.

(** X17. In the report of an audit that returned for a threshold among
    the four levels, each of the four severity counters is the number of
    reported findings of that severity, the four add up to the total,
    every affected package is a dependency with at least one reported
    finding, and there are no more affected packages than
    dependencies. *)
Theorem audit_report_counters
  (database : string -> AuditCmd.entry)
  (dependencies : Map Parser.dependency) (threshold : string)
  (results : list AuditCmd.auditResult)
  (Hthreshold : In threshold AuditCmd.severityLevels)
  (Hresults : AuditCmd.performSecurityAudit database dependencies threshold
              = Ok results) :
  let summary := AuditReport.generateAuditReport results threshold in
  let reported := AuditCmd.allVulnerabilities results in
  (forall level, In level AuditCmd.severityLevels ->
     map_get level (AuditReport.severityCounts summary)
     = Some (AuditReport.Count (Terms.countIn level reported)))
  /\ Terms.countIn "critical" reported + Terms.countIn "high" reported
     + Terms.countIn "moderate" reported + Terms.countIn "low" reported
     = AuditReport.totalVulnerabilities summary
  /\ AuditReport.affectedPackages summary <= map_size dependencies
  /\ Forall (fun r => AuditCmd.vulnerabilities r <> []) results
  /\ incl (List.map AuditCmd.package results) (map_keys dependencies).
Proof.
  cbv zeta.
  assert (Hlevels : forall f,
            In f (AuditCmd.allVulnerabilities results) ->
            In (Registry.severity (AuditCmd.vuln f)) AuditCmd.severityLevels).
  { rewrite (AuditFacts.allVulnerabilities_kept _ _ _ _ Hthreshold Hresults).
    intros f Hf. apply AuditMoreFacts.ranked_level.
    pose proof (AuditFacts.kept_ranked database dependencies threshold) as Hr.
    rewrite Forall_forall in Hr. apply Hr, Hf. }
  split; [|split].
  - intros level Hlevel. unfold AuditReport.generateAuditReport.
    cbn [AuditReport.severityCounts].
    rewrite (AuditMoreFacts.fold_countSeverity _ _ (fun _ => 0) Hlevels);
      [reflexivity| |exact Hlevel].
    intros l Hl. simpl in Hl.
    destruct Hl as [<-|[<-|[<-|[<-|[]]]]]; reflexivity.
  - apply AuditMoreFacts.severity_lengths, Hlevels.
  - apply (AuditMoreFacts.auditEntries_shape database _ dependencies results
             Hresults).
Qed.

(** X18. The sort of the displayed listing keeps ties in report order:
    when the listing is displayed for a threshold among the four levels,
    the audit has returned, and for any severity the displayed findings
    of that severity are the reported findings of that severity in their
    original order. *)
Theorem audit_listing_stable
  (database : string -> AuditCmd.entry)
  (dependencies : Map Parser.dependency) (threshold : string)
  (listing : list AuditCmd.finding)
  (Hthreshold : In threshold AuditCmd.severityLevels)
  (Hlisting : AuditCmd.auditListing database dependencies threshold = Ok listing) :
  exists results,
    AuditCmd.performSecurityAudit database dependencies threshold = Ok results
    /\ Forall Spec.ranked (AuditCmd.allVulnerabilities results)
    /\ forall severity,
         filter (Terms.hasSeverity severity) listing
         = filter (Terms.hasSeverity severity)
             (AuditCmd.allVulnerabilities results).
Proof.
  unfold AuditCmd.auditListing in Hlisting.
  apply JSFacts.bind_ok in Hlisting as (results & Hresults & Hlisting).
  exists results. split; [exact Hresults|]. split.
  { rewrite (AuditFacts.allVulnerabilities_kept _ _ _ _ Hthreshold Hresults).
    apply AuditFacts.kept_ranked. }
  intros severity. unfold AuditCmd.sortedVulns in Hlisting.
  apply (AuditMoreFacts.sort_class AuditCmd.bySeverity
           (Terms.hasSeverity severity)
           (AuditMoreFacts.bySeverity_class severity) _ _ Hlisting).
Qed.

(** X22. A dependency that bears the name of a member the table inherits
    from [Object.prototype], [constructor] for one, makes the audit throw
    whatever the threshold, and no listing is produced. *)
Theorem audit_throws_on_inherited_name
  (database : string -> AuditCmd.entry)
  (dependencies : Map Parser.dependency) (threshold name : string)
  (Hname : In name (map_keys dependencies))
  (Hinherited : database name = AuditCmd.Inherited) :
  (exists e,
     AuditCmd.performSecurityAudit database dependencies threshold = Throw e)
  /\ (exists e,
        AuditCmd.auditListing database dependencies threshold = Throw e).
Proof.
  destruct (AuditFacts.auditEntries_throws database
              (indexOf AuditCmd.severityLevels (toLowerCase threshold))
              dependencies name Hname Hinherited) as (e & He).
  fold (AuditCmd.performSecurityAudit database dependencies threshold) in He.
  split; [exists e; exact He|].
  exists e. unfold AuditCmd.auditListing. rewrite He. reflexivity.
Qed.

End AuditProperties.

Section FixProperties.
Context {L : Semver.Library}.

(** X19. When every finding of a package names a fixed version that,
    once its first [>=] is removed, is the text of a version without a
    numeric pre-release identifier at or above [MAX_SAFE_INTEGER], the
    fix suggestion is ["0.0.0"] or one of these versions, and none of
    them exceeds it. *)
Theorem highestFixedVersion_is_maximum (vulns : list AuditCmd.finding)
  (Hversion : Semver.parse_version L) (Hzero : Semver.parse_zero L)
  (Hvulns : Forall (fun f => Terms.safeText (Terms.fixedVersionOf f)) vulns) :
  exists highest,
    AuditReport.highestFixedVersion vulns = Ok highest
    /\ (highest = "0.0.0"
        \/ exists f, In f vulns /\ highest = Terms.fixedVersionOf f)
    /\ forall f, In f vulns ->
         exists c,
           Semver.compare highest (Terms.fixedVersionOf f) = Ok c /\ (0 <= c)%Z.
Proof.
  assert (Hbase : Terms.safeText "0.0.0").
  { destruct Hzero as (z & Hz & _ & _ & _ & Hpre). exists z.
    split; [exact Hz|]. unfold Spec.safe. rewrite Hpre. reflexivity. }
  destruct (AuditMoreFacts.reduceHigher_max Hversion vulns "0.0.0" Hbase Hvulns)
    as (h & Hred & Hv & Hor & _ & Hmax).
  exists h. split; [exact Hred|]. split; [exact Hor|].
  intros f Hf. rewrite Forall_forall in Hvulns.
  exists (Spec.compareText h (Terms.fixedVersionOf f)).
  split.
  { apply UpdateFacts.compare_text; apply UpdateFacts.safe_valid;
      [exact Hv|exact (Hvulns f Hf)]. }
  rewrite (UpdateFacts.compareText_anti Hversion _ _ (Hvulns f Hf) Hv).
  specialize (Hmax f Hf). lia.
Qed.

(** X20. A single finding whose fixed version, once its first [>=] is
    removed, is not the text of a version (a compound range, say) makes
    the fix suggestion throw. *)
Theorem highestFixedVersion_throws (vulns : list AuditCmd.finding)
  (f : AuditCmd.finding)
  (Hin : In f vulns)
  (Hinvalid : Semver.parse (Terms.fixedVersionOf f) = None) :
  exists e, AuditReport.highestFixedVersion vulns = Throw e.
Proof.
  apply (AuditMoreFacts.reduceHigher_throws vulns "0.0.0" f Hin Hinvalid).
Qed.

End FixProperties.

(** ** Further runs on sample inputs *)

Section MoreRuns.

#[local] Existing Instance SemverRef.library.
Import Examples Samples.

Lemma sample_analyzed : Terms.analyzed dependencies.
Proof.
  intros k d [E|[E|[]]]; injection E as <- <-; reflexivity.
Qed.


Lemma extractDependencies_records_witness :
  Parser.extractDependencies packageJson = Ok extractedSample
  /\ forall k d, In (k, d) extractedSample ->
       Parser.name d = k
       /\ In (Parser.type d) Parser.dependencyTypes
       /\ In (k, Parser.version d)
             (Spec.sectionEntries packageJson (Parser.type d))
       /\ Parser.parseVersionRange (Parser.version d) = Ok (Parser.depRange d).
Proof.
  assert (Hm : Parser.extractDependencies packageJson = Ok extractedSample)
    by reflexivity.
  split; [exact Hm|].
  exact (extractDependencies_records packageJson extractedSample Hm).
Defined.

Lemma getDependencyStats_totals_witness :
  Stats.getDependencyStats packageJson = Ok statsSample
  /\ Stats.exactVersions statsSample + Stats.rangeVersions statsSample
     + Stats.invalidVersions statsSample = Stats.total statsSample
  /\ Terms.sumValues (Stats.byType statsSample) = Stats.total statsSample.
Proof.
  assert (Hs : Stats.getDependencyStats packageJson = Ok statsSample)
    by reflexivity.
  split; [exact Hs|].
  destruct (getDependencyStats_totals packageJson statsSample Hs)
    as (H1 & H2 & _).
  split; assumption.
Defined.

Lemma sample_usable :
  forall k, In k (map_keys dependencies) ->
            Terms.usable (Registry.getLatestVersion (Service := registry) k).
Proof.
  intros k [<-|[<-|[]]]; simpl; [|exact I].
  right. eexists. reflexivity.
Qed.

Lemma checkDependencies_one_result_each_witness :
  Semver.parse_version SemverRef.library
  /\ Semver.parse_zero SemverRef.library
  /\ Terms.analyzed dependencies
  /\ exists results,
      CheckCmd.checkDependencies (R := registry) dependencies = Ok results
      /\ List.map CheckCmd.name results = map_keys dependencies.
Proof.
  split; [exact SemverRefFacts.parse_version_ref|].
  split; [exact SemverRefFacts.parse_zero_ref|].
  split; [exact sample_analyzed|].
  exact (checkDependencies_one_result_each (R := registry) dependencies
           SemverRefFacts.parse_version_ref SemverRefFacts.parse_zero_ref
           sample_analyzed sample_usable).
Defined.

Lemma checkDependencies_aborts_on_invalid_latest_witness :
  In "react" (map_keys dependencies)
  /\ Registry.getLatestVersion (Service := brokenRegistry) "react"
     = fulfilled (Some "next")
  /\ Semver.parse "next" = None
  /\ exists e,
      CheckCmd.checkDependencies (R := brokenRegistry) dependencies = Throw e.
Proof.
  assert (Hkey : In "react" (map_keys dependencies)) by (simpl; tauto).
  split; [exact Hkey|]. split; [reflexivity|]. split; [reflexivity|].
  apply (checkDependencies_aborts_on_invalid_latest (R := brokenRegistry)
           dependencies "react" "next" Hkey eq_refl).
  - discriminate.
  - reflexivity.
Defined.

Lemma checkDependency_exact_version_witness :
  map_get "lodash" dependencies = Some lodash
  /\ Parser.clean (Parser.depRange lodash) = Some "4.17.20"
  /\ exists r,
      CheckCmd.checkDependency dependencies "lodash" (fulfilled (Some "4.17.21"))
      = Ok r
      /\ (CheckCmd.updateAvailable r = true <-> Spec.newer "4.17.20" "4.17.21")
      /\ (CheckCmd.updateAvailable r = false -> CheckCmd.updateType r = None).
Proof.
  split; [reflexivity|]. split; [reflexivity|].
  destruct (checkDependency_exact_version dependencies "lodash" lodash
              "4.17.20" "4.17.21" _ _
              SemverRefFacts.parse_empty_ref SemverRefFacts.parse_version_ref
              eq_refl eq_refl eq_refl eq_refl)
    as (r & Hr & _ & H1 & H2 & _).
  exists r. repeat split; try assumption; apply H1.
Defined.

Lemma check_report_counters_witness :
  CheckCmd.checkDependencies (R := registry) dependencies = Ok checkedSample
  /\ CheckCmd.total (CheckCmd.generateReport checkedSample) = map_size dependencies
  /\ CheckCmd.majorUpdates (CheckCmd.generateReport checkedSample)
     + CheckCmd.minorUpdates (CheckCmd.generateReport checkedSample)
     + CheckCmd.patchUpdates (CheckCmd.generateReport checkedSample)
     <= CheckCmd.outdated (CheckCmd.generateReport checkedSample)
  /\ CheckCmd.vulnerabilityCount (CheckCmd.generateReport checkedSample) = 0.
Proof.
  assert (Hr : CheckCmd.checkDependencies (R := registry) dependencies
               = Ok checkedSample) by reflexivity.
  split; [exact Hr|].
  exact (check_report_counters (R := registry) dependencies checkedSample Hr).
Defined.

Lemma checkDependency_baseline_zero_witness :
  map_get "react" dependencies = Some react
  /\ Parser.clean (Parser.depRange react) = None
  /\ exists r,
      CheckCmd.checkDependency dependencies "react" (fulfilled (Some "0.0.0"))
      = Ok r
      /\ CheckCmd.updateAvailable r = false.
Proof.
  split; [reflexivity|]. split; [reflexivity|].
  destruct (checkDependency_baseline_zero dependencies "react" react "0.0.0" _
              SemverRefFacts.parse_empty_ref SemverRefFacts.parse_version_ref
              SemverRefFacts.parse_zero_ref eq_refl eq_refl eq_refl)
    as (r & Hr & Ha).
  exists r. split; [exact Hr|exact Ha].
Defined.

Lemma getUpdateRecommendations_never_throws_witness :
  Semver.parse_empty SemverRef.library
  /\ Semver.parse_version SemverRef.library
  /\ Terms.analyzed dependencies
  /\ exists results,
      UpdateCmd.getUpdateRecommendations (R := brokenRegistry) dependencies
        withMajor = Ok results
      /\ List.map UpdateCmd.name results = map_keys dependencies
      /\ Forall (fun r => List.length (UpdateCmd.recommendations r) <= 3) results.
Proof.
  split; [exact SemverRefFacts.parse_empty_ref|].
  split; [exact SemverRefFacts.parse_version_ref|].
  split; [exact sample_analyzed|].
  exact (getUpdateRecommendations_never_throws (R := brokenRegistry)
           dependencies withMajor
           SemverRefFacts.parse_empty_ref SemverRefFacts.parse_version_ref
           sample_analyzed).
Defined.

Lemma published_safe : Spec.safeVersions published.
Proof.
  intros v x Hin Hx.
  repeat (destruct Hin as [<-|Hin];
          [vm_compute in Hx;
           first [discriminate Hx | injection Hx as <-; reflexivity]|]).
  destruct Hin.
Qed.

Lemma analyzeAvailableUpdates_lists_newer_witness :
  Parser.clean (Parser.depRange lodash) = Some "4.17.20"
  /\ Spec.safeVersions published
  /\ exists updates,
      UpdateCmd.analyzeAvailableUpdates (Parser.depRange lodash) published false
      = Ok updates
      /\ (forall u, In u updates ->
            In (UpdateCmd.updVersion u) published
            /\ Spec.newer "4.17.20" (UpdateCmd.updVersion u))
      /\ (exists u, In u updates /\ UpdateCmd.updVersion u = "4.18.0")
      /\ StronglySorted
           (fun a b => (Spec.compareText (UpdateCmd.updVersion b)
                          (UpdateCmd.updVersion a) <= 0)%Z)
           updates.
Proof.
  split; [reflexivity|]. split; [exact published_safe|].
  destruct (analyzeAvailableUpdates_lists_newer (Parser.depRange lodash)
              "4.17.20" _ published false
              SemverRefFacts.parse_empty_ref SemverRefFacts.parse_version_ref
              eq_refl eq_refl)
    as (updates & Hu & Hsound & Hcomplete & Hsorted).
  exists updates. split; [exact Hu|]. split; [|split].
  - intros u Hin. destruct (Hsound u Hin) as (H1 & H2 & _). auto.
  - apply Hcomplete; [simpl; tauto|reflexivity|discriminate].
  - exact (Hsorted published_safe).
Defined.

Lemma analyzeAvailableUpdates_without_major_witness :
  Parser.parseVersionRange "4.17.20" = Ok (Parser.depRange lodash)
  /\ exists updates,
      UpdateCmd.analyzeAvailableUpdates (Parser.depRange lodash) published true
      = Ok updates
      /\ UpdateCmd.analyzeAvailableUpdates (Parser.depRange lodash) published false
         = Ok (filter (fun u => negb (UpdateCmd.updType u =? "major")%string)
                 updates).
Proof.
  split; [reflexivity|].
  exact (analyzeAvailableUpdates_without_major "4.17.20"
           (Parser.depRange lodash) published
           SemverRefFacts.parse_empty_ref SemverRefFacts.parse_version_ref
           eq_refl).
Defined.

Lemma recommendations_cover_buckets_witness :
  Parser.clean (Parser.depRange lodash) = Some "4.17.20"
  /\ In "4.18.0" published
  /\ Spec.inBucket "4.17.20" "minor" "4.18.0"
  /\ exists recs r,
      Spec.recommendationsFor lodash published withoutMajor = Ok recs
      /\ In r recs /\ UpdateCmd.type r = "minor".
Proof.
  assert (Hin : In "4.18.0" published) by (simpl; tauto).
  assert (Hb : Spec.inBucket "4.17.20" "minor" "4.18.0")
    by (split; reflexivity).
  split; [reflexivity|]. split; [exact Hin|]. split; [exact Hb|].
  apply (recommendations_cover_buckets lodash published withoutMajor
           "4.17.20" "minor" "4.18.0" _
           SemverRefFacts.parse_empty_ref SemverRefFacts.parse_version_ref
           eq_refl eq_refl Hin Hb).
  - simpl. tauto.
  - discriminate.
Defined.

Lemma update_report_counters_witness :
  UpdateCmd.getUpdateRecommendations (R := registry) dependencies withMajor
  = Ok updatedSample
  /\ UpdateCmd.total (UpdateCmd.generateUpdateReport updatedSample)
     = map_size dependencies
  /\ UpdateCmd.patchUpdates (UpdateCmd.generateUpdateReport updatedSample)
     + UpdateCmd.minorUpdates (UpdateCmd.generateUpdateReport updatedSample)
     + UpdateCmd.majorUpdates (UpdateCmd.generateUpdateReport updatedSample)
     = List.length (flat_map UpdateCmd.recommendations updatedSample).
Proof.
  assert (Hr : UpdateCmd.getUpdateRecommendations (R := registry)
                 dependencies withMajor = Ok updatedSample) by reflexivity.
  split; [exact Hr|].
  destruct (update_report_counters (R := registry) dependencies withMajor
              updatedSample Hr) as (H1 & H2 & _).
  split; assumption.
Defined.

Lemma check_and_update_agree_witness :
  map_get "lodash" dependencies = Some lodash
  /\ In "4.17.21" published
  /\ Spec.safeVersions published
  /\ exists checked,
      CheckCmd.checkDependency dependencies "lodash" (fulfilled (Some "4.17.21"))
      = Ok checked
      /\ CheckCmd.updateType checked = Some "patch"
      /\ exists recs r,
          Spec.recommendationsFor lodash published withoutMajor = Ok recs
          /\ In r recs
          /\ UpdateCmd.type r = "patch"
          /\ exists cmp,
              Semver.compare (UpdateCmd.version r) "4.17.21" = Ok cmp
              /\ (0 <= cmp)%Z.
Proof.
  assert (Hin : In "4.17.21" published) by (simpl; tauto).
  assert (Hpatch : In "patch" Spec.buckets) by (simpl; tauto).
  assert (Hmajor : "patch" = "major" -> UpdateCmd.optMajor withoutMajor = true)
    by discriminate.
  split; [reflexivity|]. split; [exact Hin|]. split; [exact published_safe|].
  eexists. split; [reflexivity|]. split; [reflexivity|].
  destruct (check_and_update_agree dependencies "lodash" lodash "4.17.20"
              "4.17.21" "patch" _ published withoutMajor _
              SemverRefFacts.parse_empty_ref SemverRefFacts.parse_version_ref
              eq_refl eq_refl eq_refl eq_refl eq_refl Hpatch Hmajor Hin)
    as (recs & r & Hrecs & Hr & Ht & Hcmp).
  exists recs, r. split; [exact Hrecs|]. split; [exact Hr|].
  split; [exact Ht|]. exact (Hcmp published_safe).
Defined.

Lemma audit_unrecognized_threshold_witness :
  ~ In (toLowerCase "INFO") AuditCmd.severityLevels
  /\ AuditCmd.performSecurityAudit database dependencies "INFO"
     = Ok (auditedSample "INFO")
  /\ AuditCmd.allVulnerabilities (auditedSample "INFO")
     = Terms.allFindings database dependencies.
Proof.
  assert (H : ~ In (toLowerCase "INFO") AuditCmd.severityLevels).
  { simpl. intros [E|[E|[E|[E|[]]]]]; discriminate E. }
  assert (Hr : AuditCmd.performSecurityAudit database dependencies "INFO"
               = Ok (auditedSample "INFO")) by reflexivity.
  split; [exact H|]. split; [exact Hr|].
  exact (audit_unrecognized_threshold database dependencies "INFO" _ H Hr).
Defined.

Lemma audit_threshold_monotone_witness :
  In "low" AuditCmd.severityLevels
  /\ In "high" AuditCmd.severityLevels
  /\ Spec.atLeast "low" "high" = true
  /\ AuditCmd.performSecurityAudit database dependencies "low"
     = Ok (auditedSample "low")
  /\ exists atHigher,
      AuditCmd.performSecurityAudit database dependencies "high" = Ok atHigher
      /\ AuditCmd.allVulnerabilities atHigher
         = filter (fun f => Spec.atLeast "high"
                              (Registry.severity (AuditCmd.vuln f)))
             (AuditCmd.allVulnerabilities (auditedSample "low")).
Proof.
  assert (H1 : In "low" AuditCmd.severityLevels) by (simpl; tauto).
  assert (H2 : In "high" AuditCmd.severityLevels) by (simpl; tauto).
  assert (Hr : AuditCmd.performSecurityAudit database dependencies "low"
               = Ok (auditedSample "low")) by reflexivity.
  split; [exact H1|]. split; [exact H2|]. split; [reflexivity|].
  split; [exact Hr|].
  exact (audit_threshold_monotone database dependencies "low" "high" _ H1 H2
           eq_refl Hr).
Defined.

Lemma audit_report_counters_witness :
  In "moderate" AuditCmd.severityLevels
  /\ AuditCmd.performSecurityAudit database dependencies "moderate"
     = Ok (auditedSample "moderate")
  /\ map_get "high"
       (AuditReport.severityCounts
          (AuditReport.generateAuditReport (auditedSample "moderate")
             "moderate"))
     = Some (AuditReport.Count
               (Terms.countIn "high"
                  (AuditCmd.allVulnerabilities (auditedSample "moderate")))).
Proof.
  assert (H : In "moderate" AuditCmd.severityLevels) by (simpl; tauto).
  assert (Hr : AuditCmd.performSecurityAudit database dependencies "moderate"
               = Ok (auditedSample "moderate")) by reflexivity.
  split; [exact H|]. split; [exact Hr|].
  destruct (audit_report_counters database dependencies "moderate" _ H Hr)
    as (Hcount & _).
  apply Hcount. simpl. tauto.
Defined.

Lemma audit_listing_stable_witness :
  In "low" AuditCmd.severityLevels
  /\ AuditCmd.auditListing database dependencies "low" = Ok listingSample
  /\ exists results,
      AuditCmd.performSecurityAudit database dependencies "low" = Ok results
      /\ filter (Terms.hasSeverity "high") listingSample
         = filter (Terms.hasSeverity "high")
             (AuditCmd.allVulnerabilities results).
Proof.
  assert (H : In "low" AuditCmd.severityLevels) by (simpl; tauto).
  assert (Hl : AuditCmd.auditListing database dependencies "low"
               = Ok listingSample) by reflexivity.
  split; [exact H|]. split; [exact Hl|].
  destruct (audit_listing_stable database dependencies "low" listingSample H
              Hl) as (results & Hr & _ & Hsame).
  exists results. split; [exact Hr|]. apply Hsame.
Defined.

Lemma audit_throws_on_inherited_name_witness :
  In "constructor" (map_keys shadowing)
  /\ AuditCmd.lookup AuditCmd.mockVulnerabilities "constructor"
     = AuditCmd.Inherited
  /\ exists e,
      AuditCmd.performSecurityAudit
        (AuditCmd.lookup AuditCmd.mockVulnerabilities) shadowing "low"
      = Throw e.
Proof.
  assert (H : In "constructor" (map_keys shadowing)) by (simpl; tauto).
  split; [exact H|]. split; [reflexivity|].
  exact (proj1 (audit_throws_on_inherited_name
                  (AuditCmd.lookup AuditCmd.mockVulnerabilities) shadowing
                  "low" "constructor" H eq_refl)).
Defined.

Lemma highestFixedVersion_is_maximum_witness :
  Forall (fun f => Terms.safeText (Terms.fixedVersionOf f))
    [fixedBy "lodash" ">=4.17.12"; fixedBy "lodash" ">=4.17.21"]
  /\ exists highest,
      AuditReport.highestFixedVersion
        [fixedBy "lodash" ">=4.17.12"; fixedBy "lodash" ">=4.17.21"]
      = Ok highest
      /\ (highest = "0.0.0"
          \/ exists f,
              In f [fixedBy "lodash" ">=4.17.12"; fixedBy "lodash" ">=4.17.21"]
              /\ highest = Terms.fixedVersionOf f)
      /\ forall f,
          In f [fixedBy "lodash" ">=4.17.12"; fixedBy "lodash" ">=4.17.21"] ->
          exists c,
            Semver.compare highest (Terms.fixedVersionOf f) = Ok c
            /\ (0 <= c)%Z.
Proof.
  assert (H : Forall (fun f => Terms.safeText (Terms.fixedVersionOf f))
                [fixedBy "lodash" ">=4.17.12"; fixedBy "lodash" ">=4.17.21"]).
  { repeat constructor; eexists; split; reflexivity. }
  split; [exact H|].
  exact (highestFixedVersion_is_maximum _
           SemverRefFacts.parse_version_ref SemverRefFacts.parse_zero_ref H).
Defined.

Lemma highestFixedVersion_throws_witness :
  In (fixedBy "axios" ">=1.6.0 <2.0.0")
     [fixedBy "axios" ">=1.5.1"; fixedBy "axios" ">=1.6.0 <2.0.0"]
  /\ Semver.parse (Terms.fixedVersionOf (fixedBy "axios" ">=1.6.0 <2.0.0")) = None
  /\ exists e,
      AuditReport.highestFixedVersion
        [fixedBy "axios" ">=1.5.1"; fixedBy "axios" ">=1.6.0 <2.0.0"]
      = Throw e.
Proof.
  assert (H : In (fixedBy "axios" ">=1.6.0 <2.0.0")
                [fixedBy "axios" ">=1.5.1"; fixedBy "axios" ">=1.6.0 <2.0.0"])
    by (simpl; tauto).
  split; [exact H|]. split; [reflexivity|].
  exact (highestFixedVersion_throws _ _ H eq_refl).
Defined.

(** Numeric pre-release identifiers at or above [MAX_SAFE_INTEGER] are
    compared as Numbers: [9007199254740993] rounds to [9007199254740992],
    so neither of the two pre-releases is newer than the other, no update
    is listed, and the first fixed version stays the highest. *)
Example colliding_identifiers :
  Semver.toNumber "9007199254740993" = 9007199254740992%N
  /\ Semver.gt "1.0.0-9007199254740993" "1.0.0-9007199254740992" = Ok false
  /\ UpdateCmd.analyzeAvailableUpdates
       (Parser.depRange (declared "demo" "1.0.0-9007199254740992"))
       ["1.0.0-9007199254740993"] true
     = Ok []
  /\ AuditReport.highestFixedVersion
       [ fixedBy "demo" ">=1.0.0-9007199254740992";
         fixedBy "demo" ">=1.0.0-9007199254740993" ]
     = Ok "1.0.0-9007199254740992".
Proof. repeat split; vm_compute; reflexivity. Qed.

(** The mock findings shipped with the audit lead to these suggestions. *)
Example fix_for_lodash :
  option_map AuditReport.highestFixedVersion
    (option_map (List.map (fun v => {| AuditCmd.vuln := v;
                                       AuditCmd.findingPackage := "lodash";
                                       AuditCmd.findingCurrentVersion := "4.17.20";
                                       AuditCmd.findingDependencyType := "dependencies" |}))
       (map_get "lodash" AuditCmd.mockVulnerabilities))
  = Some (Ok "4.17.21").
Proof. reflexivity. Qed.

End MoreRuns.

Section AnalyzerProperties.
Context {L : Semver.Library}.

(** X21. When [parseVersionRange] resolves a specifier to an exact
    version, [valid] repeats [clean], the resolved text is itself a
    version, and [major], [minor] and [patch] are the three numbers of
    that version; [original] and [range] are the specifier and its
    [validRange] in every case. *)
Theorem parseVersionRange_resolved_numbers (version current : string)
  (info : Parser.VersionRangeInfo)
  (Hempty : Semver.parse_empty L) (Hversion : Semver.parse_version L)
  (Hinfo : Parser.parseVersionRange version = Ok info)
  (Hclean : Parser.clean info = Some current) :
  Parser.valid info = Some current
  /\ Parser.original info = version
  /\ Parser.range info = Semver.validRange version
  /\ exists x,
      Semver.parse current = Some x
      /\ Parser.major info = Some (Semver.major x)
      /\ Parser.minor info = Some (Semver.minor x)
      /\ Parser.patch info = Some (Semver.patch x).
Proof.
  destruct (Semver.parse (Semver.stripEqV (trim version))) as [x|] eqn:Hx.
  - rewrite (ParserFacts.parseVersionRange_exact Hempty Hversion _ _ Hx)
      in Hinfo.
    injection Hinfo as <-. cbn in *. injection Hclean as <-.
    repeat split. exists x. split; [apply (Hversion _ _ Hx)|].
    repeat split.
  - rewrite (ParserFacts.parseVersionRange_inexact _ Hx) in Hinfo.
    injection Hinfo as <-. discriminate Hclean.
Qed.

End AnalyzerProperties.

Section AnalyzerRuns.

#[local] Existing Instance SemverRef.library.

Lemma parseVersionRange_resolved_numbers_witness :
  Parser.parseVersionRange " =v4.17.20 "
  = Ok (Parser.depRange (Examples.declared "lodash" " =v4.17.20 "))
  /\ Parser.clean (Parser.depRange (Examples.declared "lodash" " =v4.17.20 "))
     = Some "4.17.20"
  /\ Parser.valid (Parser.depRange (Examples.declared "lodash" " =v4.17.20 "))
     = Some "4.17.20"
  /\ exists x,
      Semver.parse "4.17.20" = Some x
      /\ Parser.major (Parser.depRange (Examples.declared "lodash" " =v4.17.20 "))
         = Some (Semver.major x).
Proof.
  assert (Hinfo : Parser.parseVersionRange " =v4.17.20 "
                  = Ok (Parser.depRange (Examples.declared "lodash" " =v4.17.20 ")))
    by reflexivity.
  assert (Hclean : Parser.clean
                     (Parser.depRange (Examples.declared "lodash" " =v4.17.20 "))
                   = Some "4.17.20") by reflexivity.
  split; [exact Hinfo|]. split; [exact Hclean|].
  destruct (parseVersionRange_resolved_numbers " =v4.17.20 " "4.17.20" _
              SemverRefFacts.parse_empty_ref SemverRefFacts.parse_version_ref
              Hinfo Hclean) as (Hv & _ & _ & x & Hx & Hm & _).
  split; [exact Hv|]. exists x. split; assumption.
Defined.

End AnalyzerRuns.
